(** * shapash: the SmartPredictor orchestrator

    A shallow embedding of [shapash/explainer/smart_predictor.py].

    The class keeps its state in instance attributes ([self.data],
    [self.mask_params], [self.state], ...) and signals every failure with a
    Python exception.  Methods are therefore embedded as computations in a
    state monad over the attribute record whose result is either a value or
    a raised exception; an exception leaves the attributes as they were
    mutated up to the [raise].

    Dictionaries are [gmap]s, [None] is a value of the object universe, and
    [hasattr(self, "data")] is the [data] attribute being [Some _]. *)

From stdpp Require Import gmap strings list fin_maps numbers.
From Stdlib Require Import QArith Qabs.
Local Open Scope Z_scope.

(** ** Tables and Python values *)

(** One cell of a pandas table.  Numbers are rationals. *)
Inductive cell :=
| CNull
| CNum (q : Q)
| CBool (b : bool)
| CStr (s : string).

(** A [pandas.DataFrame], row-major: the row labels, the column labels with
    the dtype of each column (what [str(x[c].dtypes)] prints), the rows. *)
Record DataFrame := mkFrame {
  index : list Z;
  columns : list (string * string);
  rows : list (list cell)
}.

Definition column_names (df : DataFrame) : list string := (columns df).*1.

Definition frame_map (f : cell → cell) (df : DataFrame) : DataFrame :=
  {| index := index df; columns := columns df; rows := map (map f) (rows df) |}.

(** The values the orchestrator receives, stores and hands around. *)
#[warnings="-register-all"]
Inductive pyobj :=
| PNone
| PBool (b : bool)
| PInt (z : Z)
| PFloat (q : Q)
| PStr (s : string)
| PList (l : list pyobj)
| PDict (d : list (string * cell))
| PFrame (df : DataFrame)
| PArray (a : list (list Q))
| PObj (name : string).

Definition is_None (v : pyobj) : bool :=
  match v with PNone => true | _ => false end.

(** Python truthiness, as [if preprocessing:] uses it. *)
Definition truthy (v : pyobj) : bool :=
  match v with
  | PNone => false
  | PBool b => b
  | PInt z => negb (z =? 0)
  | PFloat q => negb (Qeq_bool q 0)
  | PStr s => negb (String.eqb s "")
  | PList l => negb (Nat.eqb (length l) 0)
  | PDict d => negb (Nat.eqb (length d) 0)
  | PFrame _ | PArray _ | PObj _ => true
  end.

(** A generator object defines neither [__bool__] nor [__len__]: it is true
    whatever it would yield, and testing it consumes nothing. *)
Definition generator_truthy {A} (gen : list A) : bool := true.

(** ** Exceptions *)

Inductive exn :=
| ValueError (msg : string)
| KeyError (key : pyobj)
| AttributeError (name : string)
| TypeError (msg : string)
| AssertionError
| ExternalError (msg : string).

Inductive result (A : Type) :=
| Ok (a : A)
| Raise (e : exn).
Arguments Ok {A} a.
Arguments Raise {A} e.

(** The messages of the module.  The source writes most of them as indented
    triple-quoted literals; the surrounding white space is left out. *)
Definition msg_no_dataset : string := "No dataset x specified.".
Definition msg_preprocessing_failed : string :=
  "Preprocessing has failed. The preprocessing specified or the dataset doesn't match.".
Definition msg_x_type : string := "x must be a dict or a pandas.DataFrame.".
Definition msg_dict_features : string :=
  "All features from dataset x must be in the features_types dict initialized.".
Definition msg_dict_structure : string :=
  "The structure of the given dict x isn't at the right format.".
Definition msg_columns_dict_keys : string :=
  "columns_dict must have only integers keys for features order.".
Definition msg_features_types : string :=
  "Types of features in x doesn't match with the expected one in features_types.".
Definition msg_contributions_shape : string :=
  "Prediction set and contributions should have exactly the same number of lines and number of columns. the order of the columns must be the same Please check x, contributions and preprocessing arguments.".
Definition msg_add_input_first : string :=
  "add_input method must be called at least once.".
Definition msg_x_for_contributions : string :=
  "x must be specified in an add_input method to apply detail_contributions.".
Definition msg_x_for_predict : string :=
  "x must be specified in an add_input method to apply predict.".
Definition msg_no_predict : string := "model has no predict method".
Definition msg_summarize_needs_input : string :=
  "You have to specify dataset x and y_pred arguments. Please use add_input() method.".

(** ** The attributes of a SmartPredictor *)

(** The model: an opaque object that may or may not have a [predict]. *)
Record Model := mkModel {
  model_name : string;
  model_predict : option (pyobj → result pyobj)
}.

(** [SmartState()] or [MultiDecorator(SmartState())]. *)
Inductive smart_state :=
| SmartState
| MultiDecorator (inner : smart_state).

(** The dictionary [assign_contributions] returns, with the three keys the
    orchestrator reads from [self.summary]. *)
Record Summary := mkSummary {
  contrib_sorted : DataFrame;
  x_sorted : DataFrame;
  var_dict : DataFrame
}.

Record SmartPredictor := mkSelf {
  model : Model;
  _case : string;
  _classes : pyobj;
  explainer : pyobj;
  preprocessing : pyobj;
  features_dict : gmap string string;
  features_types : gmap string string;
  label_dict : pyobj;
  postprocessing : pyobj;
  columns_dict : gmap Z string;
  mask_params : gmap string pyobj;
  (* attributes that exist only once a method has set them *)
  data : option (gmap string pyobj);
  state : option smart_state;
  summary : option Summary;
  mask : option DataFrame;
  masked_contributions : option pyobj
}.

Definition with_data (d : gmap string pyobj) (s : SmartPredictor) : SmartPredictor :=
  mkSelf (model s) (_case s) (_classes s) (explainer s) (preprocessing s)
    (features_dict s) (features_types s) (label_dict s) (postprocessing s)
    (columns_dict s) (mask_params s)
    (Some d) (state s) (summary s) (mask s) (masked_contributions s).

Definition with_state (st : smart_state) (s : SmartPredictor) : SmartPredictor :=
  mkSelf (model s) (_case s) (_classes s) (explainer s) (preprocessing s)
    (features_dict s) (features_types s) (label_dict s) (postprocessing s)
    (columns_dict s) (mask_params s)
    (data s) (Some st) (summary s) (mask s) (masked_contributions s).

Definition with_summary (sm : Summary) (s : SmartPredictor) : SmartPredictor :=
  mkSelf (model s) (_case s) (_classes s) (explainer s) (preprocessing s)
    (features_dict s) (features_types s) (label_dict s) (postprocessing s)
    (columns_dict s) (mask_params s)
    (data s) (state s) (Some sm) (mask s) (masked_contributions s).

Definition with_mask (m : DataFrame) (s : SmartPredictor) : SmartPredictor :=
  mkSelf (model s) (_case s) (_classes s) (explainer s) (preprocessing s)
    (features_dict s) (features_types s) (label_dict s) (postprocessing s)
    (columns_dict s) (mask_params s)
    (data s) (state s) (summary s) (Some m) (masked_contributions s).

Definition with_masked_contributions (v : pyobj) (s : SmartPredictor) : SmartPredictor :=
  mkSelf (model s) (_case s) (_classes s) (explainer s) (preprocessing s)
    (features_dict s) (features_types s) (label_dict s) (postprocessing s)
    (columns_dict s) (mask_params s)
    (data s) (state s) (summary s) (mask s) (Some v).

Definition with_mask_params (mp : gmap string pyobj) (s : SmartPredictor) : SmartPredictor :=
  mkSelf (model s) (_case s) (_classes s) (explainer s) (preprocessing s)
    (features_dict s) (features_types s) (label_dict s) (postprocessing s)
    (columns_dict s) mp
    (data s) (state s) (summary s) (mask s) (masked_contributions s).

(** What the constructor fixes once and for all. *)
Definition same_configuration (s1 s2 : SmartPredictor) : Prop :=
  model s1 = model s2 ∧ _case s1 = _case s2 ∧ _classes s1 = _classes s2 ∧
  explainer s1 = explainer s2 ∧ preprocessing s1 = preprocessing s2 ∧
  features_dict s1 = features_dict s2 ∧ features_types s1 = features_types s2 ∧
  label_dict s1 = label_dict s2 ∧ postprocessing s1 = postprocessing s2 ∧
  columns_dict s1 = columns_dict s2.

(** ** Methods as stateful, fallible computations *)

Definition M (A : Type) : Type := SmartPredictor → SmartPredictor * result A.

Definition ret {A} (a : A) : M A := λ s, (s, Ok a).
Definition raise {A} (e : exn) : M A := λ s, (s, Raise e).
Definition bind {A B} (c : M A) (k : A → M B) : M B :=
  λ s, match c s with
       | (s', Ok a) => k a s'
       | (s', Raise e) => (s', Raise e)
       end.

#[global] Instance M_ret : MRet M := @ret.
#[global] Instance M_bind : MBind M := λ A B k c, bind c k.

(** [try: body / except BaseException: handler]: every exception of the body
    is caught; the handler runs on the attributes as the body left them. *)
Definition try_except {A} (body : M A) (handler : exn → M A) : M A :=
  λ s, match body s with
       | (s', Ok a) => (s', Ok a)
       | (s', Raise e) => handler e s'
       end.

(** A call of a function that does not touch [self]. *)
Definition call {A} (r : result A) : M A := λ s, (s, r).

Definition get_self : M SmartPredictor := λ s, (s, Ok s).
Definition put_self (s' : SmartPredictor) : M unit := λ _, (s', Ok tt).
Definition modify_self (f : SmartPredictor → SmartPredictor) : M unit :=
  λ s, (f s, Ok tt).

(** [hasattr(self, "data")] *)
Definition hasattr_data : M bool :=
  λ s, (s, Ok match data s with Some _ => true | None => false end).

(** [self.data] *)
Definition self_data : M (gmap string pyobj) :=
  λ s, match data s with
       | Some d => (s, Ok d)
       | None => (s, Raise (AttributeError "data"))
       end.

(** [self.data[key]] *)
Definition data_getitem (key : string) : M pyobj :=
  d ← self_data;
  match d !! key with
  | Some v => mret v
  | None => raise (KeyError (PStr key))
  end.

(** [self.data[key] = v]: the dictionary is updated in place. *)
Definition data_setitem (key : string) (v : pyobj) : M unit :=
  d ← self_data; modify_self (with_data (<[key := v]> d)).

(** [self.summary] *)
Definition self_summary : M Summary :=
  λ s, match summary s with
       | Some sm => (s, Ok sm)
       | None => (s, Raise (AttributeError "summary"))
       end.

(** [self.mask] *)
Definition self_mask : M DataFrame :=
  λ s, match mask s with
       | Some m => (s, Ok m)
       | None => (s, Raise (AttributeError "mask"))
       end.

(** [self.state] *)
Definition self_state : M smart_state :=
  λ s, match state s with
       | Some st => (s, Ok st)
       | None => (s, Raise (AttributeError "state"))
       end.

(** [self.mask_params[key]] *)
Definition mask_params_getitem (key : string) : M pyobj :=
  s ← get_self;
  match mask_params s !! key with
  | Some v => mret v
  | None => raise (KeyError (PStr key))
  end.

(** An attribute of a table read on a value that may not be one. *)
Definition as_frame (attr : string) (v : pyobj) : result DataFrame :=
  match v with
  | PFrame df => Ok df
  | _ => Raise (AttributeError attr)
  end.

(** ** Helpers of the package that live outside the orchestrator *)

(** [shapash.utils.transform] *)
Module transform.

Definition cell_neg (c : cell) : cell :=
  match c with
  | CNum q => CNum (- q)%Q
  | _ => c
  end.

(** Modelled from the spec: the [-contributions] of the sequence
    [[-contributions, contributions]], for a table or an array. *)
Definition neg_contributions (contributions : pyobj) : pyobj :=
  match contributions with
  | PFrame df => PFrame (frame_map cell_neg df)
  | PArray a => PArray (map (map Qopp) a)
  | _ => contributions
  end.

Definition is_table_or_array (v : pyobj) : bool :=
  match v with
  | PFrame _ | PArray _ => true
  | _ => false
  end.

(** Modelled from the spec: [adapt_contributions] of
    [shapash/utils/transform.py] is missing from the sources.
    "If case is classification and input is a single table/array, convert
    to a two-element sequence [[-contributions, contributions]]"; every
    other input is handed on as it is (a sequence for a classifier, and
    whatever a regressor is given: rejecting is the job of
    [check_contribution_object]). *)
Definition adapt_contributions (case : string) (contributions : pyobj) : pyobj :=
  if is_table_or_array contributions && String.eqb case "classification"
  then PList [neg_contributions contributions; contributions]
  else contributions.

End transform.

(** Boolean tables.  A cell that is not [True] counts as [False]. *)
Definition cell_true (c : cell) : bool :=
  match c with CBool b => b | _ => false end.

(** [shapash.manipulation.mask] *)
Module manipulation_mask.

(** Modelled from the spec: [init_mask] of [shapash/manipulation/mask.py]
    is missing from the sources.  "Base mask: always-True table of
    the same shape"; the second argument is the value to fill with. *)
Definition init_mask (like : DataFrame) (value : bool) : DataFrame :=
  frame_map (λ _, CBool value) like.

End manipulation_mask.

(** [shapash.manipulation.filters] *)
Module filters.

(** Modelled from the spec: [cap_contributions] of
    [shapash/manipulation/filters.py] is missing from the sources.
    "Threshold: True where abs(contribution) >= threshold (boundary
    included)".  A missing value compares false. *)
Definition cap_contributions (contributions : DataFrame) (threshold : Q) : DataFrame :=
  frame_map (λ c, CBool match c with
                        | CNum q => Qle_bool threshold (Qabs q)
                        | _ => false
                        end) contributions.

(** Modelled from the spec: [sign_contributions] of
    [shapash/manipulation/filters.py] is missing from the sources.
    "If positive = True, keep strictly positive contributions only; if
    False, keep strictly negative only". *)
Definition sign_contributions (contributions : DataFrame) (positive : bool) : DataFrame :=
  frame_map (λ c, CBool match c with
                        | CNum q =>
                            if positive then negb (Qle_bool q 0)
                            else negb (Qle_bool 0 q)
                        | _ => false
                        end) contributions.

(** Modelled from the spec: the "element-wise AND" of two masks, cell by
    cell and table by table. *)
Definition cell_and (c1 c2 : cell) : cell := CBool (cell_true c1 && cell_true c2).

Definition mask_and (m1 m2 : DataFrame) : DataFrame :=
  {| index := index m1; columns := columns m1;
     rows := zip_with (zip_with cell_and) (rows m1) (rows m2) |}.

(** Modelled from the spec: [combine_masks] of
    [shapash/manipulation/filters.py] is missing from the sources.
    "Combination: element-wise AND across all active filter masks"; the
    masks are tables of one shape, the first gives the labels. *)
Definition combine_masks (masks_list : list DataFrame) : DataFrame :=
  match masks_list with
  | [] => mkFrame [] [] []
  | m :: ms => foldl mask_and m ms
  end.

(** Modelled from the spec: one row of the cut-off, "keep only the first k"
    of the kept positions "and force the rest to False". *)
Fixpoint cutoff_row (k : nat) (row : list cell) : list cell :=
  match row with
  | [] => []
  | c :: row' =>
      if cell_true c then
        match k with
        | O => CBool false :: cutoff_row O row'
        | S k' => CBool true :: cutoff_row k' row'
        end
      else CBool false :: cutoff_row k row'
  end.

(** Modelled from the spec: [cutoff_contributions] of
    [shapash/manipulation/filters.py] is missing from the sources.
    "Per row, among currently-kept positions (in rank order), keep only the
    first k and force the rest to False". *)
Definition cutoff_contributions (mask : DataFrame) (k : Z) : DataFrame :=
  {| index := index mask; columns := columns mask;
     rows := map (cutoff_row (Z.to_nat k)) (rows mask) |}.

End filters.

(** [shapash.decomposition.contributions] *)
Module contributions.

(** Modelled from the spec: [assign_contributions] of
    [shapash/decomposition/contributions.py] is missing from the sources.  The ranker "produces three row-aligned ordered sequences":
    contributions, feature values and feature identifiers in rank order;
    they are stored under the keys the orchestrator reads. *)
Definition assign_contributions (ranked : DataFrame * DataFrame * DataFrame) : Summary :=
  let '(contrib, x_val, var) := ranked in
  {| contrib_sorted := contrib; x_sorted := x_val; var_dict := var |}.

End contributions.

(** The collaborators the orchestrator calls and this development leaves
    abstract: the checks of [shapash.utils.check], the SHAP back end, the
    model and preprocessing adapters, the strategy behind [self.state], the
    ranker and summariser, and the pandas constructors. *)
Module ext.

Record Collaborators := {
  check_model : Model → result (string * pyobj);
  check_explainer : pyobj → result pyobj;
  check_preprocessing_options : pyobj → result unit;
  check_preprocessing : pyobj → result pyobj;
  check_label_dict : pyobj → string → pyobj → result pyobj;
  check_mask_params : gmap string pyobj → result pyobj;
  check_ypred : pyobj → pyobj → result pyobj;
  check_contribution_object : string → pyobj → pyobj → result unit;
  shap_contributions : Model → pyobj → pyobj → result (pyobj * pyobj);
  keep_right_contributions :
    pyobj → pyobj → string → pyobj → pyobj → pyobj → result (pyobj * pyobj);
  predict_proba : Model → pyobj → pyobj → result pyobj;
  apply_preprocessing : pyobj → Model → pyobj → result pyobj;
  (* methods of SmartState / MultiDecorator *)
  validate_contributions : smart_state → pyobj → pyobj → result pyobj;
  check_contributions : smart_state → pyobj → pyobj → bool → result bool;
  inverse_transform_contributions : smart_state → pyobj → pyobj → result pyobj;
  (* ranking and summary *)
  rank_contributions : pyobj → pyobj → result (DataFrame * DataFrame * DataFrame);
  compute_masked_contributions : DataFrame → DataFrame → result pyobj;
  summarize :
    DataFrame → DataFrame → DataFrame → DataFrame →
    gmap Z string → gmap string string → result pyobj;
  (* pandas *)
  pd_concat_axis1 : list pyobj → result pyobj;
  pd_DataFrame : pyobj → list string → list Z → result pyobj;
  pd_DataFrame_from_dict_T : list (string * cell) → result DataFrame;
  astype : DataFrame → string → string → result DataFrame
}.

End ext.

(** ** pandas and dict operations used by the dataset checks *)

(** Position of the first column called [name]. *)
Fixpoint column_position (name : string) (cols : list string) : option nat :=
  match cols with
  | [] => None
  | c :: cols' =>
      if String.eqb c name then Some O
      else S <$> column_position name cols'
  end.

Fixpoint column_positions (names cols : list string) : result (list nat) :=
  match names with
  | [] => Ok []
  | n :: names' =>
      match column_position n cols with
      | None => Raise (KeyError (PStr n))
      | Some i =>
          match column_positions names' cols with
          | Ok l => Ok (i :: l)
          | Raise e => Raise e
          end
      end
  end.

Definition pick {A} (d : A) (l : list A) (positions : list nat) : list A :=
  map (λ i, default d (l !! i)) positions.

(** [x[names]]: the columns called [names], in that order; a name that is
    no column of [x] is a [KeyError]. *)
Definition select_columns (x : DataFrame) (names : list string) : result DataFrame :=
  match column_positions names (column_names x) with
  | Raise e => Raise e
  | Ok ps =>
      Ok {| index := index x;
            columns := pick (""%string, ""%string) (columns x) ps;
            rows := map (λ r, pick CNull r ps) (rows x) |}
  end.

(** [str(x[feature].dtypes)] *)
Definition dtype_of (x : DataFrame) (feature : string) : string :=
  match column_position feature (column_names x) with
  | Some i => default ""%string ((columns x).*2 !! i)
  | None => ""%string
  end.

Definition dict_keys {K V} `{Countable K} (d : gmap K V) : list K := (map_to_list d).*1.
Definition dict_values {K V} `{Countable K} (d : gmap K V) : list V := (map_to_list d).*2.

(** [min(keys)] and [max(keys)]; both raise on an empty sequence. *)
Definition py_min (l : list Z) : result Z :=
  match l with
  | [] => Raise (ValueError "min() arg is an empty sequence")
  | z :: l' => Ok (foldr Z.min z l')
  end.

Definition py_max (l : list Z) : result Z :=
  match l with
  | [] => Raise (ValueError "max() arg is an empty sequence")
  | z :: l' => Ok (foldr Z.max z l')
  end.

(** [range(lo, hi)] *)
Definition py_range (lo hi : Z) : list Z := seqZ lo (hi - lo).

(** ** The methods of SmartPredictor *)

Section methods.

Context (env : ext.Collaborators).

(** The default of [mask_params]: no filter. *)
Definition default_mask_params : gmap string pyobj :=
  <["features_to_hide" := PNone]>
    (<["threshold" := PNone]>
       (<["positive" := PNone]>
          (<["max_contrib" := PNone]> ∅))).

Definition isinstance_dict (v : pyobj) : bool :=
  match v with PDict _ => true | _ => false end.

(** [__init__].  The three dictionaries the dataset checks index into are
    typed as dictionaries; [label_dict] and [postprocessing] may be [None]
    and go through the [isinstance(params, dict)] loop, whose message is
    kept without the formatted value. *)
Definition init (features_dict : gmap string string) (model : Model)
    (columns_dict : gmap Z string) (explainer : pyobj)
    (features_types : gmap string string)
    (label_dict preprocessing postprocessing : pyobj)
    (mask_params : gmap string pyobj) : result SmartPredictor :=
  match List.find (λ params, negb (is_None params) && negb (isinstance_dict params))
                  [label_dict; postprocessing] with
  | Some _ => Raise (ValueError "must be a dict.")
  | None =>
  match ext.check_model env model with
  | Raise e => Raise e
  | Ok (case, classes) =>
  match ext.check_explainer env explainer with
  | Raise e => Raise e
  | Ok explainer' =>
  match ext.check_preprocessing_options env preprocessing with
  | Raise e => Raise e
  | Ok _ =>
  match ext.check_preprocessing env preprocessing with
  | Raise e => Raise e
  | Ok _ =>
  match (if negb (String.eqb case "regression")
         then ext.check_label_dict env label_dict case classes
         else Ok PNone) with
  | Raise e => Raise e
  | Ok _ =>
  match ext.check_mask_params env mask_params with
  | Raise e => Raise e
  | Ok _ =>
      Ok {| model := model; _case := case; _classes := classes;
            explainer := explainer'; preprocessing := preprocessing;
            features_dict := features_dict; features_types := features_types;
            label_dict := label_dict; postprocessing := postprocessing;
            columns_dict := columns_dict; mask_params := mask_params;
            data := None; state := None; summary := None; mask := None;
            masked_contributions := None |}
  end end end end end end end.

(** [convert_dict_dataset] *)
Definition convert_dict_dataset (x : pyobj) : M pyobj :=
  match x with
  | PDict d =>
      try_except
        (s ← get_self;
         if negb (forallb (λ column, bool_decide (column ∈ dict_keys (features_types s))) d.*1)
         then raise (ValueError msg_dict_features)
         else
           x0 ← call (ext.pd_DataFrame_from_dict_T env d);
           x' ← foldl (λ acc item,
                         xi ← acc;
                         call (ext.astype env xi item.1 item.2))
                      (mret x0) (map_to_list (features_types s));
           mret (PFrame x'))
        (λ _, raise (ValueError msg_dict_structure))
  | _ => mret x
  end.

(** [check_dataset_type] *)
Definition check_dataset_type (x : pyobj) : M pyobj :=
  match x with
  | PFrame _ | PDict _ => convert_dict_dataset x
  | _ => raise (ValueError msg_x_type)
  end.

(** [check_dataset_features].  Both [if not (... for ... in ...)] tests are
    on a generator object, not on [all] of it. *)
Definition check_dataset_features (x : pyobj) : M pyobj :=
  s ← get_self;
  xf ← call (as_frame "columns" x);
  if negb (forallb (λ column, bool_decide (column ∈ dict_values (columns_dict s)))
                   (column_names xf))
  then raise AssertionError
  else if negb (generator_truthy (dict_keys (columns_dict s)))
  then raise (ValueError msg_columns_dict_keys)
  else
    lo ← call (py_min (dict_keys (columns_dict s)));
    hi ← call (py_max (dict_keys (columns_dict s)));
    features_order ←
      foldl (λ acc order,
               l ← acc;
               match columns_dict s !! order with
               | Some name => mret (l ++ [name])
               | None => raise (KeyError (PInt order))
               end)
            (mret []) (py_range lo (hi + 1));
    x' ← call (select_columns xf features_order);
    if negb (forallb (λ column, bool_decide (column ∈ dict_keys (features_types s)))
                     (column_names x'))
    then raise AssertionError
    else if negb (generator_truthy
                    (map (λ feature,
                            bool_decide (Some (dtype_of x' feature) = features_types s !! feature))
                         (column_names x')))
    then raise (ValueError msg_features_types)
    else mret (PFrame x').

(** [check_ypred] *)
Definition check_ypred (ypred : pyobj) : M pyobj :=
  x ← data_getitem "x";
  call (ext.check_ypred env x ypred).

(** [choose_state] *)
Definition choose_state (contributions : pyobj) : smart_state :=
  match contributions with
  | PList _ => MultiDecorator SmartState
  | _ => SmartState
  end.

(** [adapt_contributions] *)
Definition adapt_contributions (contributions : pyobj) : M pyobj :=
  s ← get_self;
  mret (transform.adapt_contributions (_case s) contributions).

(** [validate_contributions] *)
Definition validate_contributions (contributions : pyobj) : M pyobj :=
  s ← get_self;
  call (ext.check_contribution_object env (_case s) (_classes s) contributions);;
  st ← self_state;
  xp ← data_getitem "x_preprocessed";
  call (ext.validate_contributions env st contributions xp).

(** [check_contributions] *)
Definition check_contributions (contributions : pyobj) : M unit :=
  st ← self_state;
  x ← data_getitem "x";
  ok ← call (ext.check_contributions env st contributions x false);
  if negb ok then raise (ValueError msg_contributions_shape) else mret tt.

(** [clean_data] *)
Definition clean_data (x : pyobj) : gmap string pyobj :=
  <["x" := x]>
    (<["ypred" := PNone]>
       (<["contributions" := PNone]>
          (<["x_preprocessed" := PNone]> ∅))).

(** [predict_proba] *)
Definition predict_proba : M pyobj :=
  s ← get_self;
  xp ← data_getitem "x_preprocessed";
  call (ext.predict_proba env (model s) xp (_classes s)).

(** [apply_preprocessing_for_contributions] *)
Definition apply_preprocessing_for_contributions
    (contributions preprocessing : pyobj) : M pyobj :=
  if truthy preprocessing then
    st ← self_state;
    call (ext.inverse_transform_contributions env st contributions preprocessing)
  else mret contributions.

(** [apply_preprocessing] *)
Definition apply_preprocessing : M pyobj :=
  x ← data_getitem "x";
  s ← get_self;
  call (ext.apply_preprocessing env x (model s) (preprocessing s)).

(** [predict] *)
Definition predict : M pyobj :=
  has ← hasattr_data;
  if negb has then raise (ValueError msg_add_input_first)
  else
    xp ← data_getitem "x_preprocessed";
    if is_None xp then raise (ValueError msg_x_for_predict)
    else
      s ← get_self;
      match model_predict (model s) with
      | Some model_predict =>
          xp ← data_getitem "x_preprocessed";
          values ← call (model_predict xp);
          xp' ← data_getitem "x_preprocessed";
          xpf ← call (as_frame "index" xp');
          ypred ← call (ext.pd_DataFrame env values ["ypred"%string] (index xpf));
          data_setitem "ypred" ypred;;
          data_getitem "ypred"
      | None => raise (ValueError msg_no_predict)
      end.

(** [compute_contributions] *)
Definition compute_contributions (contributions : pyobj) : M (pyobj * pyobj) :=
  has ← hasattr_data;
  if negb has then raise (ValueError msg_add_input_first)
  else
    x ← data_getitem "x";
    if is_None x then raise (ValueError msg_x_for_contributions)
    else
      ypred ← data_getitem "ypred";
      (if is_None ypred then predict;; mret tt else mret tt);;
      contributions ←
        (if is_None contributions then
           s ← get_self;
           xp ← data_getitem "x_preprocessed";
           r ← call (ext.shap_contributions env (model s) xp (explainer s));
           mret r.1
         else mret contributions);
      adapt_contrib ← adapt_contributions contributions;
      modify_self (with_state (choose_state adapt_contrib));;
      contributions ← validate_contributions adapt_contrib;
      s ← get_self;
      contributions ← apply_preprocessing_for_contributions contributions (preprocessing s);
      check_contributions contributions;;
      s ← get_self;
      proba_values ← (if String.eqb (_case s) "classification"
                      then predict_proba else mret PNone);
      ypred ← data_getitem "ypred";
      s ← get_self;
      call (ext.keep_right_contributions env ypred contributions
              (_case s) (_classes s) (label_dict s) proba_values).

(** [detail_contributions] *)
Definition detail_contributions (contributions : pyobj) : M pyobj :=
  r ← compute_contributions contributions;
  call (ext.pd_concat_axis1 env [r.1; r.2]).

(** [add_input] *)
Definition add_input (x ypred contributions : pyobj) : M unit :=
  (if negb (is_None x) then
     x1 ← check_dataset_type x;
     x2 ← check_dataset_features x1;
     modify_self (with_data (clean_data x2));;
     try_except
       (xp ← apply_preprocessing; data_setitem "x_preprocessed" xp)
       (λ _, raise (ValueError msg_preprocessing_failed))
   else
     has ← hasattr_data;
     if negb has then raise (ValueError msg_no_dataset) else mret tt);;
  (if negb (is_None ypred) then
     y ← check_ypred ypred; data_setitem "ypred" y
   else mret tt);;
  r ← (if negb (is_None contributions)
       then compute_contributions contributions
       else compute_contributions PNone);
  data_setitem "ypred" r.1;;
  data_setitem "contributions" r.2.

(** The filters are called with whatever the dictionaries hold; a value of
    the wrong kind is a [TypeError] inside the callee. *)
Definition as_number (v : pyobj) : option Q :=
  match v with
  | PInt z => Some (inject_Z z)
  | PFloat q => Some q
  | PBool b => Some (if b then 1%Q else 0%Q)
  | _ => None
  end.

Definition call_cap_contributions (contributions threshold : pyobj) : result DataFrame :=
  match contributions, as_number threshold with
  | PFrame df, Some t => Ok (filters.cap_contributions df t)
  | _, _ => Raise (TypeError "cap_contributions")
  end.

Definition call_sign_contributions (contributions : DataFrame) (positive : pyobj)
    : result DataFrame :=
  match positive with
  | PBool b => Ok (filters.sign_contributions contributions b)
  | _ => Raise (TypeError "sign_contributions")
  end.

Definition call_cutoff_contributions (mask : DataFrame) (k : pyobj) : result DataFrame :=
  match k with
  | PInt z => Ok (filters.cutoff_contributions mask z)
  | _ => Raise (TypeError "cutoff_contributions")
  end.

(** The list [mask] that [filter] builds before it combines it.  The
    arguments of [hide_contributions] are evaluated left to right:
    [self.data['var_dict']], then the attribute [self.check_features_name],
    which the class does not define. *)
Definition filter_masks : M (list DataFrame) :=
  sm ← self_summary;
  let mask := [manipulation_mask.init_mask (contrib_sorted sm) true] in
  features_to_hide ← mask_params_getitem "features_to_hide";
  mask ← (if negb (is_None features_to_hide) then
            _ ← data_getitem "var_dict";
            raise (AttributeError "check_features_name")
          else mret mask);
  threshold ← mask_params_getitem "threshold";
  mask ← (if negb (is_None threshold) then
            contributions ← data_getitem "contrib_sorted";
            threshold ← mask_params_getitem "threshold";
            m ← call (call_cap_contributions contributions threshold);
            mret (mask ++ [m])
          else mret mask);
  positive ← mask_params_getitem "positive";
  mask ← (if negb (is_None positive) then
            sm ← self_summary;
            positive ← mask_params_getitem "positive";
            m ← call (call_sign_contributions (contrib_sorted sm) positive);
            mret (mask ++ [m])
          else mret mask);
  mret mask.

(** [filter] *)
Definition filter : M unit :=
  mask ← filter_masks;
  modify_self (with_mask (filters.combine_masks mask));;
  max_contrib ← mask_params_getitem "max_contrib";
  (if negb (is_None max_contrib) then
     m ← self_mask;
     k ← mask_params_getitem "max_contrib";
     m' ← call (call_cutoff_contributions m k);
     modify_self (with_mask m')
   else mret tt);;
  sm ← self_summary;
  m ← self_mask;
  mc ← call (ext.compute_masked_contributions env (contrib_sorted sm) m);
  modify_self (with_masked_contributions mc).

(** [summarize] *)
Definition summarize : M pyobj :=
  has ← hasattr_data;
  if negb has then raise (ValueError msg_summarize_needs_input)
  else
    contributions ← data_getitem "contributions";
    xp ← data_getitem "x_preprocessed";
    ranked ← call (ext.rank_contributions env contributions xp);
    modify_self (with_summary (contributions.assign_contributions ranked));;
    filter;;
    sm ← self_summary;
    m ← self_mask;
    s ← get_self;
    table ← call (ext.summarize env (contrib_sorted sm) (var_dict sm) (x_sorted sm) m
                    (columns_dict s) (features_dict s));
    data_setitem "summary" table;;
    ypred ← data_getitem "ypred";
    summary ← data_getitem "summary";
    call (ext.pd_concat_axis1 env [ypred; summary]).

(** [modify_mask] *)
Definition modify_mask (features_to_hide threshold positive max_contrib : pyobj) : M unit :=
  let Attributes : list (string * pyobj) :=
    [("features_to_hide"%string, features_to_hide);
     ("threshold"%string, threshold);
     ("positive"%string, positive);
     ("max_contrib"%string, max_contrib)] in
  foldl (λ acc item,
           acc;;
           if negb (is_None item.2)
           then modify_self (λ s, with_mask_params (<[item.1 := item.2]> (mask_params s)) s)
           else mret tt)
        (mret tt) Attributes.

End methods.

(** ** A small concrete instance

    Two numeric features, a regression model that predicts 0 for every row,
    an explainer that attributes to each feature its own value, a
    preprocessing step that rejects missing values, and a ranker that keeps
    the column order.  It is used to run the methods on concrete inputs. *)
Module toy.

Definition is_null (c : cell) : bool :=
  match c with CNull => true | _ => false end.

Definition env : ext.Collaborators := {|
  ext.check_model := λ _, Ok ("regression"%string, PNone);
  ext.check_explainer := λ e, Ok e;
  ext.check_preprocessing_options := λ _, Ok tt;
  ext.check_preprocessing := λ _, Ok PNone;
  ext.check_label_dict := λ _ _ _, Ok PNone;
  ext.check_mask_params := λ _, Ok PNone;
  ext.check_ypred := λ _ ypred, Ok ypred;
  ext.check_contribution_object := λ _ _ _, Ok tt;
  ext.shap_contributions := λ _ xp e, Ok (xp, e);
  ext.keep_right_contributions := λ ypred contributions _ _ _ _, Ok (ypred, contributions);
  ext.predict_proba := λ _ _ _, Ok PNone;
  ext.apply_preprocessing := λ x _ _,
    match x with
    | PFrame df =>
        if existsb (existsb is_null) (rows df)
        then Raise (ExternalError "cannot encode a missing value")
        else Ok x
    | _ => Raise (TypeError "not a table")
    end;
  ext.validate_contributions := λ _ contributions _, Ok contributions;
  ext.check_contributions := λ _ _ _ _, Ok true;
  ext.inverse_transform_contributions := λ _ contributions _, Ok contributions;
  ext.rank_contributions := λ contributions xp,
    match contributions, xp with
    | PFrame c, PFrame x => Ok (c, x, c)
    | _, _ => Raise (TypeError "not a table")
    end;
  ext.compute_masked_contributions := λ _ _, Ok PNone;
  ext.summarize := λ contrib _ _ _ _ _, Ok (PFrame contrib);
  ext.pd_concat_axis1 := λ objs, Ok (PList objs);
  ext.pd_DataFrame := λ values cols idx,
    match values with
    | PArray a => Ok (PFrame (mkFrame idx (map (λ c, (c, "float64"%string)) cols)
                                      (map (map CNum) a)))
    | _ => Raise (ValueError "DataFrame constructor not properly called!")
    end;
  ext.pd_DataFrame_from_dict_T := λ d,
    Ok (mkFrame [0] (map (λ kv, (kv.1, "object"%string)) d) [d.*2]);
  ext.astype := λ df _ _, Ok df
|}.

Definition the_model : Model := {|
  model_name := "zero";
  model_predict := Some (λ xp,
    match xp with
    | PFrame df => Ok (PArray (map (λ _, [0%Q]) (rows df)))
    | _ => Raise (TypeError "not a table")
    end)
|}.

Definition the_columns_dict : gmap Z string :=
  <[0 := "Age"%string]> (<[1 := "Fare"%string]> ∅).

Definition the_features_types : gmap string string :=
  <["Age"%string := "int64"%string]> (<["Fare"%string := "float64"%string]> ∅).

Definition the_features_dict : gmap string string :=
  <["Age"%string := "Age of the passenger"%string]> ∅.

(** A freshly constructed predictor. *)
Definition fresh : SmartPredictor := {|
  model := the_model; _case := "regression"; _classes := PNone;
  explainer := PObj "explainer"; preprocessing := PNone;
  features_dict := the_features_dict; features_types := the_features_types;
  label_dict := PNone; postprocessing := PNone;
  columns_dict := the_columns_dict; mask_params := default_mask_params;
  data := None; state := None; summary := None; mask := None;
  masked_contributions := None
|}.

(** Two rows, columns in the order of the model. *)
Definition X1 : DataFrame :=
  mkFrame [0; 1] [("Age"%string, "int64"%string); ("Fare"%string, "float64"%string)]
          [[CNum 30; CNum (-(1 # 2))]; [CNum (-41); CNum (1 # 2)]].

(** The same columns the other way round, one row. *)
Definition X2 : DataFrame :=
  mkFrame [7] [("Fare"%string, "float64"%string); ("Age"%string, "int64"%string)]
          [[CNum 9; CNum 12]].

(** A dataset with a missing value: preprocessing rejects it. *)
Definition X_missing : DataFrame :=
  mkFrame [0] [("Age"%string, "int64"%string); ("Fare"%string, "float64"%string)]
          [[CNull; CNum 3]].

(** A dataset whose [Age] column holds floats although [int64] is declared. *)
Definition X_wrong_type : DataFrame :=
  mkFrame [0] [("Age"%string, "float64"%string); ("Fare"%string, "float64"%string)]
          [[CNum (61 # 2); CNum 3]].

(** The predictor after [add_input(x=X1)]. *)
Definition loaded : SmartPredictor :=
  (add_input env (PFrame X1) PNone PNone fresh).1.

(** The predictor after [modify_mask(positive=True)] and [summarize()]. *)
Definition summarized_positive : SmartPredictor :=
  (summarize env (modify_mask PNone PNone (PBool true) PNone loaded).1).1.

(** One row whose three ranks hold the features A, B and C, a mask that
    keeps A and B and a mask that keeps B and C. *)
Definition ranked_ABC : DataFrame :=
  mkFrame [0] [("contribution_1"%string, "float64"%string);
               ("contribution_2"%string, "float64"%string);
               ("contribution_3"%string, "float64"%string)]
          [[CNum 3; CNum (-2); CNum 1]].

Definition keep (a b c : bool) : DataFrame :=
  mkFrame (index ranked_ABC) (columns ranked_ABC) [[CBool a; CBool b; CBool c]].

(** The configuration, bundle and mask parameters of [summarized_positive]
    on a predictor that has never summarized. *)
Definition never_summarized : SmartPredictor :=
  mkSelf (model loaded) (_case loaded) (_classes loaded) (explainer loaded)
    (preprocessing loaded) (features_dict loaded) (features_types loaded)
    (label_dict loaded) (postprocessing loaded) (columns_dict loaded)
    (mask_params summarized_positive) (data summarized_positive)
    None None None None.

(** The collaborators again, with an explainer, a probability estimate
    and a contribution selection that are out of order. *)
Definition env_without_explainer : ext.Collaborators := {|
  ext.check_model := ext.check_model env;
  ext.check_explainer := ext.check_explainer env;
  ext.check_preprocessing_options := ext.check_preprocessing_options env;
  ext.check_preprocessing := ext.check_preprocessing env;
  ext.check_label_dict := ext.check_label_dict env;
  ext.check_mask_params := ext.check_mask_params env;
  ext.check_ypred := ext.check_ypred env;
  ext.check_contribution_object := ext.check_contribution_object env;
  ext.shap_contributions := λ _ _ _, Raise (ExternalError "explainer unavailable");
  ext.keep_right_contributions :=
    λ _ _ _ _ _ _, Raise (ExternalError "selection unavailable");
  ext.predict_proba := λ _ _ _, Raise (ExternalError "model unavailable");
  ext.apply_preprocessing := ext.apply_preprocessing env;
  ext.validate_contributions := ext.validate_contributions env;
  ext.check_contributions := ext.check_contributions env;
  ext.inverse_transform_contributions := ext.inverse_transform_contributions env;
  ext.rank_contributions := ext.rank_contributions env;
  ext.compute_masked_contributions := ext.compute_masked_contributions env;
  ext.summarize := ext.summarize env;
  ext.pd_concat_axis1 := ext.pd_concat_axis1 env;
  ext.pd_DataFrame := ext.pd_DataFrame env;
  ext.pd_DataFrame_from_dict_T := ext.pd_DataFrame_from_dict_T env;
  ext.astype := ext.astype env
|}.

(** A predictor whose [columns_dict] skips the position 1. *)
Definition gapped : SmartPredictor :=
  mkSelf (model fresh) (_case fresh) (_classes fresh) (explainer fresh)
    (preprocessing fresh) (features_dict fresh) (features_types fresh)
    (label_dict fresh) (postprocessing fresh)
    (<[0 := "Age"%string]> (<[2 := "Fare"%string]> ∅))
    (mask_params fresh) None None None None None.

(** A dataset with a column that is not declared, and one that lacks a
    declared column. *)
Definition X_extra : DataFrame :=
  mkFrame [0] [("Age"%string, "int64"%string); ("Fare"%string, "float64"%string);
               ("Cabin"%string, "object"%string)]
          [[CNum 30; CNum 7; CStr "C85"]].

Definition X_short : DataFrame :=
  mkFrame [0] [("Age"%string, "int64"%string)] [[CNum 30]].

(** The same attributes under a binary classifier. *)
Definition classifier : SmartPredictor :=
  mkSelf (model loaded) "classification" (PList [PInt 0; PInt 1])
    (explainer loaded) (preprocessing loaded) (features_dict loaded)
    (features_types loaded) (label_dict loaded) (postprocessing loaded)
    (columns_dict loaded) (mask_params loaded) (data loaded) (state loaded)
    (summary loaded) (mask loaded) (masked_contributions loaded).

End toy.

(** ** Vocabulary of the statements *)

(** [self.data[key]], when both the attribute and the key exist. *)
Definition bundle_entry (s : SmartPredictor) (key : string) : option pyobj :=
  d ← data s; d !! key.

(** A computation that leaves every attribute as it found it. *)
Definition readonly {A} (c : M A) : Prop := ∀ s, (c s).1 = s.

(** One turn of the loop of [modify_mask] on the dictionary. *)
Definition set_unless_None (label : string) (attribute : pyobj)
    (mp : gmap string pyobj) : gmap string pyobj :=
  if is_None attribute then mp else <[label := attribute]> mp.

(** The four keyword arguments of one call of [modify_mask]. *)
Record mask_update := mkUpdate {
  upd_features_to_hide : pyobj;
  upd_threshold : pyobj;
  upd_positive : pyobj;
  upd_max_contrib : pyobj
}.

Definition apply_update (s : SmartPredictor) (u : mask_update) : SmartPredictor :=
  (modify_mask (upd_features_to_hide u) (upd_threshold u)
               (upd_positive u) (upd_max_contrib u) s).1.

(** A computation every run of which relates the attributes it starts from
    to the attributes it ends with, whether it returns or raises. *)
Definition keeps {A} (P : SmartPredictor → SmartPredictor → Prop) (c : M A) : Prop :=
  ∀ s, P s (c s).1.

(** The entry of a boolean table at row [i] and rank [j]; a position
    outside the table is not kept. *)
Definition mask_at (m : DataFrame) (i j : nat) : bool :=
  match rows m !! i with
  | Some r => match r !! j with Some c => cell_true c | None => false end
  | None => false
  end.

(** Whether row [i], rank [j] is a position of the table. *)
Definition in_shape (like : DataFrame) (i j : nat) : bool :=
  match rows like !! i with
  | Some r => bool_decide (j < length r)%nat
  | None => false
  end.

(** A computation whose outcome does not depend on the attributes and that
    leaves them alone. *)
Definition pure {A} (c : M A) : Prop := ∃ r, ∀ s, c s = (s, r).

(** Two runs with the same outcome: the same value, with final attributes
    related by [Q], or the same exception. *)
Definition sim {A} (Q : SmartPredictor → SmartPredictor → Prop)
    (r1 r2 : SmartPredictor * result A) : Prop :=
  match r1, r2 with
  | (s1, Ok a1), (s2, Ok a2) => a1 = a2 ∧ Q s1 s2
  | (_, Raise e1), (_, Raise e2) => e1 = e2
  | _, _ => False
  end.

(** Which of the attributes set by methods two predictors of one
    configuration agree on. *)
Record attributes := mkAttrs {
  on_data : bool;
  on_mask_params : bool;
  on_state : bool;
  on_summary : bool;
  on_mask : bool
}.

Definition agree (fl : attributes) (s1 s2 : SmartPredictor) : Prop :=
  same_configuration s1 s2 ∧
  (on_data fl = true → data s1 = data s2) ∧
  (on_mask_params fl = true → mask_params s1 = mask_params s2) ∧
  (on_state fl = true → state s1 = state s2) ∧
  (on_summary fl = true → summary s1 = summary s2) ∧
  (on_mask fl = true → mask s1 = mask s2).

(** Every entry of the bundle other than the derived [summary] is the same
    in [s'] as in [s]. *)
Definition same_bundle (s s' : SmartPredictor) : Prop :=
  ∀ key : string, key ≠ "summary"%string → bundle_entry s' key = bundle_entry s key.

(** The calls that derive a summary from the bundle. *)
Inductive summary_call :=
| CallSummarize
| CallFilter
| CallModifyMask (u : mask_update).

Definition run_call (env : ext.Collaborators) (s : SmartPredictor) (c : summary_call)
    : SmartPredictor :=
  match c with
  | CallSummarize => (summarize env s).1
  | CallFilter => (filter env s).1
  | CallModifyMask u => apply_update s u
  end.


(** ** Vocabulary of the further properties *)

(** The names [columns_dict] gives to the keys [ks], in that order, or the
    [KeyError] of the first key it does not have: the loop that builds
    [features_order]. *)
Fixpoint lookup_all (cd : gmap Z string) (ks : list Z) : result (list string) :=
  match ks with
  | [] => Ok []
  | k :: ks' =>
      match cd !! k with
      | None => Raise (KeyError (PInt k))
      | Some name =>
          match lookup_all cd ks' with
          | Ok l => Ok (name :: l)
          | Raise e => Raise e
          end
      end
  end.

(** The outcome of [check_dataset_features] on a table, as a function of the
    table and the two dictionaries. *)
Definition check_features_result (xf : DataFrame) (cd : gmap Z string)
    (ft : gmap string string) : result pyobj :=
  if negb (forallb (λ column, bool_decide (column ∈ dict_values cd)) (column_names xf))
  then Raise AssertionError
  else
    match py_min (dict_keys cd) with
    | Raise e => Raise e
    | Ok lo =>
    match py_max (dict_keys cd) with
    | Raise e => Raise e
    | Ok hi =>
    match lookup_all cd (py_range lo (hi + 1)) with
    | Raise e => Raise e
    | Ok features_order =>
    match select_columns xf features_order with
    | Raise e => Raise e
    | Ok x' =>
        if negb (forallb (λ column, bool_decide (column ∈ dict_keys ft)) (column_names x'))
        then Raise AssertionError
        else Ok (PFrame x')
    end end end end.

(** Every entry of the bundle other than those under [keys] is the same in
    [s'] as in [s]. *)
Definition same_bundle_except (keys : list string) (s s' : SmartPredictor) : Prop :=
  ∀ key : string, key ∉ keys → bundle_entry s' key = bundle_entry s key.

(** The keys of the bundle: the four of [clean_data] are there, and beside
    them at most [summary]. *)
Definition bundle_keys_ok (s : SmartPredictor) : Prop :=
  ∀ d, data s = Some d →
    (∀ key : string,
       key ∈ ["x"; "ypred"; "contributions"; "x_preprocessed"]%string →
       is_Some (d !! key)) ∧
    (∀ key : string,
       is_Some (d !! key) →
       key ∈ ["x"; "ypred"; "contributions"; "x_preprocessed"; "summary"]%string).

(** [s'] has a bundle if [s] has one, and well-formed keys if [s] has. *)
Definition bundle_kept (s s' : SmartPredictor) : Prop :=
  (is_Some (data s) → is_Some (data s')) ∧ (bundle_keys_ok s → bundle_keys_ok s').

(** The public methods, with their arguments. *)
Inductive method_call :=
| Call_add_input (x ypred contributions : pyobj)
| Call_predict
| Call_predict_proba
| Call_compute_contributions (contributions : pyobj)
| Call_detail_contributions (contributions : pyobj)
| Call_summarize
| Call_filter
| Call_modify_mask (features_to_hide threshold positive max_contrib : pyobj).

(** The attributes after a call, whether it returned or raised. *)
Definition run_method (env : ext.Collaborators) (s : SmartPredictor) (m : method_call)
    : SmartPredictor :=
  match m with
  | Call_add_input x ypred contributions => (add_input env x ypred contributions s).1
  | Call_predict => (predict env s).1
  | Call_predict_proba => (predict_proba env s).1
  | Call_compute_contributions c => (compute_contributions env c s).1
  | Call_detail_contributions c => (detail_contributions env c s).1
  | Call_summarize => (summarize env s).1
  | Call_filter => (filter env s).1
  | Call_modify_mask fth th pos mc => (modify_mask fth th pos mc s).1
  end.

(** The later of two arguments of [modify_mask] that is not [None]. *)
Definition later_unless_None (earlier later : pyobj) : pyobj :=
  if is_None later then earlier else later.

(** One call that does what two calls of [modify_mask] in a row do. *)
Definition merge_update (u1 u2 : mask_update) : mask_update :=
  {| upd_features_to_hide :=
       later_unless_None (upd_features_to_hide u1) (upd_features_to_hide u2);
     upd_threshold := later_unless_None (upd_threshold u1) (upd_threshold u2);
     upd_positive := later_unless_None (upd_positive u1) (upd_positive u2);
     upd_max_contrib := later_unless_None (upd_max_contrib u1) (upd_max_contrib u2) |}.

(** *** Predictors that share a dict

    The default of [mask_params] in the signature of [__init__] is a dict
    display: Python evaluates it once, when the class body is executed, so
    every predictor constructed without that argument gets the same object,
    and [modify_mask], which assigns into [self.mask_params] in place,
    writes into it.  Dict objects live in a store; a predictor holds the
    address of its [mask_params]. *)
Record instance := mkInstance {
  attrs : SmartPredictor;
  mask_params_at : nat
}.

(** The address of the dict that is the default of [mask_params]. *)
Definition default_address : nat := 0%nat.

(** The store when the class has been defined and nothing else done. *)
Definition initial_store : gmap nat (gmap string pyobj) :=
  {[ default_address := default_mask_params ]}.

(** [SmartPredictor(...)], with [mask_params] the address of the dict
    passed, or [None] when the argument is left out. *)
Definition construct (env : ext.Collaborators) (store : gmap nat (gmap string pyobj))
    (features_dict : gmap string string) (model : Model)
    (columns_dict : gmap Z string) (explainer : pyobj)
    (features_types : gmap string string)
    (label_dict preprocessing postprocessing : pyobj)
    (mask_params : option nat) : result instance :=
  let address := default default_address mask_params in
  match store !! address with
  | None => Raise (ExternalError "no such object")
  | Some dict =>
      match init env features_dict model columns_dict explainer features_types
                 label_dict preprocessing postprocessing dict with
      | Ok s => Ok (mkInstance s address)
      | Raise e => Raise e
      end
  end.

(** The attributes of an instance, with [mask_params] read from the store. *)
Definition load (store : gmap nat (gmap string pyobj)) (p : instance) : SmartPredictor :=
  with_mask_params (default ∅ (store !! mask_params_at p)) (attrs p).

(** [p.modify_mask(...)]: the assignments go to the dict in the store. *)
Definition modify_mask_at (store : gmap nat (gmap string pyobj)) (p : instance)
    (features_to_hide threshold positive max_contrib : pyobj)
    : gmap nat (gmap string pyobj) :=
  <[mask_params_at p :=
      mask_params (modify_mask features_to_hide threshold positive max_contrib
                     (load store p)).1]> store.

(** ** Report generation: [shapash/report/generation.py]

    The two functions only act on the outside world: they pickle, write
    files, run a notebook and convert it.  They are embedded as computations
    that append each action to a log before attempting it; an action that
    fails raises and ends the run. *)
Module report.

Inductive action :=
| Explainer_save (explainer : pyobj) (path : string)
| To_csv (table : pyobj) (path : string)
| Execute_notebook (input : pyobj) (output : string) (parameters : list (string * pyobj))
| New_exporter (template_dir : string)
| From_filename (filename : string)
| Open_w (path : string)
| Write (path : string) (body : string).

(** The outside world: which actions fail, what a conversion yields, where
    the project is and how path components are joined. *)
Record World := {
  attempt : action → result unit;
  converted : string → string * pyobj;
  get_project_root : string;
  os_path_join : string → list string → string
}.

Definition IO (A : Type) : Type := list action → list action * result A.

Definition io_ret {A} (a : A) : IO A := λ log, (log, Ok a).
Definition io_bind {A B} (c : IO A) (k : A → IO B) : IO B :=
  λ log, match c log with
         | (log', Ok a) => k a log'
         | (log', Raise e) => (log', Raise e)
         end.

#[global] Instance IO_ret : MRet IO := @io_ret.
#[global] Instance IO_bind : MBind IO := λ A B k c, io_bind c k.

(** Attempt an action: it is logged, then it succeeds or raises. *)
Definition perform (w : World) (a : action) : IO unit :=
  λ log, (log ++ [a], attempt w a).

Definition str_is_empty (v : pyobj) : bool :=
  match v with PStr s => String.eqb s "" | _ => false end.

(** [execute_report] *)
Definition execute_report (w : World) (working_dir : string) (explainer : pyobj)
    (metadata_file : string) (x_train y_test config notebook_path : pyobj) : IO unit :=
  let config := if is_None config then PDict [] else config in
  perform w (Explainer_save explainer
               (os_path_join w working_dir ["smart_explainer.pickle"%string]));;
  (if negb (is_None x_train)
   then perform w (To_csv x_train (os_path_join w working_dir ["x_train.csv"%string]))
   else mret tt);;
  (if negb (is_None y_test)
   then perform w (To_csv y_test (os_path_join w working_dir ["y_test.csv"%string]))
   else mret tt);;
  let root_path := get_project_root w in
  let notebook_path :=
    if is_None notebook_path || str_is_empty notebook_path
    then PStr (os_path_join w root_path
                 ["shapash"; "report"; "base_report.ipynb"]%string)
    else notebook_path in
  perform w (Execute_notebook notebook_path
               (os_path_join w working_dir ["base_report.ipynb"%string])
               [("dir_path"%string, PStr working_dir);
                ("metadata_file"%string, PStr metadata_file);
                ("config"%string, config)]).

(** [export_and_save_report] *)
Definition export_and_save_report (w : World) (working_dir output_file : string)
    : IO unit :=
  perform w (New_exporter
               (os_path_join w (get_project_root w)
                  ["shapash"; "report"; "template"]%string));;
  let filename := os_path_join w working_dir ["base_report.ipynb"%string] in
  perform w (From_filename filename);;
  let '(body, resources) := converted w filename in
  perform w (Open_w output_file);;
  perform w (Write output_file body).

(** The files an action creates or overwrites. *)
Definition written (a : action) : list string :=
  match a with
  | Explainer_save _ path | To_csv _ path | Open_w path | Write path _ => [path]
  | Execute_notebook _ output _ => [output]
  | New_exporter _ | From_filename _ => []
  end.

(** The files an action reads. *)
Definition read (a : action) : list string :=
  match a with
  | From_filename filename => [filename]
  | Execute_notebook (PStr input) _ _ => [input]
  | _ => []
  end.

(** The notebook [execute_report] runs and the configuration it passes. *)
Definition chosen_notebook (w : World) (notebook_path : pyobj) : pyobj :=
  if is_None notebook_path || str_is_empty notebook_path
  then PStr (os_path_join w (get_project_root w)
               ["shapash"; "report"; "base_report.ipynb"]%string)
  else notebook_path.

Definition chosen_config (config : pyobj) : pyobj :=
  if is_None config then PDict [] else config.

(** The actions of a run of [execute_report] in which nothing fails. *)
Definition report_actions (w : World) (working_dir : string) (explainer : pyobj)
    (metadata_file : string) (x_train y_test config notebook_path : pyobj)
    : list action :=
  [Explainer_save explainer
     (os_path_join w working_dir ["smart_explainer.pickle"%string])]
  ++ (if is_None x_train then []
      else [To_csv x_train (os_path_join w working_dir ["x_train.csv"%string])])
  ++ (if is_None y_test then []
      else [To_csv y_test (os_path_join w working_dir ["y_test.csv"%string])])
  ++ [Execute_notebook (chosen_notebook w notebook_path)
        (os_path_join w working_dir ["base_report.ipynb"%string])
        [("dir_path"%string, PStr working_dir);
         ("metadata_file"%string, PStr metadata_file);
         ("config"%string, chosen_config config)]].

(** A world in which paths are joined with a slash and only the conversion
    of a notebook under [missing] fails. *)
Definition toy_world : World := {|
  attempt := λ a,
    match a with
    | From_filename "missing/base_report.ipynb" =>
        Raise (ExternalError "No such file or directory")
    | _ => Ok tt
    end;
  converted := λ _, ("<html></html>"%string, PNone);
  get_project_root := "/opt/shapash";
  os_path_join := λ a l, foldl (λ p c, p +:+ "/" +:+ c) a l
|}.

End report.

(** Two predictors with the same bundle up to the derived [summary]: both
    have a bundle or neither, and the other entries are equal. *)
Definition same_core_bundle (s1 s2 : SmartPredictor) : Prop :=
  (data s1 = None ↔ data s2 = None) ∧
  ∀ key : string, key ≠ "summary"%string → bundle_entry s1 key = bundle_entry s2 key.

(** Agreement on the configuration, the mask parameters and the bundle up
    to [summary], and on [self.summary] and [self.mask] where flagged. *)
Definition agree_core (sm m : bool) (s1 s2 : SmartPredictor) : Prop :=
  same_configuration s1 s2 ∧
  mask_params s1 = mask_params s2 ∧
  same_core_bundle s1 s2 ∧
  (sm = true → summary s1 = summary s2) ∧
  (m = true → mask s1 = mask s2).

(** The configuration and the mask parameters are those of [s]. *)
Definition same_settings (s s' : SmartPredictor) : Prop :=
  same_configuration s s' ∧ mask_params s' = mask_params s.

(** ** Running computations *)

Lemma run_bind {A B} (c : M A) (k : A → M B) (s : SmartPredictor) :
  (c ≫= k) s = match c s with
               | (s', Ok a) => k a s'
               | (s', Raise e) => (s', Raise e)
               end.
Proof. reflexivity. Qed.

Lemma run_bind_ok {A B} (c : M A) (k : A → M B) s s' a :
  c s = (s', Ok a) → (c ≫= k) s = k a s'.
Proof. intros H. rewrite run_bind, H. reflexivity. Qed.

Lemma run_bind_raise {A B} (c : M A) (k : A → M B) s s' e :
  c s = (s', Raise e) → (c ≫= k) s = (s', Raise e).
Proof. intros H. rewrite run_bind, H. reflexivity. Qed.

Lemma run_data_getitem key s d :
  data s = Some d →
  data_getitem key s = (s, match d !! key with
                           | Some v => Ok v
                           | None => Raise (KeyError (PStr key))
                           end).
Proof.
  intros H. unfold data_getitem. rewrite run_bind. unfold self_data. rewrite H.
  destruct (d !! key); reflexivity.
Qed.

Lemma run_data_setitem key v s d :
  data s = Some d → data_setitem key v s = (with_data (<[key := v]> d) s, Ok tt).
Proof.
  intros H. unfold data_setitem. rewrite run_bind. unfold self_data. rewrite H.
  reflexivity.
Qed.

Lemma run_mask_params_getitem key s :
  mask_params_getitem key s = (s, match mask_params s !! key with
                                  | Some v => Ok v
                                  | None => Raise (KeyError (PStr key))
                                  end).
Proof.
  unfold mask_params_getitem. rewrite run_bind. unfold get_self.
  destruct (mask_params s !! key); reflexivity.
Qed.

(** ** Call order (C2) *)

Lemma init_no_data env fd m cd e ft ld pp post mp s :
  init env fd m cd e ft ld pp post mp = Ok s → data s = None.
Proof.
  unfold init. intros H.
  repeat match type of H with
         | match ?x with _ => _ end = _ => destruct x; try discriminate H
         end.
  injection H as <-. reflexivity.
Qed.

Lemma predict_without_data env s :
  data s = None → predict env s = (s, Raise (ValueError msg_add_input_first)).
Proof.
  intros H. unfold predict. rewrite run_bind. unfold hasattr_data. rewrite H.
  reflexivity.
Qed.

Lemma compute_contributions_without_data env c s :
  data s = None →
  compute_contributions env c s = (s, Raise (ValueError msg_add_input_first)).
Proof.
  intros H. unfold compute_contributions. rewrite run_bind. unfold hasattr_data.
  rewrite H. reflexivity.
Qed.

Lemma summarize_without_data env s :
  data s = None → summarize env s = (s, Raise (ValueError msg_summarize_needs_input)).
Proof.
  intros H. unfold summarize. rewrite run_bind. unfold hasattr_data. rewrite H.
  reflexivity.
Qed.

(** C2.  On a predictor as the constructor returns it, that is before any
    [add_input], each of [predict], [compute_contributions],
    [detail_contributions] and [summarize] raises the [ValueError] that asks
    for [add_input] first, and leaves every attribute as it was. *)
Theorem call_order_enforced env fd m cd e ft ld pp post mp s c :
  init env fd m cd e ft ld pp post mp = Ok s →
  predict env s = (s, Raise (ValueError msg_add_input_first)) ∧
  compute_contributions env c s = (s, Raise (ValueError msg_add_input_first)) ∧
  detail_contributions env c s = (s, Raise (ValueError msg_add_input_first)) ∧
  summarize env s = (s, Raise (ValueError msg_summarize_needs_input)).
Proof.
  intros Hinit. apply init_no_data in Hinit as Hdata.
  split; [|split; [|split]].
  - by apply predict_without_data.
  - by apply compute_contributions_without_data.
  - unfold detail_contributions.
    erewrite run_bind_raise; [reflexivity|].
    by apply compute_contributions_without_data.
  - by apply summarize_without_data.
Qed.

Lemma call_order_enforced_witness :
  init toy.env toy.the_features_dict toy.the_model toy.the_columns_dict
       (PObj "explainer") toy.the_features_types PNone PNone PNone
       default_mask_params = Ok toy.fresh ∧
  summarize toy.env toy.fresh
  = (toy.fresh, Raise (ValueError msg_summarize_needs_input)).
Proof.
  assert (Hinit : init toy.env toy.the_features_dict toy.the_model toy.the_columns_dict
                    (PObj "explainer") toy.the_features_types PNone PNone PNone
                    default_mask_params = Ok toy.fresh) by reflexivity.
  split; [exact Hinit|].
  exact (proj2 (proj2 (proj2 (call_order_enforced _ _ _ _ _ _ _ _ _ _ _ PNone Hinit)))).
Defined.

(** ** Computations that only read the attributes *)

Lemma readonly_ret {A} (a : A) : readonly (mret a).
Proof. by intros s. Qed.

Lemma readonly_raise {A} (e : exn) : readonly (@raise A e).
Proof. by intros s. Qed.

Lemma readonly_call {A} (r : result A) : readonly (call r).
Proof. by intros s. Qed.

Lemma readonly_get_self : readonly get_self.
Proof. by intros s. Qed.

Lemma readonly_bind {A B} (c : M A) (k : A → M B) :
  readonly c → (∀ a, readonly (k a)) → readonly (c ≫= k).
Proof.
  intros Hc Hk s. rewrite run_bind. specialize (Hc s).
  destruct (c s) as [s' [a|e]]; simpl in *; subst; [apply Hk | reflexivity].
Qed.

Lemma readonly_try_except {A} (body : M A) (handler : exn → M A) :
  readonly body → (∀ e, readonly (handler e)) → readonly (try_except body handler).
Proof.
  intros Hb Hh s. unfold try_except. specialize (Hb s).
  destruct (body s) as [s' [a|e]]; simpl in *; subst; [reflexivity | apply Hh].
Qed.

Lemma readonly_foldl {A B} (f : M A → B → M A) (l : list B) (c : M A) :
  (∀ acc b, readonly acc → readonly (f acc b)) → readonly c → readonly (foldl f c l).
Proof.
  intros Hf. revert c. induction l as [|b l IH]; intros c Hc; simpl; [done|].
  apply IH, Hf, Hc.
Qed.

Lemma readonly_if {A} (b : bool) (c1 c2 : M A) :
  readonly c1 → readonly c2 → readonly (if b then c1 else c2).
Proof. by destruct b. Qed.

Create HintDb readonly.
#[local] Hint Resolve readonly_ret readonly_raise readonly_call readonly_get_self
  readonly_if : readonly.

Lemma readonly_convert_dict_dataset env x : readonly (convert_dict_dataset env x).
Proof.
  destruct x; try apply readonly_ret.
  apply readonly_try_except; [|auto with readonly].
  apply readonly_bind; [auto with readonly|]. intros s.
  apply readonly_if; [auto with readonly|].
  apply readonly_bind; [auto with readonly|]. intros x0.
  apply readonly_bind; [|auto with readonly].
  apply readonly_foldl; [|auto with readonly].
  intros acc b Hacc. apply readonly_bind; auto with readonly.
Qed.

Lemma readonly_check_dataset_type env x : readonly (check_dataset_type env x).
Proof.
  destruct x; try apply readonly_raise; apply readonly_convert_dict_dataset.
Qed.

Lemma readonly_check_dataset_features x : readonly (check_dataset_features x).
Proof.
  apply readonly_bind; [auto with readonly|]. intros s.
  apply readonly_bind; [auto with readonly|]. intros xf.
  repeat (apply readonly_if; [auto with readonly|]).
  apply readonly_bind; [auto with readonly|]. intros lo.
  apply readonly_bind; [auto with readonly|]. intros hi.
  apply readonly_bind.
  - apply readonly_foldl; [|auto with readonly].
    intros acc b Hacc. apply readonly_bind; [done|]. intros l.
    destruct (columns_dict s !! b); auto with readonly.
  - intros fo. apply readonly_bind; [auto with readonly|]. intros x'.
    repeat (apply readonly_if; auto with readonly).
Qed.

Lemma run_readonly {A} (c : M A) s r : readonly c → (c s).2 = r → c s = (s, r).
Proof. intros Hc <-. specialize (Hc s). destruct (c s); simpl in *; by subst. Qed.

Lemma check_dataset_type_not_None env x s x1 :
  (check_dataset_type env x s).2 = Ok x1 → is_None x = false.
Proof. destruct x; simpl; congruence. Qed.

(** ** A new dataset whose preprocessing fails (C1, C7) *)

Lemma clean_data_x x : clean_data x !! "x" = Some x.
Proof. unfold clean_data. by rewrite lookup_insert_eq. Qed.

Lemma run_apply_preprocessing env s d x :
  data s = Some d → d !! "x" = Some x →
  apply_preprocessing env s
  = (s, ext.apply_preprocessing env x (model s) (preprocessing s)).
Proof.
  intros Hd Hx. unfold apply_preprocessing.
  rewrite run_bind, (run_data_getitem "x" s d Hd), Hx.
  reflexivity.
Qed.

(** The whole outcome of [add_input] when the dataset passes the checks and
    the preprocessing collaborator raises. *)
Lemma add_input_preprocessing_raises env s x ypred contributions x1 x2 e :
  (check_dataset_type env x s).2 = Ok x1 →
  (check_dataset_features x1 s).2 = Ok x2 →
  ext.apply_preprocessing env x2 (model s) (preprocessing s) = Raise e →
  add_input env x ypred contributions s
  = (with_data (clean_data x2) s, Raise (ValueError msg_preprocessing_failed)).
Proof.
  intros H1 H2 Hpre.
  pose proof (check_dataset_type_not_None _ _ _ _ H1) as Hx.
  apply (run_readonly _ _ _ (readonly_check_dataset_type env x)) in H1.
  apply (run_readonly _ _ _ (readonly_check_dataset_features x1)) in H2.
  unfold add_input. rewrite Hx. simpl negb. cbv iota.
  erewrite run_bind_raise; [reflexivity|].
  erewrite run_bind_ok; [|exact H1].
  erewrite run_bind_ok; [|exact H2].
  rewrite run_bind. unfold modify_self at 1.
  unfold try_except. rewrite run_bind.
  rewrite (run_apply_preprocessing env _ (clean_data x2) x2);
    [|reflexivity|apply clean_data_x].
  simpl. rewrite Hpre. reflexivity.
Qed.

(** The outcome of [add_input] when one of the dataset checks raises. *)
Lemma add_input_check_raises env s x ypred contributions e :
  is_None x = false →
  ((check_dataset_type env x s).2 = Raise e ∨
   ∃ x1, (check_dataset_type env x s).2 = Ok x1 ∧
         (check_dataset_features x1 s).2 = Raise e) →
  add_input env x ypred contributions s = (s, Raise e).
Proof.
  intros Hx H. unfold add_input. rewrite Hx. simpl negb. cbv iota.
  erewrite run_bind_raise; [reflexivity|].
  destruct H as [H1|(x1 & H1 & H2)].
  - apply (run_readonly _ _ _ (readonly_check_dataset_type env x)) in H1.
    erewrite run_bind_raise; [reflexivity|exact H1].
  - apply (run_readonly _ _ _ (readonly_check_dataset_type env x)) in H1.
    apply (run_readonly _ _ _ (readonly_check_dataset_features x1)) in H2.
    erewrite run_bind_ok; [|exact H1].
    erewrite run_bind_raise; [reflexivity|exact H2].
Qed.

(** C7.  When the new dataset passes the dataset checks and the
    preprocessing collaborator raises, whatever the exception, [add_input]
    raises the one [ValueError] that blames the preprocessing or the dataset;
    the collaborator's exception is not what the caller sees. *)
Theorem preprocessing_failure_translated env s x ypred contributions x1 x2 e :
  (check_dataset_type env x s).2 = Ok x1 →
  (check_dataset_features x1 s).2 = Ok x2 →
  ext.apply_preprocessing env x2 (model s) (preprocessing s) = Raise e →
  (add_input env x ypred contributions s).2
  = Raise (ValueError msg_preprocessing_failed).
Proof.
  intros H1 H2 Hpre.
  by rewrite (add_input_preprocessing_raises _ _ _ _ _ _ _ _ H1 H2 Hpre).
Qed.

Lemma preprocessing_failure_translated_witness :
  ext.apply_preprocessing toy.env (PFrame toy.X_missing)
    (model toy.loaded) (preprocessing toy.loaded)
  = Raise (ExternalError "cannot encode a missing value") ∧
  (add_input toy.env (PFrame toy.X_missing) PNone PNone toy.loaded).2
  = Raise (ValueError msg_preprocessing_failed).
Proof.
  split; [reflexivity|].
  apply (preprocessing_failure_translated toy.env toy.loaded (PFrame toy.X_missing)
           PNone PNone (PFrame toy.X_missing) (PFrame toy.X_missing)
           (ExternalError "cannot encode a missing value"));
    vm_compute; reflexivity.
Defined.

(** C1, as the code has it.  A new dataset whose preprocessing fails leaves
    the cleared bundle of the new dataset behind: [x] is the checked new
    dataset and [ypred], [contributions] and [x_preprocessed] are [None].
    A new dataset that fails one of the dataset checks leaves every
    attribute, the bundle included, as it was. *)
Theorem failed_add_input_bundle env s x ypred contributions :
  (∀ x1 x2 e,
     (check_dataset_type env x s).2 = Ok x1 →
     (check_dataset_features x1 s).2 = Ok x2 →
     ext.apply_preprocessing env x2 (model s) (preprocessing s) = Raise e →
     let s' := (add_input env x ypred contributions s).1 in
     data s' = Some (clean_data x2) ∧
     bundle_entry s' "x" = Some x2 ∧
     bundle_entry s' "ypred" = Some PNone ∧
     bundle_entry s' "contributions" = Some PNone ∧
     bundle_entry s' "x_preprocessed" = Some PNone) ∧
  (∀ e,
     is_None x = false →
     ((check_dataset_type env x s).2 = Raise e ∨
      ∃ x1, (check_dataset_type env x s).2 = Ok x1 ∧
            (check_dataset_features x1 s).2 = Raise e) →
     add_input env x ypred contributions s = (s, Raise e)).
Proof.
  split.
  - intros x1 x2 e H1 H2 Hpre.
    rewrite (add_input_preprocessing_raises _ _ _ _ _ _ _ _ H1 H2 Hpre).
    simpl. unfold bundle_entry, clean_data. simpl.
    repeat split; by simplify_map_eq.
  - intros e Hx H. by apply add_input_check_raises.
Qed.

Lemma failed_add_input_bundle_witness :
  bundle_entry (add_input toy.env (PFrame toy.X_missing) PNone PNone toy.loaded).1 "ypred"
  = Some PNone ∧
  add_input toy.env (PInt 3) PNone PNone toy.loaded
  = (toy.loaded, Raise (ValueError msg_x_type)).
Proof.
  pose proof (failed_add_input_bundle toy.env toy.loaded (PFrame toy.X_missing)
                PNone PNone) as [Ha _].
  pose proof (failed_add_input_bundle toy.env toy.loaded (PInt 3)
                PNone PNone) as [_ Hb].
  split.
  - apply (Ha (PFrame toy.X_missing) (PFrame toy.X_missing)
              (ExternalError "cannot encode a missing value"));
      vm_compute; reflexivity.
  - apply Hb; [reflexivity|]. left. reflexivity.
Defined.

(** C1, as the claim has it, fails: after [add_input(x=X1)] the bundle holds
    a prediction; a further [add_input] with a dataset that preprocessing
    rejects raises, and the bundle then holds the new [x] and no prediction
    or contributions any more. *)
Lemma failed_add_input_not_atomic :
  let s := toy.loaded in
  let r := add_input toy.env (PFrame toy.X_missing) PNone PNone s in
  bundle_entry s "x" = Some (PFrame toy.X1) ∧
  bundle_entry s "ypred"
  = Some (PFrame (mkFrame [0; 1] [("ypred"%string, "float64"%string)]
                          [[CNum 0]; [CNum 0]])) ∧
  bundle_entry s "contributions" = Some (PFrame toy.X1) ∧
  r.2 = Raise (ValueError msg_preprocessing_failed) ∧
  bundle_entry r.1 "x" = Some (PFrame toy.X_missing) ∧
  bundle_entry r.1 "ypred" = Some PNone ∧
  bundle_entry r.1 "contributions" = Some PNone ∧
  data r.1 ≠ data s.
Proof.
  cbv zeta. repeat split; try (vm_compute; reflexivity).
  intros H. apply (f_equal (λ d, d ≫= (.!! "ypred"))) in H.
  vm_compute in H. discriminate H.
Qed.

(** ** [modify_mask] (C10) *)

Lemma with_mask_params_id s : with_mask_params (mask_params s) s = s.
Proof. by destruct s. Qed.

Lemma run_modify_mask s fth th pos mc :
  modify_mask fth th pos mc s
  = (with_mask_params
       (set_unless_None "max_contrib" mc
          (set_unless_None "positive" pos
             (set_unless_None "threshold" th
                (set_unless_None "features_to_hide" fth (mask_params s))))) s,
     Ok tt).
Proof.
  unfold modify_mask, set_unless_None. cbn [foldl fst snd].
  rewrite !run_bind. cbn [mret M_ret ret].
  destruct (is_None fth), (is_None th), (is_None pos), (is_None mc);
    cbn; rewrite ?with_mask_params_id; reflexivity.
Qed.

Lemma set_unless_None_lookup label a mp key :
  set_unless_None label a mp !! key
  = if bool_decide (label = key) && negb (is_None a) then Some a else mp !! key.
Proof.
  unfold set_unless_None. destruct (is_None a); simpl.
  - by rewrite andb_false_r.
  - rewrite andb_true_r. case_bool_decide as Hk.
    + subst. apply lookup_insert_eq.
    + by apply lookup_insert_ne.
Qed.

Lemma set_unless_None_keeps label a mp key v :
  mp !! key = Some v → v ≠ PNone →
  ∃ v', set_unless_None label a mp !! key = Some v' ∧ v' ≠ PNone.
Proof.
  intros Hv Hne. rewrite set_unless_None_lookup.
  case_bool_decide; simpl; [|eauto].
  destruct (is_None a) eqn:Ha; simpl; [eauto|].
  exists a. split; [done|]. intros ->. discriminate Ha.
Qed.

Lemma apply_update_mask_params s u :
  mask_params (apply_update s u)
  = set_unless_None "max_contrib" (upd_max_contrib u)
      (set_unless_None "positive" (upd_positive u)
         (set_unless_None "threshold" (upd_threshold u)
            (set_unless_None "features_to_hide" (upd_features_to_hide u)
               (mask_params s)))).
Proof. unfold apply_update. by rewrite run_modify_mask. Qed.

Lemma apply_update_keeps s u key v :
  mask_params s !! key = Some v → v ≠ PNone →
  ∃ v', mask_params (apply_update s u) !! key = Some v' ∧ v' ≠ PNone.
Proof.
  intros Hv Hne. rewrite apply_update_mask_params.
  destruct (set_unless_None_keeps "features_to_hide" (upd_features_to_hide u)
              _ _ _ Hv Hne) as (v1 & H1 & Hn1).
  destruct (set_unless_None_keeps "threshold" (upd_threshold u)
              _ _ _ H1 Hn1) as (v2 & H2 & Hn2).
  destruct (set_unless_None_keeps "positive" (upd_positive u)
              _ _ _ H2 Hn2) as (v3 & H3 & Hn3).
  exact (set_unless_None_keeps "max_contrib" (upd_max_contrib u) _ _ _ H3 Hn3).
Qed.

(** C10.  [modify_mask] always returns; afterwards each of the four
    parameters holds the argument passed for it if that argument is not
    [None] and its previous value otherwise, and every other key is as
    before.  Hence a key that held a value other than [None] still holds a
    value other than [None] after any number of calls. *)
Theorem modify_mask_update_only s fth th pos mc :
  let s' := (modify_mask fth th pos mc s).1 in
  let updated (label : string) (attribute : pyobj) :=
    mask_params s' !! label
    = if is_None attribute then mask_params s !! label else Some attribute in
  (modify_mask fth th pos mc s).2 = Ok tt ∧
  updated "features_to_hide"%string fth ∧
  updated "threshold"%string th ∧
  updated "positive"%string pos ∧
  updated "max_contrib"%string mc ∧
  (∀ label : string,
     label ∉ ["features_to_hide"; "threshold"; "positive"; "max_contrib"]%string →
     mask_params s' !! label = mask_params s !! label) ∧
  (∀ (updates : list mask_update) (label : string) (v : pyobj),
     mask_params s !! label = Some v → v ≠ PNone →
     ∃ v', mask_params (foldl apply_update s updates) !! label = Some v' ∧
           v' ≠ PNone).
Proof.
  cbv zeta. rewrite run_modify_mask. cbn [fst snd].
  change (mask_params (with_mask_params ?mp s)) with mp.
  split; [reflexivity|].
  repeat split.
  - rewrite !set_unless_None_lookup. simpl. by destruct (is_None fth).
  - rewrite !set_unless_None_lookup. simpl. by destruct (is_None th).
  - rewrite !set_unless_None_lookup. simpl. by destruct (is_None pos).
  - rewrite !set_unless_None_lookup. simpl. by destruct (is_None mc).
  - intros label Hl. rewrite !set_unless_None_lookup.
    repeat (case_bool_decide; [subst; exfalso; apply Hl; set_solver|]).
    reflexivity.
  - intros updates. revert s.
    induction updates as [|u updates IH]; intros s label v Hv Hne; simpl.
    + eauto.
    + destruct (apply_update_keeps s u label v Hv Hne) as (v1 & H1 & Hn1).
      exact (IH _ _ _ H1 Hn1).
Qed.

Lemma modify_mask_update_only_witness :
  let s := (modify_mask PNone (PFloat (1 # 2)) PNone PNone toy.fresh).1 in
  mask_params s !! "threshold" = Some (PFloat (1 # 2)) ∧
  ∃ v', mask_params
          (foldl apply_update s [mkUpdate PNone PNone (PBool true) PNone;
                                 mkUpdate PNone PNone PNone PNone])
          !! "threshold" = Some v' ∧ v' ≠ PNone.
Proof.
  cbv zeta.
  assert (H : mask_params (modify_mask PNone (PFloat (1 # 2)) PNone PNone toy.fresh).1
              !! "threshold" = Some (PFloat (1 # 2))) by reflexivity.
  split; [exact H|].
  pose proof (modify_mask_update_only
                (modify_mask PNone (PFloat (1 # 2)) PNone PNone toy.fresh).1
                PNone PNone PNone PNone) as (_ & _ & _ & _ & _ & _ & Hkeep).
  apply (Hkeep _ "threshold"%string (PFloat (1 # 2)) H). discriminate.
Defined.

(** ** Frame reasoning *)

Section keeps.

Context (P : SmartPredictor → SmartPredictor → Prop).
Context `{!Reflexive P, !Transitive P}.

Lemma keeps_readonly {A} (c : M A) : readonly c → keeps P c.
Proof. intros Hc s. by rewrite Hc. Qed.

Lemma keeps_bind {A B} (c : M A) (k : A → M B) :
  keeps P c → (∀ a, keeps P (k a)) → keeps P (c ≫= k).
Proof.
  intros Hc Hk s. rewrite run_bind. specialize (Hc s).
  destruct (c s) as [s' [a|e]]; simpl in *; [|done].
  etrans; [exact Hc|apply Hk].
Qed.

Lemma keeps_if {A} (b : bool) (c1 c2 : M A) :
  keeps P c1 → keeps P c2 → keeps P (if b then c1 else c2).
Proof. by destruct b. Qed.

Lemma keeps_try_except {A} (body : M A) (handler : exn → M A) :
  keeps P body → (∀ e, keeps P (handler e)) → keeps P (try_except body handler).
Proof.
  intros Hb Hh s. unfold try_except. specialize (Hb s).
  destruct (body s) as [s' [a|e]]; simpl in *; [done|].
  etrans; [exact Hb|apply Hh].
Qed.

Lemma keeps_modify_self (f : SmartPredictor → SmartPredictor) :
  (∀ s, P s (f s)) → keeps P (modify_self f).
Proof. intros Hf s. apply Hf. Qed.

Lemma keeps_run {A} (c : M A) s s' r : keeps P c → c s = (s', r) → P s s'.
Proof. intros Hc E. specialize (Hc s). by rewrite E in Hc. Qed.

End keeps.

Lemma readonly_hasattr_data : readonly hasattr_data.
Proof. by intros s. Qed.

Lemma readonly_self_data : readonly self_data.
Proof. intros s. unfold self_data. by destruct (data s). Qed.

Lemma readonly_self_summary : readonly self_summary.
Proof. intros s. unfold self_summary. by destruct (summary s). Qed.

Lemma readonly_self_mask : readonly self_mask.
Proof. intros s. unfold self_mask. by destruct (mask s). Qed.

Lemma readonly_self_state : readonly self_state.
Proof. intros s. unfold self_state. by destruct (state s). Qed.

Lemma readonly_data_getitem key : readonly (data_getitem key).
Proof.
  apply readonly_bind; [apply readonly_self_data|]. intros d.
  destruct (d !! key); auto with readonly.
Qed.

Lemma readonly_mask_params_getitem key : readonly (mask_params_getitem key).
Proof.
  apply readonly_bind; [apply readonly_get_self|]. intros s.
  destruct (mask_params s !! key); auto with readonly.
Qed.

#[local] Hint Resolve readonly_hasattr_data readonly_self_data readonly_self_summary
  readonly_self_mask readonly_self_state readonly_data_getitem
  readonly_mask_params_getitem readonly_bind : readonly.

Lemma keeps_data_setitem P `{!Reflexive P} key v :
  (∀ s d, data s = Some d → P s (with_data (<[key := v]> d) s)) →
  keeps P (data_setitem key v).
Proof.
  intros H s. unfold data_setitem. rewrite run_bind. unfold self_data.
  destruct (data s) as [d|] eqn:Hd; simpl; [by apply H|done].
Qed.

(** The relations used below. *)
#[local] Instance same_configuration_refl : Reflexive same_configuration.
Proof. intros s. by repeat split. Qed.

#[local] Instance same_configuration_trans : Transitive same_configuration.
Proof.
  intros s1 s2 s3 H12 H23. unfold same_configuration in *.
  destruct_and!. repeat split; congruence.
Qed.

(** Goals [keeps P c] are split along the structure of [c]; what is left
    are the assignments to attributes. *)
Ltac keeps_step :=
  lazymatch goal with
  | |- keeps _ (_ ≫= _) => apply keeps_bind; [exact _ .. | |intros ?]
  | |- keeps _ (if _ then _ else _) => apply keeps_if
  | |- keeps _ (modify_self _) => apply keeps_modify_self; intros ?
  | |- keeps _ (data_setitem _ _) => apply keeps_data_setitem; [exact _ .. |intros ? ? ?]
  | |- keeps _ (try_except _ _) => apply keeps_try_except; [exact _ .. | |intros ?]
  | |- keeps _ (match ?o with _ => _ end) => destruct o
  | |- keeps _ _ => apply keeps_readonly; [exact _ .. |solve [auto 6 with readonly]]
  end.

Lemma predict_keeps_configuration env : keeps same_configuration (predict env).
Proof.
  unfold predict.
  repeat keeps_step; by repeat split.
Qed.

#[local] Hint Resolve readonly_convert_dict_dataset readonly_check_dataset_type
  readonly_check_dataset_features : readonly.

Lemma bind_ext_on {A B} (c : M A) (k1 k2 : A → M B) s :
  (∀ s' a, c s = (s', Ok a) → k1 a s' = k2 a s') → (c ≫= k1) s = (c ≫= k2) s.
Proof.
  intros H. rewrite !run_bind. destruct (c s) as [s' [a|e]]; [by apply H|done].
Qed.

(** ** A single table for a classifier (C5) *)

Lemma is_table_or_array_not_None c :
  transform.is_table_or_array c = true → is_None c = false.
Proof. by destruct c. Qed.

Lemma adapt_single_table c :
  transform.is_table_or_array c = true →
  transform.adapt_contributions "classification" c
  = PList [transform.neg_contributions c; c].
Proof. intros H. unfold transform.adapt_contributions. by rewrite H. Qed.

Lemma adapt_sequence case l : transform.adapt_contributions case (PList l) = PList l.
Proof. reflexivity. Qed.

Lemma adapt_other_case case c :
  case ≠ "classification"%string → transform.adapt_contributions case c = c.
Proof.
  intros H. unfold transform.adapt_contributions.
  destruct (String.eqb_spec case "classification"); [done|].
  by rewrite andb_false_r.
Qed.

Lemma run_adapt_contributions c s :
  adapt_contributions c s = (s, Ok (transform.adapt_contributions (_case s) c)).
Proof. reflexivity. Qed.

Lemma compute_contributions_single_table env s c :
  _case s = "classification"%string →
  transform.is_table_or_array c = true →
  compute_contributions env c s
  = compute_contributions env (PList [transform.neg_contributions c; c]) s.
Proof.
  intros Hcase Hc. unfold compute_contributions.
  apply bind_ext_on. intros s1 has E1.
  destruct (negb has); [done|].
  apply bind_ext_on. intros s2 x E2.
  destruct (is_None x); [done|].
  apply bind_ext_on. intros s3 ypred E3.
  apply bind_ext_on. intros s4 [] E4.
  assert (_case s4 = "classification"%string) as Hcase4.
  { apply (keeps_run same_configuration) in E1; [|keeps_step].
    apply (keeps_run same_configuration) in E2; [|keeps_step].
    apply (keeps_run same_configuration) in E3; [|keeps_step].
    apply (keeps_run same_configuration) in E4.
    - unfold same_configuration in *. destruct_and!. congruence.
    - keeps_step; [|keeps_step].
      apply keeps_bind; [exact _|apply predict_keeps_configuration|intros ?; keeps_step]. }
  rewrite (is_table_or_array_not_None c Hc). cbn [is_None].
  rewrite !run_bind. cbn [mret M_ret ret].
  erewrite (run_bind_ok (adapt_contributions c)); [|apply run_adapt_contributions].
  erewrite (run_bind_ok (adapt_contributions (PList _)));
    [|apply run_adapt_contributions].
  by rewrite Hcase4, adapt_sequence, (adapt_single_table c Hc).
Qed.

(** C5.  For a classifier, [adapt_contributions] turns a single table or
    array [c] into the sequence [[-c, c]] and leaves that sequence as it is,
    so [compute_contributions], which adapts before it validates, does the
    same on [c] as on [[-c, c]]; so does [add_input].  For a regressor the
    contributions go through unchanged. *)
Theorem single_table_adaptation env s c :
  transform.is_table_or_array c = true →
  let pair := PList [transform.neg_contributions c; c] in
  (_case s = "classification"%string →
     adapt_contributions c s = (s, Ok pair) ∧
     adapt_contributions pair s = (s, Ok pair) ∧
     compute_contributions env c s = compute_contributions env pair s ∧
     detail_contributions env c s = detail_contributions env pair s) ∧
  (_case s = "regression"%string →
     ∀ contributions, adapt_contributions contributions s = (s, Ok contributions)).
Proof.
  intros Hc pair. split.
  - intros Hcase. rewrite !run_adapt_contributions, Hcase.
    split; [by rewrite (adapt_single_table c Hc)|].
    split; [reflexivity|].
    split; [by apply compute_contributions_single_table|].
    unfold detail_contributions. rewrite !run_bind.
    by rewrite (compute_contributions_single_table env s c Hcase Hc).
  - intros Hcase contributions. rewrite run_adapt_contributions, Hcase.
    by rewrite adapt_other_case.
Qed.

Lemma single_table_adaptation_witness :
  (compute_contributions toy.env (PFrame toy.X1) toy.classifier).2
  = Ok (PFrame (mkFrame [0; 1] [("ypred"%string, "float64"%string)]
                        [[CNum 0]; [CNum 0]]),
        PList [PFrame (frame_map transform.cell_neg toy.X1); PFrame toy.X1]) ∧
  compute_contributions toy.env (PFrame toy.X1) toy.classifier
  = compute_contributions toy.env
      (PList [PFrame (frame_map transform.cell_neg toy.X1); PFrame toy.X1])
      toy.classifier ∧
  adapt_contributions (PFrame toy.X1) toy.loaded = (toy.loaded, Ok (PFrame toy.X1)).
Proof.
  split; [vm_compute; reflexivity|]. split.
  - refine (proj1 (proj2 (proj2 (proj1 (single_table_adaptation toy.env toy.classifier
                                           (PFrame toy.X1) eq_refl) _)))).
    vm_compute. reflexivity.
  - refine (proj2 (single_table_adaptation toy.env toy.loaded (PFrame toy.X1) eq_refl)
              _ (PFrame toy.X1)).
    vm_compute. reflexivity.
Defined.

(** ** The dtype check of [check_dataset_features] (C6) *)

(** The last test of [check_dataset_features] is on a generator object, so
    its [raise] is dead code: whatever the dtypes, the method goes on to
    [return x]. *)
Lemma dtype_test_never_fires (x' : DataFrame) (s : SmartPredictor) :
  negb (generator_truthy
          (map (λ feature,
                  bool_decide (Some (dtype_of x' feature) = features_types s !! feature))
               (column_names x'))) = false.
Proof. reflexivity. Qed.

(** C6, on a dataset whose [Age] column has dtype [float64] where
    [features_types] declares [int64]: [check_dataset_features] returns the
    dataset instead of raising, and [add_input] accepts it. *)
Theorem dataset_type_mismatch_accepted :
  dtype_of toy.X_wrong_type "Age" = "float64"%string ∧
  features_types toy.fresh !! "Age" = Some "int64"%string ∧
  check_dataset_features (PFrame toy.X_wrong_type) toy.fresh
  = (toy.fresh, Ok (PFrame toy.X_wrong_type)) ∧
  (add_input toy.env (PFrame toy.X_wrong_type) PNone PNone toy.fresh).2 = Ok tt ∧
  bundle_entry (add_input toy.env (PFrame toy.X_wrong_type) PNone PNone toy.fresh).1 "x"
  = Some (PFrame toy.X_wrong_type).
Proof. repeat split; vm_compute; reflexivity. Qed.

(** With matching dtypes the columns come back in the order of
    [columns_dict]. *)
Example dataset_reordered :
  check_dataset_features (PFrame toy.X2) toy.fresh
  = (toy.fresh,
     Ok (PFrame (mkFrame [7] [("Age"%string, "int64"%string);
                              ("Fare"%string, "float64"%string)]
                         [[CNum 12; CNum 9]]))).
Proof. vm_compute. reflexivity. Qed.

(** ** The threshold filter (C3) *)

(** What the threshold filter computes when it is reached with a table. *)
Lemma cap_contributions_boundary (t q : Q) :
  Qle_bool t (Qabs q) = true ↔ (t <= Qabs q)%Q.
Proof. apply Qle_bool_iff. Qed.

(** With a threshold set, [filter] looks the ranked contributions up in
    [self.data], where no method ever stores them, instead of
    [self.summary]: the lookup raises and no mask is built. *)
Lemma filter_masks_threshold_raises s sm d t :
  summary s = Some sm →
  data s = Some d →
  d !! "contrib_sorted" = None →
  mask_params s !! "features_to_hide" = Some PNone →
  mask_params s !! "threshold" = Some t →
  is_None t = false →
  filter_masks s = (s, Raise (KeyError (PStr "contrib_sorted"))).
Proof.
  intros Hsm Hd Hk Hfth Hth Ht. unfold filter_masks.
  rewrite run_bind. unfold self_summary at 1. rewrite Hsm.
  rewrite run_bind, run_mask_params_getitem, Hfth. cbn [is_None negb].
  rewrite run_bind. cbn [mret M_ret ret].
  rewrite run_bind, run_mask_params_getitem, Hth, Ht. cbn [negb].
  erewrite run_bind_raise; [reflexivity|].
  erewrite run_bind_raise; [reflexivity|].
  by rewrite (run_data_getitem _ _ _ Hd), Hk.
Qed.

Lemma filter_threshold_raises env s sm d t :
  summary s = Some sm →
  data s = Some d →
  d !! "contrib_sorted" = None →
  mask_params s !! "features_to_hide" = Some PNone →
  mask_params s !! "threshold" = Some t →
  is_None t = false →
  filter env s = (s, Raise (KeyError (PStr "contrib_sorted"))).
Proof.
  intros Hsm Hd Hk Hfth Hth Ht. unfold filter.
  erewrite run_bind_raise; [reflexivity|].
  by eapply filter_masks_threshold_raises.
Qed.

(** Whatever the collaborators do, [summarize] does not return while a
    threshold is set and the bundle has no key [contrib_sorted]. *)
Lemma summarize_threshold_never_returns env s d t :
  data s = Some d →
  d !! "contrib_sorted" = None →
  mask_params s !! "features_to_hide" = Some PNone →
  mask_params s !! "threshold" = Some t →
  is_None t = false →
  ∃ e, (summarize env s).2 = Raise e.
Proof.
  intros Hd Hk Hfth Hth Ht. unfold summarize.
  rewrite run_bind. unfold hasattr_data at 1. rewrite Hd. cbn [negb].
  rewrite run_bind, (run_data_getitem _ _ _ Hd).
  destruct (d !! "contributions") as [c|]; [|by eexists].
  rewrite run_bind, (run_data_getitem _ _ _ Hd).
  destruct (d !! "x_preprocessed") as [xp|]; [|by eexists].
  rewrite run_bind. unfold call at 1.
  destruct (ext.rank_contributions env c xp) as [ranked|e]; [|by eexists].
  rewrite run_bind. unfold modify_self at 1.
  erewrite run_bind_raise; [by eexists|].
  by eapply filter_threshold_raises.
Qed.

(** C3, on the two-row dataset: after [add_input(x=X1)] and
    [modify_mask(threshold=1/2)], [summarize] raises [KeyError] on the key
    [contrib_sorted] and leaves no mask; the same predictor summarizes fine
    while no threshold is set. *)
Theorem summarize_with_threshold_raises :
  let s := (modify_mask PNone (PFloat (1 # 2)) PNone PNone toy.loaded).1 in
  mask_params s !! "threshold" = Some (PFloat (1 # 2)) ∧
  (summarize toy.env s).2 = Raise (KeyError (PStr "contrib_sorted")) ∧
  mask (summarize toy.env s).1 = None ∧
  bundle_entry toy.loaded "contrib_sorted" = None ∧
  mask (summarize toy.env toy.loaded).1
  = Some (mkFrame [0; 1] [("Age"%string, "int64"%string);
                          ("Fare"%string, "float64"%string)]
                  [[CBool true; CBool true]; [CBool true; CBool true]]).
Proof. cbv zeta. repeat split; vm_compute; reflexivity. Qed.

(** ** Combining masks (C9) *)

Lemma mask_at_mask_and m1 m2 i j :
  mask_at (filters.mask_and m1 m2) i j = mask_at m1 i j && mask_at m2 i j.
Proof.
  unfold mask_at, filters.mask_and. cbn [rows].
  rewrite lookup_zip_with.
  destruct (rows m1 !! i) as [r1|], (rows m2 !! i) as [r2|]; cbn;
    rewrite ?andb_false_r; try reflexivity.
  rewrite lookup_zip_with.
  destruct (r1 !! j) as [c1|], (r2 !! j) as [c2|]; cbn;
    rewrite ?andb_false_r; reflexivity.
Qed.

Lemma mask_at_foldl_and m ms i j :
  mask_at (foldl filters.mask_and m ms) i j
  = mask_at m i j && forallb (λ m', mask_at m' i j) ms.
Proof.
  revert m. induction ms as [|m' ms IH]; intros m; cbn.
  - by rewrite andb_true_r.
  - by rewrite IH, mask_at_mask_and, andb_assoc.
Qed.

Lemma mask_at_init_mask like i j :
  mask_at (manipulation_mask.init_mask like true) i j = in_shape like i j.
Proof.
  unfold mask_at, in_shape, manipulation_mask.init_mask, frame_map. cbn [rows].
  rewrite list_lookup_fmap. destruct (rows like !! i) as [r|]; cbn; [|done].
  rewrite list_lookup_fmap. case_bool_decide as Hj.
  - apply lookup_lt_is_Some in Hj as [c ->]. reflexivity.
  - rewrite lookup_ge_None_2; [done|lia].
Qed.

Lemma mask_at_combine_masks like masks i j :
  mask_at (filters.combine_masks (manipulation_mask.init_mask like true :: masks)) i j
  = in_shape like i j && forallb (λ m, mask_at m i j) masks.
Proof. cbn. by rewrite mask_at_foldl_and, mask_at_init_mask. Qed.

Lemma cutoff_row_narrows k row j c :
  filters.cutoff_row k row !! j = Some c → cell_true c = true →
  ∃ c0, row !! j = Some c0 ∧ cell_true c0 = true.
Proof.
  revert k j. induction row as [|c0 row IH]; intros k j; cbn; [done|].
  destruct (cell_true c0) eqn:Hc0.
  - destruct k as [|k]; destruct j as [|j]; cbn; intros H Hc.
    + injection H as <-. discriminate Hc.
    + by apply (IH O j).
    + eauto.
    + by apply (IH k j).
  - destruct j as [|j]; cbn; intros H Hc.
    + injection H as <-. discriminate Hc.
    + by apply (IH k j).
Qed.

Lemma mask_at_cutoff m k i j :
  mask_at (filters.cutoff_contributions m k) i j = true → mask_at m i j = true.
Proof.
  unfold mask_at, filters.cutoff_contributions. cbn [rows].
  rewrite list_lookup_fmap. destruct (rows m !! i) as [r|]; cbn; [|done].
  destruct (filters.cutoff_row (Z.to_nat k) r !! j) as [c|] eqn:Hc; [|done].
  intros Ht. destruct (cutoff_row_narrows _ _ _ _ Hc Ht) as (c0 & -> & H0). done.
Qed.

Lemma bind_ok_inv {A B} (c : M A) (k : A → M B) s s' b :
  (c ≫= k) s = (s', Ok b) → ∃ s1 a, c s = (s1, Ok a) ∧ k a s1 = (s', Ok b).
Proof.
  rewrite run_bind. destruct (c s) as [s1 [a|e]]; [eauto|discriminate].
Qed.

Lemma readonly_filter_masks : readonly filter_masks.
Proof.
  unfold filter_masks.
  repeat first
    [ solve [auto with readonly]
    | apply readonly_bind; [|intros ?]
    | apply readonly_if ].
Qed.

(** The list that [filter] combines starts with the all-true base mask. *)
Lemma filter_masks_ok s s' l :
  filter_masks s = (s', Ok l) →
  s' = s ∧
  ∃ sm active, summary s = Some sm ∧
    l = manipulation_mask.init_mask (contrib_sorted sm) true :: active.
Proof.
  intros H. split.
  { pose proof (readonly_filter_masks s) as Hs. by rewrite H in Hs. }
  unfold filter_masks in H.
  apply bind_ok_inv in H as (s1 & sm & E1 & H).
  assert (summary s = Some sm) as Hsm.
  { unfold self_summary in E1. destruct (summary s); by inversion E1. }
  exists sm. clear E1.
  apply bind_ok_inv in H as (s2 & fth & _ & H).
  apply bind_ok_inv in H as (s3 & mask1 & E3 & H).
  assert (mask1 = [manipulation_mask.init_mask (contrib_sorted sm) true]) as ->.
  { destruct (negb (is_None fth)).
    - apply bind_ok_inv in E3 as (? & ? & _ & E3). discriminate E3.
    - by inversion E3. }
  clear E3.
  apply bind_ok_inv in H as (s4 & th & _ & H).
  apply bind_ok_inv in H as (s5 & mask2 & E5 & H).
  assert (∃ a2, mask2 = manipulation_mask.init_mask (contrib_sorted sm) true :: a2)
    as [a2 ->].
  { destruct (negb (is_None th)).
    - apply bind_ok_inv in E5 as (? & ? & _ & E5).
      apply bind_ok_inv in E5 as (? & ? & _ & E5).
      apply bind_ok_inv in E5 as (? & m & _ & E5).
      inversion E5. by eexists.
    - inversion E5. by eexists. }
  clear E5.
  apply bind_ok_inv in H as (s6 & pos & _ & H).
  apply bind_ok_inv in H as (s7 & mask3 & E7 & H).
  inversion H; subst. clear H.
  destruct (negb (is_None pos)).
  - apply bind_ok_inv in E7 as (? & ? & _ & E7).
    apply bind_ok_inv in E7 as (? & ? & _ & E7).
    apply bind_ok_inv in E7 as (? & m & _ & E7).
    inversion E7. by eexists.
  - inversion E7. by eexists.
Qed.

(** The mask a successful [filter] leaves in [self.mask]: the combination of
    the list, cut off at [max_contrib] when that is set. *)
Lemma filter_ok env s s' :
  filter env s = (s', Ok tt) →
  ∃ l, filter_masks s = (s, Ok l) ∧
       ((mask_params s !! "max_contrib" = Some PNone ∧
         mask s' = Some (filters.combine_masks l)) ∨
        (∃ k, mask_params s !! "max_contrib" = Some (PInt k) ∧
              mask s' = Some (filters.cutoff_contributions (filters.combine_masks l) k))).
Proof.
  intros H. unfold filter in H.
  apply bind_ok_inv in H as (s1 & l & E1 & H).
  destruct (filter_masks_ok _ _ _ E1) as [-> _].
  exists l. split; [exact E1|]. clear E1.
  apply bind_ok_inv in H as (s2 & [] & E2 & H).
  inversion E2; subst s2; clear E2.
  apply bind_ok_inv in H as (s3 & mc & E3 & H).
  rewrite run_mask_params_getitem in E3. cbn [mask_params with_mask] in E3.
  destruct (mask_params s !! "max_contrib") as [mc'|] eqn:Hmc; inversion E3; subst.
  clear E3.
  apply bind_ok_inv in H as (s4 & [] & E4 & H).
  apply bind_ok_inv in H as (s5 & sm & E5 & H).
  apply bind_ok_inv in H as (s6 & m & E6 & H).
  apply bind_ok_inv in H as (s7 & mcs & E7 & H).
  inversion H; subst s'; clear H.
  inversion E7; subst s7; clear E7.
  pose proof (readonly_self_mask s5) as R6. rewrite E6 in R6. cbn in R6. subst s6.
  pose proof (readonly_self_summary s4) as R5. rewrite E5 in R5. cbn in R5. subst s5.
  cbn [mask with_masked_contributions].
  destruct mc; cbn [is_None negb] in E4;
    try (apply bind_ok_inv in E4 as (? & m0 & E4a & E4);
         apply bind_ok_inv in E4 as (? & k0 & E4b & E4);
         apply bind_ok_inv in E4 as (? & m' & E4c & E4);
         inversion E4a; subst; clear E4a;
         rewrite run_mask_params_getitem in E4b;
         cbn [mask_params with_mask] in E4b; rewrite Hmc in E4b;
         inversion E4b; subst; clear E4b;
         inversion E4c; subst; clear E4c;
         inversion E4; subst; clear E4).
  - left. inversion E4; subst. by split.
  - right. eexists. by split.
Qed.

Lemma filter_no_active_filter env s sm :
  summary s = Some sm →
  mask_params s !! "features_to_hide" = Some PNone →
  mask_params s !! "threshold" = Some PNone →
  mask_params s !! "positive" = Some PNone →
  mask_params s !! "max_contrib" = Some PNone →
  mask (filter env s).1 = Some (manipulation_mask.init_mask (contrib_sorted sm) true).
Proof.
  intros Hsm Hfth Hth Hpos Hmc.
  assert (filter_masks s
          = (s, Ok [manipulation_mask.init_mask (contrib_sorted sm) true])) as Hl.
  { unfold filter_masks. rewrite run_bind. unfold self_summary at 1. rewrite Hsm.
    rewrite run_bind, run_mask_params_getitem, Hfth. cbn [is_None negb].
    rewrite run_bind. cbn [mret M_ret ret].
    rewrite run_bind, run_mask_params_getitem, Hth. cbn [is_None negb].
    rewrite run_bind. cbn [mret M_ret ret].
    rewrite run_bind, run_mask_params_getitem, Hpos. cbn [is_None negb].
    rewrite run_bind. cbn [mret M_ret ret]. reflexivity. }
  unfold filter. erewrite run_bind_ok; [|exact Hl].
  rewrite run_bind. unfold modify_self at 1.
  rewrite run_bind, run_mask_params_getitem. cbn [mask_params with_mask].
  rewrite Hmc. cbn [is_None negb]. rewrite run_bind. cbn [mret M_ret ret].
  rewrite run_bind. unfold self_summary. cbn [summary with_mask]. rewrite Hsm.
  rewrite run_bind. unfold self_mask. cbn [mask with_mask].
  rewrite run_bind. unfold call.
  by destruct (ext.compute_masked_contributions env _ _).
Qed.



(** ** Relating two runs *)

Lemma pure_ret {A} (a : A) : pure (mret a).
Proof. by exists (Ok a). Qed.

Lemma pure_raise {A} (e : exn) : pure (@raise A e).
Proof. by exists (Raise e). Qed.

Lemma pure_call {A} (r : result A) : pure (call r).
Proof. by exists r. Qed.

Lemma pure_bind {A B} (c : M A) (k : A → M B) :
  pure c → (∀ a, pure (k a)) → pure (c ≫= k).
Proof.
  intros [[a|e] Hc] Hk.
  - destruct (Hk a) as [r Hr]. exists r. intros s. by rewrite run_bind, Hc, Hr.
  - exists (Raise e). intros s. by rewrite run_bind, Hc.
Qed.

Lemma pure_if {A} (b : bool) (c1 c2 : M A) :
  pure c1 → pure c2 → pure (if b then c1 else c2).
Proof. by destruct b. Qed.

Lemma pure_try_except {A} (body : M A) (handler : exn → M A) :
  pure body → (∀ e, pure (handler e)) → pure (try_except body handler).
Proof.
  intros [[a|e] Hb] Hh.
  - exists (Ok a). intros s. unfold try_except. by rewrite Hb.
  - destruct (Hh e) as [r Hr]. exists r. intros s. unfold try_except.
    by rewrite Hb, Hr.
Qed.

Lemma pure_foldl {A B} (f : M A → B → M A) (l : list B) (c : M A) :
  (∀ acc b, pure acc → pure (f acc b)) → pure c → pure (foldl f c l).
Proof.
  intros Hf. revert c. induction l as [|b l IH]; intros c Hc; simpl; [done|].
  apply IH, Hf, Hc.
Qed.

Lemma sim_pure {A} Q (c : M A) s1 s2 : pure c → Q s1 s2 → sim Q (c s1) (c s2).
Proof. intros [[a|e] Hc] HQ; rewrite !Hc; by cbn. Qed.

Lemma sim_bind {A B} R Q (c1 c2 : M A) (k1 k2 : A → M B) s1 s2 :
  sim R (c1 s1) (c2 s2) →
  (∀ a t1 t2, R t1 t2 → sim Q (k1 a t1) (k2 a t2)) →
  sim Q ((c1 ≫= k1) s1) ((c2 ≫= k2) s2).
Proof.
  intros Hc Hk. rewrite !run_bind.
  destruct (c1 s1) as [t1 [a1|e1]], (c2 s2) as [t2 [a2|e2]]; cbn in Hc; try done.
  destruct Hc as [<- HR]. by apply Hk.
Qed.

Lemma sim_try_except_raise {A} Q (body1 body2 : M A) e0 s1 s2 :
  sim Q (body1 s1) (body2 s2) →
  sim Q (try_except body1 (λ _, raise e0) s1) (try_except body2 (λ _, raise e0) s2).
Proof.
  unfold try_except.
  destruct (body1 s1) as [t1 [a1|e1]], (body2 s2) as [t2 [a2|e2]]; cbn; done.
Qed.

Lemma sim_weaken {A} (R Q : SmartPredictor → SmartPredictor → Prop)
    (r1 r2 : SmartPredictor * result A) :
  sim R r1 r2 → (∀ s1 s2, R s1 s2 → Q s1 s2) → sim Q r1 r2.
Proof.
  destruct r1 as [t1 [a1|e1]], r2 as [t2 [a2|e2]]; cbn; try done.
  intros [Ha HR] Hw. split; [exact Ha|by apply Hw].
Qed.

Lemma sim_result {A} Q (r1 r2 : SmartPredictor * result A) : sim Q r1 r2 → r1.2 = r2.2.
Proof.
  destruct r1 as [t1 [a1|e1]], r2 as [t2 [a2|e2]]; cbn; try done.
  - by intros [-> _].
  - by intros ->.
Qed.

(** Readers of one attribute. *)
Lemma sim_hasattr_data Q s1 s2 :
  data s1 = data s2 → Q s1 s2 → sim Q (hasattr_data s1) (hasattr_data s2).
Proof. intros Hd HQ. unfold hasattr_data. rewrite Hd. by cbn. Qed.

Lemma sim_data_getitem Q key s1 s2 :
  data s1 = data s2 → Q s1 s2 → sim Q (data_getitem key s1) (data_getitem key s2).
Proof.
  intros Hd HQ. unfold data_getitem. rewrite !run_bind. unfold self_data.
  rewrite Hd. destruct (data s2) as [d|]; [|by cbn].
  destruct (d !! key); by cbn.
Qed.

Lemma sim_mask_params_getitem Q key s1 s2 :
  mask_params s1 = mask_params s2 → Q s1 s2 →
  sim Q (mask_params_getitem key s1) (mask_params_getitem key s2).
Proof.
  intros Hp HQ. rewrite !run_mask_params_getitem, Hp.
  destruct (mask_params s2 !! key); by cbn.
Qed.

Lemma sim_self_summary Q s1 s2 :
  summary s1 = summary s2 → Q s1 s2 → sim Q (self_summary s1) (self_summary s2).
Proof. intros H HQ. unfold self_summary. rewrite H. by destruct (summary s2). Qed.

Lemma sim_self_mask Q s1 s2 :
  mask s1 = mask s2 → Q s1 s2 → sim Q (self_mask s1) (self_mask s2).
Proof. intros H HQ. unfold self_mask. rewrite H. by destruct (mask s2). Qed.

Lemma sim_self_state Q s1 s2 :
  state s1 = state s2 → Q s1 s2 → sim Q (self_state s1) (self_state s2).
Proof. intros H HQ. unfold self_state. rewrite H. by destruct (state s2). Qed.

(** Writers. *)
Lemma sim_modify_self Q f s1 s2 :
  Q (f s1) (f s2) → sim Q (modify_self f s1) (modify_self f s2).
Proof. by cbn. Qed.

Lemma sim_data_setitem Q key v s1 s2 :
  data s1 = data s2 →
  (∀ d, Q (with_data (<[key := v]> d) s1) (with_data (<[key := v]> d) s2)) →
  sim Q (data_setitem key v s1) (data_setitem key v s2).
Proof.
  intros Hd HQ. unfold data_setitem. rewrite !run_bind. unfold self_data.
  rewrite Hd. destruct (data s2) as [d|]; cbn; [|done]. split; [done|apply HQ].
Qed.

Lemma run_get_self_bind {B} (k : SmartPredictor → M B) s : (get_self ≫= k) s = k s s.
Proof. reflexivity. Qed.

Create HintDb pure.
#[local] Hint Resolve pure_ret pure_raise pure_call pure_if : pure.

(** Two runs from attributes that agree are compared statement by
    statement: a reader returns the same value, a collaborator is called
    with the same arguments, a writer stores the same value. *)
Ltac agree_solve H :=
  unfold agree, same_configuration in *; cbn in *;
  intuition (auto; congruence).

Ltac cfg_rewrite H :=
  let Hm := fresh in let Hc := fresh in let Hcl := fresh in let He := fresh in
  let Hpp := fresh in let Hfd := fresh in let Hft := fresh in let Hld := fresh in
  let Hpo := fresh in let Hcd := fresh in
  pose proof (proj1 H) as (Hm & Hc & Hcl & He & Hpp & Hfd & Hft & Hld & Hpo & Hcd);
  rewrite ?Hm, ?Hc, ?Hcl, ?He, ?Hpp, ?Hfd, ?Hft, ?Hld, ?Hpo, ?Hcd;
  clear Hm Hc Hcl He Hpp Hfd Hft Hld Hpo Hcd.

(** Methods proved so far; extended as the development goes on. *)
Ltac sim_sub H := fail.

Ltac sim_leaf :=
  lazymatch goal with
  | H : agree (mkAttrs ?d ?p ?st ?sm ?m) ?s1 ?s2 |- sim _ (?c ?s1) (_ ?s2) =>
      lazymatch c with
      | hasattr_data => apply sim_hasattr_data; [apply H; reflexivity|exact H]
      | data_getitem _ => apply sim_data_getitem; [apply H; reflexivity|exact H]
      | mask_params_getitem _ =>
          apply sim_mask_params_getitem; [apply H; reflexivity|exact H]
      | self_summary => apply sim_self_summary; [apply H; reflexivity|exact H]
      | self_mask => apply sim_self_mask; [apply H; reflexivity|exact H]
      | self_state => apply sim_self_state; [apply H; reflexivity|exact H]
      | data_setitem _ _ =>
          apply (sim_data_setitem (agree (mkAttrs d p st sm m)));
          [apply H; reflexivity|intros ?; agree_solve H]
      | modify_self (with_data _) =>
          apply (sim_modify_self (agree (mkAttrs true p st sm m))); agree_solve H
      | modify_self (with_state _) =>
          apply (sim_modify_self (agree (mkAttrs d p true sm m))); agree_solve H
      | modify_self (with_summary _) =>
          apply (sim_modify_self (agree (mkAttrs d p st true m))); agree_solve H
      | modify_self (with_mask _) =>
          apply (sim_modify_self (agree (mkAttrs d p st sm true))); agree_solve H
      | modify_self (with_masked_contributions _) =>
          apply (sim_modify_self (agree (mkAttrs d p st sm m))); agree_solve H
      | raise _ => exact eq_refl
      | _ => first [apply sim_pure; [solve [auto 8 with pure]|exact H] | sim_sub H]
      end
  end.

Ltac sim_step :=
  lazymatch goal with
  | H : agree _ ?s1 ?s2 |- sim _ ((get_self ≫= _) ?s1) ((get_self ≫= _) ?s2) =>
      rewrite !run_get_self_bind; cbv beta; cfg_rewrite H
  | |- sim _ ((if ?b then _ else _) _) _ => destruct b
  | |- sim _ (match ?o with _ => _ end _) _ => destruct o
  | |- sim _ ((_ ≫= _) _) ((_ ≫= _) _) =>
      eapply sim_bind; [try sim_leaf|intros ? ? ? ?]
  | |- sim _ (try_except _ _ _) _ => apply sim_try_except_raise
  | |- _ => sim_leaf
  end.

Lemma predict_sim env p st sm m s1 s2 :
  agree (mkAttrs true p st sm m) s1 s2 →
  sim (agree (mkAttrs true p st sm m)) (predict env s1) (predict env s2).
Proof.
  intros H. unfold predict.
  repeat sim_step.
Qed.

Ltac sim_sub H ::= first [eapply predict_sim; exact H].

Lemma compute_contributions_sim env c p st sm m s1 s2 :
  agree (mkAttrs true p st sm m) s1 s2 →
  sim (agree (mkAttrs true p true sm m))
      (compute_contributions env c s1) (compute_contributions env c s2).
Proof.
  intros H.
  unfold compute_contributions, adapt_contributions, validate_contributions,
    apply_preprocessing_for_contributions, check_contributions, predict_proba.
  repeat sim_step.
Qed.

Ltac sim_sub H ::=
  first [eapply predict_sim; exact H | eapply compute_contributions_sim; exact H].

Lemma check_dataset_type_sim env x Q s1 s2 :
  same_configuration s1 s2 → Q s1 s2 →
  sim Q (check_dataset_type env x s1) (check_dataset_type env x s2).
Proof.
  intros Hc HQ. unfold check_dataset_type, convert_dict_dataset.
  destruct x; try (apply sim_pure; [solve [auto with pure]|exact HQ]).
  apply sim_try_except_raise. rewrite !run_get_self_bind.
  destruct Hc as (_ & _ & _ & _ & _ & _ & -> & _).
  apply sim_pure; [|exact HQ].
  apply pure_if; [auto with pure|].
  apply pure_bind; [auto with pure|]. intros x0.
  apply pure_bind; [|auto with pure].
  apply pure_foldl; [|auto with pure].
  intros acc b Hacc. apply pure_bind; auto with pure.
Qed.

Lemma check_dataset_features_sim x Q s1 s2 :
  same_configuration s1 s2 → Q s1 s2 →
  sim Q (check_dataset_features x s1) (check_dataset_features x s2).
Proof.
  intros Hc HQ. unfold check_dataset_features. rewrite !run_get_self_bind.
  destruct Hc as (_ & _ & _ & _ & _ & _ & -> & _ & _ & ->).
  apply sim_pure; [|exact HQ].
  apply pure_bind; [auto with pure|]. intros xf.
  repeat (apply pure_if; [auto with pure|]).
  apply pure_bind; [auto with pure|]. intros lo.
  apply pure_bind; [auto with pure|]. intros hi.
  apply pure_bind.
  - apply pure_foldl; [|auto with pure].
    intros acc b Hacc. apply pure_bind; [done|]. intros l.
    destruct (columns_dict s2 !! b); auto with pure.
  - intros fo. apply pure_bind; [auto with pure|]. intros x'.
    repeat (apply pure_if; auto with pure).
Qed.

Ltac sim_sub H ::=
  first [ eapply predict_sim; exact H
        | eapply compute_contributions_sim; exact H
        | apply check_dataset_type_sim; [apply H|exact H]
        | apply check_dataset_features_sim; [apply H|exact H] ].

Lemma add_input_sim env x ypred contributions d p st sm m s1 s2 :
  is_None x = false →
  agree (mkAttrs d p st sm m) s1 s2 →
  sim (agree (mkAttrs true p true sm m))
      (add_input env x ypred contributions s1)
      (add_input env x ypred contributions s2).
Proof.
  intros Hx H. unfold add_input, check_ypred, apply_preprocessing.
  rewrite Hx. cbn [negb].
  repeat sim_step.
Qed.

Lemma filter_sim env st m s1 s2 :
  agree (mkAttrs true true st true m) s1 s2 →
  sim (agree (mkAttrs true true st true true)) (filter env s1) (filter env s2).
Proof.
  intros H. unfold filter, filter_masks. cbv zeta.
  repeat sim_step.
Qed.

Ltac sim_sub H ::= first [eapply filter_sim; exact H].

Lemma summarize_sim env st sm m s1 s2 :
  agree (mkAttrs true true st sm m) s1 s2 →
  sim (agree (mkAttrs true true st true true)) (summarize env s1) (summarize env s2).
Proof.
  intros H. unfold summarize.
  repeat sim_step.
Qed.

(** ** A new dataset resets the bundle (C4) *)

(** C4.  The outcome of [add_input] with a new [x] does not depend on what
    the predictor held before: started from any two predictors of the same
    configuration, whatever their bundles, it returns or raises alike, and
    when it returns both hold the same bundle, from which
    [compute_contributions] gives the same result.  So nothing stored for an
    earlier dataset survives: the bundle is the one a predictor that never
    saw a dataset builds from [x]. *)
Theorem new_input_resets_bundle env x ypred contributions s1 s2 :
  is_None x = false →
  same_configuration s1 s2 →
  let r1 := add_input env x ypred contributions s1 in
  let r2 := add_input env x ypred contributions s2 in
  r1.2 = r2.2 ∧
  (r1.2 = Ok tt →
   data r1.1 = data r2.1 ∧
   ∀ c, (compute_contributions env c r1.1).2 = (compute_contributions env c r2.1).2).
Proof.
  intros Hx Hc r1 r2.
  assert (agree (mkAttrs false false false false false) s1 s2) as H.
  { split; [exact Hc|]. by repeat split. }
  pose proof (add_input_sim env x ypred contributions _ _ _ _ _ _ _ Hx H) as Hsim.
  fold r1 r2 in Hsim. split; [by apply sim_result in Hsim|].
  intros Hok. destruct r1 as [t1 [[]|e1]], r2 as [t2 [[]|e2]]; cbn in *; try done.
  destruct Hsim as [_ Hag]. split; [by apply Hag|].
  intros c. exact (sim_result _ _ _ (compute_contributions_sim env c _ _ _ _ _ _ Hag)).
Qed.

Lemma new_input_resets_bundle_witness :
  bundle_entry toy.loaded "x" = Some (PFrame toy.X1) ∧
  (add_input toy.env (PFrame toy.X2) PNone PNone toy.loaded).2 = Ok tt ∧
  data (add_input toy.env (PFrame toy.X2) PNone PNone toy.loaded).1
  = data (add_input toy.env (PFrame toy.X2) PNone PNone toy.fresh).1.
Proof.
  split; [vm_compute; reflexivity|].
  assert (Hok : (add_input toy.env (PFrame toy.X2) PNone PNone toy.loaded).2 = Ok tt)
    by (vm_compute; reflexivity).
  split; [exact Hok|].
  refine (proj1 (proj2 (new_input_resets_bundle toy.env (PFrame toy.X2) PNone PNone
                          toy.loaded toy.fresh eq_refl _) Hok)).
  unfold same_configuration. repeat apply conj; vm_compute; reflexivity.
Defined.

(** ** Deriving the summary leaves the bundle alone (C8) *)

#[local] Instance same_bundle_refl : Reflexive same_bundle.
Proof. by intros s key _. Qed.

#[local] Instance same_bundle_trans : Transitive same_bundle.
Proof.
  intros s1 s2 s3 H12 H23 key Hk. by rewrite (H23 key Hk), (H12 key Hk).
Qed.

#[local] Hint Resolve readonly_filter_masks : readonly.

Lemma filter_same_bundle env : keeps same_bundle (filter env).
Proof. unfold filter. repeat keeps_step; by intros key _. Qed.

Lemma summarize_same_bundle env : keeps same_bundle (summarize env).
Proof.
  unfold summarize.
  repeat first [apply filter_same_bundle | keeps_step]; try (by intros key _).
  intros key Hk. unfold bundle_entry. cbn.
  match goal with H : data _ = Some _ |- _ => rewrite H end. cbn.
  by rewrite lookup_insert_ne.
Qed.

Lemma apply_update_data s u : data (apply_update s u) = data s.
Proof. unfold apply_update. by rewrite run_modify_mask. Qed.

Lemma run_call_same_bundle env s c : same_bundle s (run_call env s c).
Proof.
  destruct c as [| |u]; cbn.
  - apply summarize_same_bundle.
  - apply filter_same_bundle.
  - intros key _. unfold bundle_entry. by rewrite apply_update_data.
Qed.

Lemma run_calls_same_bundle env calls s : same_bundle s (foldl (run_call env) s calls).
Proof.
  revert s. induction calls as [|c calls IH]; intros s; cbn; [done|].
  etrans; [apply run_call_same_bundle|apply IH].
Qed.

(** C8.  Any sequence of [summarize], [filter] and [modify_mask] calls
    leaves the entries [x], [ypred], [contributions] and [x_preprocessed] of
    the bundle as they were.  What [summarize] returns is determined by the
    configuration, the bundle and the mask parameters: neither the
    attributes left by earlier summaries nor the collaborators that predict
    or compute contributions have a part in it. *)
Theorem summarize_leaves_bundle env :
  (∀ calls s key,
     key ∈ ["x"; "ypred"; "contributions"; "x_preprocessed"]%string →
     bundle_entry (foldl (run_call env) s calls) key = bundle_entry s key) ∧
  (∀ s1 s2,
     same_configuration s1 s2 → data s1 = data s2 → mask_params s1 = mask_params s2 →
     (summarize env s1).2 = (summarize env s2).2) ∧
  (∀ env' s,
     ext.rank_contributions env' = ext.rank_contributions env →
     ext.compute_masked_contributions env' = ext.compute_masked_contributions env →
     ext.summarize env' = ext.summarize env →
     ext.pd_concat_axis1 env' = ext.pd_concat_axis1 env →
     summarize env' s = summarize env s).
Proof.
  split; [|split].
  - intros calls s key Hkey. apply run_calls_same_bundle.
    intros ->. rewrite !elem_of_cons, elem_of_nil in Hkey.
    by destruct Hkey as [?|[?|[?|[?|[]]]]].
  - intros s1 s2 Hc Hd Hp.
    assert (agree (mkAttrs true true false false false) s1 s2) as H.
    { split; [exact Hc|]. by repeat split. }
    exact (sim_result _ _ _ (summarize_sim env _ _ _ s1 s2 H)).
  - intros env' s H1 H2 H3 H4. unfold summarize, filter.
    by rewrite H1, H2, H3, H4.
Qed.

Lemma summarize_leaves_bundle_witness :
  bundle_entry
    (foldl (run_call toy.env) toy.loaded
       [CallSummarize; CallModifyMask (mkUpdate PNone PNone (PBool true) (PInt 1));
        CallSummarize])
    "contributions"
  = bundle_entry toy.loaded "contributions" ∧
  (summarize toy.env toy.summarized_positive).2
  = (summarize toy.env toy.never_summarized).2 ∧
  summarize toy.env_without_explainer toy.loaded = summarize toy.env toy.loaded.
Proof.
  pose proof (summarize_leaves_bundle toy.env) as (Hframe & Hdep & Hcollab).
  split; [|split].
  - apply Hframe. rewrite !elem_of_cons. right. right. by left.
  - apply Hdep; [|vm_compute; reflexivity..].
    unfold same_configuration. repeat apply conj; vm_compute; reflexivity.
  - apply Hcollab; reflexivity.
Defined.


(** ** The dataset checks, further *)

Lemma foldl_bind_ext {A B} (f : A → B → M A) (l : list B) (c1 c2 : M A) s :
  (∀ s, c1 s = c2 s) →
  foldl (λ acc b, acc ≫= λ a, f a b) c1 l s = foldl (λ acc b, acc ≫= λ a, f a b) c2 l s.
Proof.
  revert c1 c2 s. induction l as [|b l IH]; intros c1 c2 s H; cbn; [apply H|].
  apply IH. intros s'. by rewrite !run_bind, H.
Qed.

Lemma foldl_bind_raise {A B} (f : A → B → M A) (l : list B) e s :
  foldl (λ acc b, acc ≫= λ a, f a b) (raise e) l s = (s, Raise e).
Proof.
  revert s. induction l as [|b l IH]; intros s; cbn; [done|].
  rewrite (foldl_bind_ext f l _ (raise e)); [apply IH|done].
Qed.

(** The loop over [range(min, max + 1)] computes [lookup_all]. *)
Lemma run_features_order (cd : gmap Z string) ks l0 s :
  foldl (λ acc order,
           acc ≫= λ l, match cd !! order with
                       | Some name => mret (l ++ [name])
                       | None => raise (KeyError (PInt order))
                       end)
        (mret l0) ks s
  = (s, match lookup_all cd ks with
        | Ok l => Ok (l0 ++ l)
        | Raise e => Raise e
        end).
Proof.
  revert l0 s. induction ks as [|k ks IH]; intros l0 s; cbn.
  - by rewrite app_nil_r.
  - destruct (cd !! k) as [name|] eqn:Hk.
    + rewrite (foldl_bind_ext _ ks _ (mret (l0 ++ [name]))).
      * rewrite IH. destruct (lookup_all cd ks); [|done].
        by rewrite <- app_assoc.
      * intros s'. by rewrite run_bind.
    + rewrite (foldl_bind_ext _ ks _ (raise (KeyError (PInt k)))).
      * apply (foldl_bind_raise
                 (λ l order, match cd !! order with
                             | Some name => mret (l ++ [name])
                             | None => raise (KeyError (PInt order))
                             end)).
      * intros s'. by rewrite run_bind.
Qed.

Lemma run_check_dataset_features xf s :
  check_dataset_features (PFrame xf) s
  = (s, check_features_result xf (columns_dict s) (features_types s)).
Proof.
  unfold check_dataset_features, check_features_result.
  rewrite run_get_self_bind. rewrite run_bind. cbn [call as_frame].
  destruct (negb (forallb _ (column_names xf))); [done|].
  cbn [generator_truthy negb].
  rewrite run_bind. unfold call at 1.
  destruct (py_min (dict_keys (columns_dict s))) as [lo|e]; [|done].
  rewrite run_bind. unfold call at 1.
  destruct (py_max (dict_keys (columns_dict s))) as [hi|e]; [|done].
  rewrite run_bind.
  rewrite (run_features_order (columns_dict s) (py_range lo (hi + 1)) [] s).
  destruct (lookup_all (columns_dict s) (py_range lo (hi + 1))) as [fo|e]; [|done].
  cbn [app]. rewrite run_bind. unfold call at 1.
  destruct (select_columns xf fo) as [x'|e]; [|done].
  by destruct (negb (forallb _ (column_names x'))).
Qed.

Lemma column_position_Some name cols i :
  column_position name cols = Some i → cols !! i = Some name.
Proof.
  revert i. induction cols as [|c cols IH]; intros i; cbn; [done|].
  destruct (String.eqb_spec c name) as [->|Hne].
  - by intros [= <-].
  - destruct (column_position name cols) as [j|]; cbn; [|done].
    intros [= <-]. by apply IH.
Qed.

Lemma column_position_None name cols :
  column_position name cols = None → name ∉ cols.
Proof.
  induction cols as [|c cols IH]; cbn; [intros _; apply not_elem_of_nil|].
  destruct (String.eqb_spec c name) as [->|Hne]; [done|].
  destruct (column_position name cols) as [j|]; cbn; [done|].
  intros _. rewrite elem_of_cons. intros [->|Hin]; [done|]. by apply IH.
Qed.

Lemma column_position_is_Some name cols :
  name ∈ cols → is_Some (column_position name cols).
Proof.
  intros Hin. destruct (column_position name cols) eqn:E; [by eexists|].
  by apply column_position_None in E.
Qed.

Lemma column_positions_Ok names cols ps :
  column_positions names cols = Ok ps →
  Forall2 (λ name i, column_position name cols = Some i) names ps.
Proof.
  revert ps. induction names as [|n names IH]; intros ps; cbn.
  - intros [= <-]. constructor.
  - destruct (column_position n cols) as [i|] eqn:Hi; [|done].
    destruct (column_positions names cols) as [l|]; [|done].
    intros [= <-]. constructor; [done|by apply IH].
Qed.

Lemma column_positions_Raise names cols e :
  column_positions names cols = Raise e →
  ∃ name, e = KeyError (PStr name) ∧ name ∈ names ∧ name ∉ cols.
Proof.
  induction names as [|n names IH]; cbn; [done|].
  destruct (column_position n cols) as [i|] eqn:Hi.
  - destruct (column_positions names cols) as [l|e']; [done|].
    intros [= <-]. destruct (IH eq_refl) as (name & -> & Hin & Hout).
    exists name. split; [done|]. split; [by right|done].
  - intros [= <-]. exists n. split; [done|]. split; [by left|].
    by apply column_position_None.
Qed.

Lemma column_positions_complete names cols :
  (∀ name, name ∈ names → name ∈ cols) → ∃ ps, column_positions names cols = Ok ps.
Proof.
  intros H. destruct (column_positions names cols) as [ps|e] eqn:E; [by eexists|].
  destruct (column_positions_Raise _ _ _ E) as (name & _ & Hin & Hout).
  by apply H in Hin.
Qed.

Lemma pick_names (cols : list (string * string)) names ps :
  Forall2 (λ name i, column_position name cols.*1 = Some i) names ps →
  (pick (""%string, ""%string) cols ps).*1 = names.
Proof.
  unfold pick. induction 1 as [|name i names ps Hi _ IH]; [done|].
  rewrite map_cons, fmap_cons, IH. f_equal.
  apply column_position_Some in Hi. rewrite list_lookup_fmap in Hi.
  by destruct (cols !! i) as [[c d]|]; cbn in *; simplify_eq.
Qed.

Lemma select_columns_Ok x names x' :
  select_columns x names = Ok x' →
  column_names x' = names ∧ index x' = index x ∧
  length (rows x') = length (rows x) ∧
  (∀ name, name ∈ names → name ∈ column_names x).
Proof.
  unfold select_columns.
  destruct (column_positions names (column_names x)) as [ps|] eqn:E; [|done].
  intros [= <-]. apply column_positions_Ok in E. cbn.
  split; [by apply pick_names|]. split; [done|]. split; [by rewrite length_map|].
  intros name Hin.
  apply list_elem_of_lookup in Hin as [j Hj].
  destruct (Forall2_lookup_l _ _ _ _ _ E Hj) as (i & _ & Hi).
  apply column_position_Some in Hi. by eapply list_elem_of_lookup_2.
Qed.

Lemma lookup_all_Ok cd ks l :
  lookup_all cd ks = Ok l → Forall2 (λ k name, cd !! k = Some name) ks l.
Proof.
  revert l. induction ks as [|k ks IH]; intros l; cbn.
  - intros [= <-]. constructor.
  - destruct (cd !! k) as [name|] eqn:Hk; [|done].
    destruct (lookup_all cd ks) as [l'|]; [|done].
    intros [= <-]. constructor; [done|by apply IH].
Qed.

Lemma lookup_all_Raise cd ks e :
  lookup_all cd ks = Raise e → ∃ k, e = KeyError (PInt k) ∧ k ∈ ks ∧ cd !! k = None.
Proof.
  induction ks as [|k ks IH]; cbn; [done|].
  destruct (cd !! k) as [name|] eqn:Hk.
  - destruct (lookup_all cd ks) as [l'|e']; [done|].
    intros [= <-]. destruct (IH eq_refl) as (k' & -> & Hin & Hnone).
    exists k'. split; [done|]. split; [by right|done].
  - intros [= <-]. exists k. split; [done|]. split; [by left|done].
Qed.

Lemma foldr_min_le z l :
  foldr Z.min z l ≤ z ∧ ∀ k, k ∈ l → foldr Z.min z l ≤ k.
Proof.
  induction l as [|y l [IHz IHl]]; cbn.
  - split; [lia|]. intros k Hk. by apply elem_of_nil in Hk.
  - split; [lia|]. intros k Hk. apply elem_of_cons in Hk as [Hk|Hk].
    + subst k. lia.
    + specialize (IHl k Hk). lia.
Qed.

Lemma foldr_max_ge z l :
  z ≤ foldr Z.max z l ∧ ∀ k, k ∈ l → k ≤ foldr Z.max z l.
Proof.
  induction l as [|y l [IHz IHl]]; cbn.
  - split; [lia|]. intros k Hk. by apply elem_of_nil in Hk.
  - split; [lia|]. intros k Hk. apply elem_of_cons in Hk as [Hk|Hk].
    + subst k. lia.
    + specialize (IHl k Hk). lia.
Qed.

Lemma py_min_le l lo k : py_min l = Ok lo → k ∈ l → lo ≤ k.
Proof.
  destruct l as [|z l]; cbn; [done|]. intros [= <-] Hk.
  destruct (foldr_min_le z l) as [Hz Hl].
  apply elem_of_cons in Hk as [Hk|Hk]; [by subst k|by apply Hl].
Qed.

Lemma py_max_ge l hi k : py_max l = Ok hi → k ∈ l → k ≤ hi.
Proof.
  destruct l as [|z l]; cbn; [done|]. intros [= <-] Hk.
  destruct (foldr_max_ge z l) as [Hz Hl].
  apply elem_of_cons in Hk as [Hk|Hk]; [by subst k|by apply Hl].
Qed.

Lemma elem_of_dict_keys (cd : gmap Z string) k : k ∈ dict_keys cd ↔ is_Some (cd !! k).
Proof.
  unfold dict_keys. rewrite list_elem_of_fmap. split.
  - intros ([k' v] & -> & Hin). apply elem_of_map_to_list in Hin. by eexists.
  - intros [v Hv]. exists (k, v). split; [done|]. by apply elem_of_map_to_list.
Qed.

Lemma elem_of_dict_values (cd : gmap Z string) name :
  name ∈ dict_values cd ↔ ∃ k, cd !! k = Some name.
Proof.
  unfold dict_values. rewrite list_elem_of_fmap. split.
  - intros ([k v] & -> & Hin). apply elem_of_map_to_list in Hin. by eexists.
  - intros [k Hk]. exists (k, name). split; [done|]. by apply elem_of_map_to_list.
Qed.

Lemma lookup_all_complete cd ks :
  (∀ k, k ∈ ks → is_Some (cd !! k)) → ∃ l, lookup_all cd ks = Ok l.
Proof.
  intros H. destruct (lookup_all cd ks) as [l|e] eqn:E; [by eexists|].
  destruct (lookup_all_Raise _ _ _ E) as (k & _ & Hin & Hnone).
  destruct (H k Hin) as [v Hv]. congruence.
Qed.

Lemma elem_of_py_range lo hi k : k ∈ py_range lo (hi + 1) ↔ lo ≤ k ≤ hi.
Proof. unfold py_range. rewrite elem_of_seqZ. lia. Qed.

Lemma forallb_bool_decide_elem (l cols : list string) :
  forallb (λ column, bool_decide (column ∈ l)) cols = true ↔ ∀ c, c ∈ cols → c ∈ l.
Proof.
  rewrite forallb_forall. split.
  - intros H c Hc. apply list_elem_of_In in Hc. apply H in Hc.
    by apply bool_decide_eq_true in Hc.
  - intros H c Hc. apply bool_decide_eq_true, H. by apply list_elem_of_In.
Qed.

(** What an accepted table looks like. *)
Lemma check_features_result_Ok xf cd ft x' :
  check_features_result xf cd ft = Ok x' →
  ∃ xf' lo hi,
    x' = PFrame xf' ∧
    py_min (dict_keys cd) = Ok lo ∧ py_max (dict_keys cd) = Ok hi ∧
    lookup_all cd (py_range lo (hi + 1)) = Ok (column_names xf') ∧
    select_columns xf (column_names xf') = Ok xf' ∧
    (∀ c, c ∈ column_names xf → c ∈ dict_values cd) ∧
    (∀ c, c ∈ column_names xf' → c ∈ dict_keys ft).
Proof.
  unfold check_features_result.
  destruct (forallb _ (column_names xf)) eqn:H1; cbn [negb]; [|done].
  destruct (py_min (dict_keys cd)) as [lo|]; [|done].
  destruct (py_max (dict_keys cd)) as [hi|]; [|done].
  destruct (lookup_all cd (py_range lo (hi + 1))) as [fo|] eqn:Hfo; [|done].
  destruct (select_columns xf fo) as [xf'|] eqn:Hsel; [|done].
  destruct (forallb _ (column_names xf')) eqn:H2; cbn [negb]; [|done].
  intros [= <-]. exists xf', lo, hi.
  destruct (select_columns_Ok _ _ _ Hsel) as (Hn & _).
  rewrite Hn. repeat split; try done.
  - by apply forallb_bool_decide_elem.
  - rewrite <- Hn. by apply forallb_bool_decide_elem.
Qed.



(** X2.  [check_dataset_features] accepts a dataset only if its columns are
    exactly the declared features: every column is a value of
    [columns_dict], every value of [columns_dict] is a column, and each has
    an entry in [features_types]. *)
Theorem accepted_dataset_has_declared_columns xf s x' :
  (check_dataset_features (PFrame xf) s).2 = Ok x' →
  (∀ name, name ∈ column_names xf ↔ ∃ k, columns_dict s !! k = Some name) ∧
  (∀ name, name ∈ column_names xf → is_Some (features_types s !! name)).
Proof.
  rewrite run_check_dataset_features. cbn [snd]. intros H.
  destruct (check_features_result_Ok _ _ _ _ H)
    as (xf' & lo & hi & -> & Hlo & Hhi & Hfo & Hsel & Hin & Hft).
  destruct (select_columns_Ok _ _ _ Hsel) as (_ & _ & _ & Hsub).
  apply lookup_all_Ok in Hfo.
  assert (∀ name, (∃ k, columns_dict s !! k = Some name) → name ∈ column_names xf')
    as Hall.
  { intros name [k Hk].
    assert (k ∈ py_range lo (hi + 1)) as Hr.
    { apply elem_of_py_range. split.
      - apply (py_min_le _ _ _ Hlo), elem_of_dict_keys. by eexists.
      - apply (py_max_ge _ _ _ Hhi), elem_of_dict_keys. by eexists. }
    apply list_elem_of_lookup in Hr as [j Hj].
    destruct (Forall2_lookup_l _ _ _ _ _ Hfo Hj) as (name' & Hj' & Hk').
    rewrite Hk in Hk'. injection Hk' as <-. by eapply list_elem_of_lookup_2. }
  split.
  - intros name. split.
    + intros Hn. by apply elem_of_dict_values, Hin.
    + intros Hk. by apply Hsub, Hall.
  - intros name Hn.
    apply Hin, elem_of_dict_values, Hall, Hft in Hn.
    unfold dict_keys in Hn. apply list_elem_of_fmap in Hn as ([n t] & -> & Hnt).
    apply elem_of_map_to_list in Hnt. by eexists.
Qed.

Lemma accepted_dataset_has_declared_columns_witness :
  (∀ name, name ∈ column_names toy.X2
           ↔ ∃ k, columns_dict toy.fresh !! k = Some name) ∧
  (∀ name, name ∈ column_names toy.X2
           → is_Some (features_types toy.fresh !! name)).
Proof.
  apply (accepted_dataset_has_declared_columns toy.X2 toy.fresh
           (PFrame (mkFrame [7] [("Age"%string, "int64"%string);
                                 ("Fare"%string, "float64"%string)]
                            [[CNum 12; CNum 9]]))).
  vm_compute. reflexivity.
Defined.

Lemma pick_pick {A} (d : A) (l : list A) cols names ps qs :
  Forall2 (λ name i, column_position name cols = Some i) names ps →
  Forall2 (λ name q, column_position name names = Some q) names qs →
  pick d (pick d l ps) qs = pick d l ps.
Proof.
  intros Hps Hqs. unfold pick. apply list_eq. intros j.
  rewrite !list_lookup_fmap.
  destruct (names !! j) as [name|] eqn:Hj.
  - destruct (Forall2_lookup_l _ _ _ _ _ Hps Hj) as (p & Hp & Hpos).
    destruct (Forall2_lookup_l _ _ _ _ _ Hqs Hj) as (q & Hq & Hposq).
    rewrite Hp, Hq. cbn. f_equal.
    apply column_position_Some in Hposq.
    destruct (Forall2_lookup_l _ _ _ _ _ Hps Hposq) as (p' & Hp' & Hpos').
    rewrite Hpos in Hpos'. injection Hpos' as <-.
    by rewrite list_lookup_fmap, Hp'.
  - apply Forall2_length in Hps as Hlp. apply Forall2_length in Hqs as Hlq.
    apply lookup_ge_None in Hj.
    rewrite (lookup_ge_None_2 ps), (lookup_ge_None_2 qs); [done|lia..].
Qed.

Lemma select_columns_idempotent x names x' :
  select_columns x names = Ok x' → select_columns x' names = Ok x'.
Proof.
  intros H. destruct (select_columns_Ok _ _ _ H) as (Hn & _).
  unfold select_columns in *.
  destruct (column_positions names (column_names x)) as [ps|] eqn:E; [|done].
  injection H as <-. rewrite Hn.
  destruct (column_positions_complete names names) as [qs Hqs]; [done|].
  rewrite Hqs. apply column_positions_Ok in E, Hqs. cbn. f_equal.
  f_equal.
  - by apply (pick_pick _ _ (column_names x) names).
  - rewrite <- list_fmap_compose. apply list_fmap_ext. intros _ r _. cbn.
    by apply (pick_pick _ _ (column_names x) names).
Qed.



(** X4.  A dataset with a column that [columns_dict] does not list fails the
    first assertion of [check_dataset_features]: the error is an
    [AssertionError], and no attribute is touched. *)
Theorem undeclared_column_fails_assertion xf s c :
  c ∈ column_names xf →
  (∀ k, columns_dict s !! k ≠ Some c) →
  check_dataset_features (PFrame xf) s = (s, Raise AssertionError).
Proof.
  intros Hc Hno. rewrite run_check_dataset_features. f_equal.
  unfold check_features_result.
  destruct (forallb _ (column_names xf)) eqn:H; [|done].
  rewrite forallb_bool_decide_elem in H. apply H in Hc.
  apply elem_of_dict_values in Hc as [k Hk]. by destruct (Hno k).
Qed.

Lemma undeclared_column_fails_assertion_witness :
  check_dataset_features (PFrame toy.X_extra) toy.fresh
  = (toy.fresh, Raise AssertionError).
Proof.
  apply (undeclared_column_fails_assertion toy.X_extra toy.fresh "Cabin"%string).
  - cbn. rewrite !elem_of_cons. right. right. by left.
  - intros k Hk. cbn in Hk. unfold toy.the_columns_dict in Hk.
    destruct (decide (k = 0)) as [->|H0];
      [by rewrite lookup_insert_eq in Hk|rewrite lookup_insert_ne in Hk by done].
    destruct (decide (k = 1)) as [->|H1];
      [by rewrite lookup_insert_eq in Hk|rewrite lookup_insert_ne in Hk by done].
    by rewrite lookup_empty in Hk.
Defined.

(** X5.  When every column is declared but the keys of [columns_dict] leave
    a gap between the least and the greatest, [check_dataset_features]
    raises [KeyError] on a key of the gap: the dataset is rejected whatever
    it holds. *)
Theorem gap_in_columns_dict_raises xf s lo hi k :
  (∀ c, c ∈ column_names xf → ∃ k', columns_dict s !! k' = Some c) →
  py_min (dict_keys (columns_dict s)) = Ok lo →
  py_max (dict_keys (columns_dict s)) = Ok hi →
  lo ≤ k ≤ hi →
  columns_dict s !! k = None →
  ∃ k', check_dataset_features (PFrame xf) s = (s, Raise (KeyError (PInt k'))) ∧
        lo ≤ k' ≤ hi ∧ columns_dict s !! k' = None.
Proof.
  intros Hdecl Hlo Hhi Hk Hnone. rewrite run_check_dataset_features.
  unfold check_features_result.
  assert (forallb (λ column, bool_decide (column ∈ dict_values (columns_dict s)))
                  (column_names xf) = true) as ->.
  { apply forallb_bool_decide_elem. intros c Hc.
    by apply elem_of_dict_values, Hdecl. }
  cbn [negb]. rewrite Hlo, Hhi.
  destruct (lookup_all (columns_dict s) (py_range lo (hi + 1))) as [fo|e] eqn:E.
  - apply lookup_all_Ok in E.
    apply elem_of_py_range, list_elem_of_lookup in Hk as [j Hj].
    destruct (Forall2_lookup_l _ _ _ _ _ E Hj) as (name & _ & Hname). congruence.
  - destruct (lookup_all_Raise _ _ _ E) as (k' & -> & Hin & Hk').
    exists k'. split; [done|]. split; [by apply elem_of_py_range|done].
Qed.

Lemma gap_in_columns_dict_raises_witness :
  ∃ k', check_dataset_features (PFrame toy.X1) toy.gapped
        = (toy.gapped, Raise (KeyError (PInt k'))) ∧
        0 ≤ k' ≤ 2 ∧ columns_dict toy.gapped !! k' = None.
Proof.
  apply (gap_in_columns_dict_raises toy.X1 toy.gapped 0 2 1).
  - intros c Hc. cbn in Hc.
    rewrite !elem_of_cons, elem_of_nil in Hc.
    destruct Hc as [->|[->|[]]]; [by exists 0|by exists 2].
  - vm_compute. reflexivity.
  - vm_compute. reflexivity.
  - lia.
  - vm_compute. reflexivity.
Defined.



(** ** Datasets given as a dict, or as neither a dict nor a table *)

Lemma convert_dict_dataset_outcome env d s :
  (∃ df, convert_dict_dataset env (PDict d) s = (s, Ok (PFrame df))) ∨
  convert_dict_dataset env (PDict d) s = (s, Raise (ValueError msg_dict_structure)).
Proof.
  pose proof (readonly_convert_dict_dataset env (PDict d) s) as Hs.
  unfold convert_dict_dataset, try_except in *.
  match goal with |- context [match ?b s with _ => _ end] => destruct (b s) as [s' [a|e]] eqn:E end.
  - cbn in Hs. subst s'. left.
    rewrite run_get_self_bind in E.
    destruct (negb (forallb _ d.*1)); [done|].
    apply bind_ok_inv in E as (? & x0 & _ & E).
    apply bind_ok_inv in E as (? & x' & _ & E).
    injection E as _ <-. by eexists.
  - right. cbn in Hs. by subst s'.
Qed.

(** X7.  For a dataset given as a dict, [check_dataset_type] either returns a
    table or raises the one [ValueError] about the structure of the dict:
    every failure of the conversion is re-raised as that error, also the
    [ValueError] the method itself raises for a key that [features_types]
    does not have, whose own message is therefore never seen.  [add_input]
    hands the error on and stores nothing. *)
Theorem dict_dataset_errors_are_uniform env d s :
  ((∃ df, check_dataset_type env (PDict d) s = (s, Ok (PFrame df))) ∨
   check_dataset_type env (PDict d) s = (s, Raise (ValueError msg_dict_structure))) ∧
  (∀ key,
     key ∈ d.*1 → features_types s !! key = None →
     check_dataset_type env (PDict d) s = (s, Raise (ValueError msg_dict_structure)) ∧
     ∀ ypred contributions,
       add_input env (PDict d) ypred contributions s
       = (s, Raise (ValueError msg_dict_structure))).
Proof.
  split; [apply convert_dict_dataset_outcome|].
  intros key Hkey Hnone.
  assert (check_dataset_type env (PDict d) s
          = (s, Raise (ValueError msg_dict_structure))) as H.
  { cbn. unfold convert_dict_dataset, try_except. rewrite run_get_self_bind.
    destruct (forallb _ d.*1) eqn:Hall; [|done].
    rewrite forallb_bool_decide_elem in Hall. apply Hall in Hkey.
    unfold dict_keys in Hkey. apply list_elem_of_fmap in Hkey as ([k v] & -> & Hkv).
    apply elem_of_map_to_list in Hkv. cbn in Hnone. congruence. }
  split; [exact H|]. intros ypred contributions.
  apply add_input_check_raises; [done|]. left. by rewrite H.
Qed.

Lemma dict_dataset_errors_are_uniform_witness :
  check_dataset_type toy.env (PDict [("Age"%string, CNum 30); ("Cabin"%string, CStr "C85")])
    toy.loaded
  = (toy.loaded, Raise (ValueError msg_dict_structure)) ∧
  add_input toy.env (PDict [("Age"%string, CNum 30); ("Cabin"%string, CStr "C85")])
    PNone PNone toy.loaded
  = (toy.loaded, Raise (ValueError msg_dict_structure)).
Proof.
  destruct (proj2 (dict_dataset_errors_are_uniform toy.env
                     [("Age"%string, CNum 30); ("Cabin"%string, CStr "C85")] toy.loaded)
                  "Cabin"%string) as [H1 H2].
  - cbn. rewrite !elem_of_cons. right. by left.
  - vm_compute. reflexivity.
  - split; [exact H1|apply H2].
Defined.

(** X8.  [add_input] with an [x] that is neither [None], a table nor a dict
    raises the [ValueError] that asks for a dict or a DataFrame, and leaves
    every attribute, the bundle of an earlier dataset included, as it
    was. *)
Theorem add_input_rejects_other_types env x ypred contributions s :
  is_None x = false →
  (∀ df, x ≠ PFrame df) →
  (∀ d, x ≠ PDict d) →
  add_input env x ypred contributions s = (s, Raise (ValueError msg_x_type)).
Proof.
  intros Hx Hf Hd. apply add_input_check_raises; [done|]. left.
  destruct x; try done; [by destruct (Hd d)|by destruct (Hf df)].
Qed.

Lemma add_input_rejects_other_types_witness :
  add_input toy.env (PArray [[1%Q; 2%Q]]) PNone PNone toy.loaded
  = (toy.loaded, Raise (ValueError msg_x_type)).
Proof.
  apply add_input_rejects_other_types; [reflexivity|discriminate..].
Defined.

(** ** The keys of the bundle *)

#[local] Instance bundle_kept_refl : Reflexive bundle_kept.
Proof. by intros s. Qed.

#[local] Instance bundle_kept_trans : Transitive bundle_kept.
Proof. intros s1 s2 s3 [H1 H2] [H3 H4]. split; auto. Qed.

Lemma bundle_kept_same_data s s' : data s' = data s → bundle_kept s s'.
Proof. intros H. unfold bundle_kept, bundle_keys_ok. by rewrite H. Qed.

Lemma bundle_kept_setitem s d (key : string) v :
  data s = Some d →
  key ∈ ["x"; "ypred"; "contributions"; "x_preprocessed"; "summary"]%string →
  bundle_kept s (with_data (<[key := v]> d) s).
Proof.
  intros Hd Hkey. split; [by eexists|].
  intros Hok d' [= <-]. destruct (Hok d Hd) as [Hfour Hfive]. split.
  - intros k Hk. destruct (decide (key = k)) as [->|Hne].
    + rewrite lookup_insert_eq. by eexists.
    + rewrite lookup_insert_ne by done. by apply Hfour.
  - intros k Hk. destruct (decide (key = k)) as [->|Hne]; [done|].
    rewrite lookup_insert_ne in Hk by done. by apply Hfive.
Qed.

Lemma bundle_keys_ok_clean_data x s : bundle_keys_ok (with_data (clean_data x) s).
Proof.
  intros d [= <-]. unfold clean_data. split.
  - intros k Hk. rewrite !elem_of_cons, elem_of_nil in Hk.
    destruct Hk as [->|[->|[->|[->|[]]]]]; by simplify_map_eq.
  - intros k [v Hk].
    repeat (apply lookup_insert_Some in Hk as [[<- _]|[_ Hk]];
            [rewrite !elem_of_cons; tauto|]).
    by rewrite lookup_empty in Hk.
Qed.

Ltac bundle_kept_leaf :=
  first
    [ by apply bundle_kept_same_data
    | eapply bundle_kept_setitem; [eassumption|rewrite !elem_of_cons; tauto]
    | split; [by eexists|intros _; apply bundle_keys_ok_clean_data] ].

Lemma predict_bundle_kept env : keeps bundle_kept (predict env).
Proof. unfold predict. repeat keeps_step; bundle_kept_leaf. Qed.

Lemma compute_contributions_bundle_kept env c :
  keeps bundle_kept (compute_contributions env c).
Proof.
  unfold compute_contributions, adapt_contributions, validate_contributions,
    apply_preprocessing_for_contributions, check_contributions, predict_proba.
  repeat first [apply predict_bundle_kept | keeps_step]; bundle_kept_leaf.
Qed.

Lemma add_input_bundle_kept env x ypred contributions :
  keeps bundle_kept (add_input env x ypred contributions).
Proof.
  unfold add_input, check_ypred, apply_preprocessing.
  repeat first [apply compute_contributions_bundle_kept | keeps_step];
    bundle_kept_leaf.
Qed.

Lemma filter_bundle_kept env : keeps bundle_kept (filter env).
Proof. unfold filter. repeat keeps_step; bundle_kept_leaf. Qed.

Lemma summarize_bundle_kept env : keeps bundle_kept (summarize env).
Proof.
  unfold summarize.
  repeat first [apply filter_bundle_kept | keeps_step]; bundle_kept_leaf.
Qed.

Lemma run_method_bundle_kept env s m : bundle_kept s (run_method env s m).
Proof.
  destruct m; cbn [run_method].
  - apply add_input_bundle_kept.
  - apply predict_bundle_kept.
  - apply bundle_kept_same_data.
    assert (readonly (predict_proba env)) as H
      by (unfold predict_proba; auto 6 with readonly).
    by rewrite H.
  - apply compute_contributions_bundle_kept.
  - assert (keeps bundle_kept (detail_contributions env contributions)) as H.
    { unfold detail_contributions.
      repeat first [apply compute_contributions_bundle_kept | keeps_step]. }
    apply H.
  - apply summarize_bundle_kept.
  - apply filter_bundle_kept.
  - apply bundle_kept_same_data. by rewrite run_modify_mask.
Qed.

Lemma run_methods_bundle_kept env calls s :
  bundle_kept s (foldl (run_method env) s calls).
Proof.
  revert s. induction calls as [|m calls IH]; intros s; cbn; [done|].
  etrans; [apply run_method_bundle_kept|apply IH].
Qed.

(** X9.  From the constructor on, whatever public methods are called, with
    whatever arguments, and whether they return or raise: the bundle has the
    keys [x], [ypred], [contributions] and [x_preprocessed] and no other key
    than these and [summary]; and once there is a bundle, no later call
    removes it. *)
Theorem bundle_keys_invariant env fd m cd e ft ld pp post mp s0 calls :
  init env fd m cd e ft ld pp post mp = Ok s0 →
  bundle_keys_ok (foldl (run_method env) s0 calls) ∧
  ∀ later, is_Some (data (foldl (run_method env) s0 calls)) →
           is_Some (data (foldl (run_method env) (foldl (run_method env) s0 calls) later)).
Proof.
  intros Hinit. apply init_no_data in Hinit. split.
  - apply (run_methods_bundle_kept env calls s0).
    intros d Hd. congruence.
  - intros later. apply (run_methods_bundle_kept env later).
Qed.

Lemma bundle_keys_invariant_witness :
  bundle_keys_ok
    (foldl (run_method toy.env) toy.fresh
       [Call_add_input (PFrame toy.X1) PNone PNone; Call_summarize;
        Call_add_input (PFrame toy.X_missing) PNone PNone; Call_predict]) ∧
  ∀ later,
    is_Some (data (foldl (run_method toy.env) toy.fresh
                     [Call_add_input (PFrame toy.X1) PNone PNone; Call_summarize;
                      Call_add_input (PFrame toy.X_missing) PNone PNone; Call_predict])) →
    is_Some (data (foldl (run_method toy.env)
                     (foldl (run_method toy.env) toy.fresh
                        [Call_add_input (PFrame toy.X1) PNone PNone; Call_summarize;
                         Call_add_input (PFrame toy.X_missing) PNone PNone;
                         Call_predict])
                     later)).
Proof.
  apply (bundle_keys_invariant toy.env toy.the_features_dict toy.the_model
           toy.the_columns_dict (PObj "explainer") toy.the_features_types
           PNone PNone PNone default_mask_params).
  reflexivity.
Defined.

(** ** Filters that cannot be used *)

Lemma bind_raise_or_raise {A B} (c : M A) (s : SmartPredictor) :
  readonly c → ∀ e0, ∃ e, (c ≫= λ _, @raise B e0) s = (s, Raise e).
Proof.
  intros Hc e0. rewrite run_bind. specialize (Hc s).
  destruct (c s) as [s' [a|e]]; cbn in Hc; subst s'; by eexists.
Qed.

Lemma filter_masks_hide_raises s v :
  mask_params s !! "features_to_hide" = Some v →
  is_None v = false →
  ∃ e, filter_masks s = (s, Raise e).
Proof.
  intros Hv Hnone. unfold filter_masks.
  rewrite run_bind. unfold self_summary at 1.
  destruct (summary s) as [sm|]; [|by eexists].
  rewrite run_bind, run_mask_params_getitem, Hv, Hnone. cbn [negb].
  rewrite run_bind.
  destruct (bind_raise_or_raise (B := list DataFrame) (data_getitem "var_dict") s
              (readonly_data_getitem _) (AttributeError "check_features_name"))
    as [e He].
  exists e. by rewrite He.
Qed.

Lemma summarize_never_returns env s :
  (∀ sm, ∃ e, (filter env (with_summary sm s)).2 = Raise e) →
  ∃ e, (summarize env s).2 = Raise e.
Proof.
  intros Hfilter. unfold summarize.
  rewrite run_bind. unfold hasattr_data at 1.
  destruct (data s) as [d|] eqn:Hd; cbn [negb]; [|by eexists].
  rewrite run_bind, (run_data_getitem _ _ _ Hd).
  destruct (d !! "contributions") as [c|]; [|by eexists].
  rewrite run_bind, (run_data_getitem _ _ _ Hd).
  destruct (d !! "x_preprocessed") as [xp|]; [|by eexists].
  rewrite run_bind. unfold call at 1.
  destruct (ext.rank_contributions env c xp) as [ranked|e]; [|by eexists].
  rewrite run_bind. unfold modify_self at 1.
  rewrite run_bind.
  destruct (Hfilter (contributions.assign_contributions ranked)) as [e He].
  destruct (filter env _) as [s' [[]|e']]; cbn in He; [done|].
  by eexists.
Qed.

(** X10.  The filter on feature names cannot be used: once
    [features_to_hide] is set, [filter] raises, leaving every attribute as
    it was, and [summarize] never returns, for every predictor and whatever
    the collaborators do. *)
Theorem features_to_hide_always_raises env s v :
  mask_params s !! "features_to_hide" = Some v →
  is_None v = false →
  (∃ e, filter env s = (s, Raise e)) ∧
  (∃ e, (summarize env s).2 = Raise e).
Proof.
  intros Hv Hnone.
  assert (∀ s', mask_params s' = mask_params s → ∃ e, filter env s' = (s', Raise e))
    as Hf.
  { intros s' Hmp. rewrite <- Hmp in Hv.
    destruct (filter_masks_hide_raises s' v Hv Hnone) as [e He].
    exists e. unfold filter. by erewrite run_bind_raise. }
  split; [by apply Hf|].
  apply summarize_never_returns. intros sm.
  destruct (Hf (with_summary sm s) eq_refl) as [e He]. exists e. by rewrite He.
Qed.

Lemma features_to_hide_always_raises_witness :
  (∃ e, filter toy.env (modify_mask (PList [PStr "Age"]) PNone PNone PNone toy.loaded).1
        = ((modify_mask (PList [PStr "Age"]) PNone PNone PNone toy.loaded).1, Raise e)) ∧
  (∃ e, (summarize toy.env
           (modify_mask (PList [PStr "Age"]) PNone PNone PNone toy.loaded).1).2
        = Raise e).
Proof.
  apply (features_to_hide_always_raises toy.env _ (PList [PStr "Age"]));
    reflexivity.
Defined.

(** X11.  The threshold filter cannot be used either: in every state that
    public method calls reach from the constructor, [summarize] and [filter]
    raise as soon as [threshold] is set, because the bundle never has the key
    [contrib_sorted] that [filter] reads. *)
Theorem threshold_never_usable env fd m cd e ft ld pp post mp s0 calls t :
  init env fd m cd e ft ld pp post mp = Ok s0 →
  let s := foldl (run_method env) s0 calls in
  mask_params s !! "threshold" = Some t →
  is_None t = false →
  (∃ e', (filter env s).2 = Raise e') ∧ (∃ e', (summarize env s).2 = Raise e').
Proof.
  intros Hinit s Ht Hnone.
  assert (bundle_keys_ok s) as Hkeys.
  { apply init_no_data in Hinit.
    apply (run_methods_bundle_kept env calls s0). intros d Hd. congruence. }
  assert (∀ s', mask_params s' = mask_params s → data s' = data s →
                ∃ e', (filter env s').2 = Raise e') as Hf.
  { intros s' Hmp Hd. rewrite <- Hmp in Ht.
    destruct (mask_params s' !! "features_to_hide") as [v|] eqn:Hv.
    - destruct (is_None v) eqn:Hvn.
      + destruct v; try discriminate Hvn.
        unfold filter. rewrite run_bind.
        destruct (summary s') as [sm|] eqn:Hsm.
        * destruct (data s') as [d|] eqn:Hd'.
          -- assert (d !! "contrib_sorted" = None) as Hk.
             { destruct (d !! "contrib_sorted") eqn:Hc; [|done].
               destruct (Hkeys d (eq_sym Hd)) as [_ Hfive].
               specialize (Hfive "contrib_sorted"%string (ex_intro _ _ Hc)).
               rewrite !elem_of_cons, elem_of_nil in Hfive.
               by destruct Hfive as [?|[?|[?|[?|[?|[]]]]]]. }
             rewrite (filter_masks_threshold_raises s' sm d t Hsm Hd' Hk Hv Ht Hnone).
             by eexists.
          -- unfold filter_masks. rewrite run_bind. unfold self_summary at 1.
             rewrite Hsm, run_bind, run_mask_params_getitem, Hv. cbn [is_None negb].
             rewrite run_bind. cbn [mret M_ret ret].
             rewrite run_bind, run_mask_params_getitem, Ht, Hnone. cbn [negb].
             rewrite run_bind, run_bind. unfold data_getitem. rewrite run_bind.
             unfold self_data. rewrite Hd'. by eexists.
        * unfold filter_masks. rewrite run_bind. unfold self_summary at 1.
          rewrite Hsm. by eexists.
      + destruct (filter_masks_hide_raises s' v Hv Hvn) as [e' He'].
        exists e'. unfold filter. by erewrite run_bind_raise.
    - unfold filter, filter_masks. rewrite run_bind, run_bind.
      unfold self_summary at 1. destruct (summary s'); [|by eexists].
      rewrite run_bind, run_mask_params_getitem, Hv. by eexists. }
  split; [by apply Hf|].
  apply summarize_never_returns. intros sm. by apply Hf.
Qed.

Lemma threshold_never_usable_witness :
  let s := foldl (run_method toy.env) toy.fresh
             [Call_add_input (PFrame toy.X1) PNone PNone;
              Call_modify_mask PNone (PInt 2) PNone PNone; Call_predict] in
  (∃ e', (filter toy.env s).2 = Raise e') ∧ (∃ e', (summarize toy.env s).2 = Raise e').
Proof.
  apply (threshold_never_usable toy.env toy.the_features_dict toy.the_model
           toy.the_columns_dict (PObj "explainer") toy.the_features_types
           PNone PNone PNone default_mask_params toy.fresh
           [Call_add_input (PFrame toy.X1) PNone PNone;
            Call_modify_mask PNone (PInt 2) PNone PNone; Call_predict] (PInt 2));
    vm_compute; reflexivity.
Defined.

(** ** What the methods store *)

#[local] Instance same_bundle_except_refl keys : Reflexive (same_bundle_except keys).
Proof. by intros s key _. Qed.

#[local] Instance same_bundle_except_trans keys : Transitive (same_bundle_except keys).
Proof.
  intros s1 s2 s3 H12 H23 key Hk. by rewrite (H23 key Hk), (H12 key Hk).
Qed.

Lemma same_bundle_except_same_data keys s s' :
  data s' = data s → same_bundle_except keys s s'.
Proof. intros H key _. unfold bundle_entry. by rewrite H. Qed.

Lemma same_bundle_except_setitem keys s d (key : string) v :
  data s = Some d → key ∈ keys →
  same_bundle_except keys s (with_data (<[key := v]> d) s).
Proof.
  intros Hd Hkey k Hk. unfold bundle_entry. cbn. rewrite Hd. cbn.
  apply lookup_insert_ne. by intros ->.
Qed.

Ltac same_bundle_leaf :=
  first
    [ by apply same_bundle_except_same_data
    | eapply same_bundle_except_setitem; [eassumption|rewrite !elem_of_cons; tauto] ].

Lemma predict_same_bundle_except env keys :
  "ypred"%string ∈ keys → keeps (same_bundle_except keys) (predict env).
Proof.
  intros Hk. unfold predict. repeat keeps_step; try same_bundle_leaf.
  by eapply same_bundle_except_setitem.
Qed.

Lemma compute_contributions_same_bundle_except env c keys :
  "ypred"%string ∈ keys → keeps (same_bundle_except keys) (compute_contributions env c).
Proof.
  intros Hk.
  unfold compute_contributions, adapt_contributions, validate_contributions,
    apply_preprocessing_for_contributions, check_contributions, predict_proba.
  repeat first [by apply predict_same_bundle_except | keeps_step]; same_bundle_leaf.
Qed.

Lemma predict_Ok env s s' v :
  predict env s = (s', Ok v) →
  ∃ d f xpf values,
    data s = Some d ∧ model_predict (model s) = Some f ∧
    d !! "x_preprocessed" = Some (PFrame xpf) ∧
    f (PFrame xpf) = Ok values ∧
    ext.pd_DataFrame env values ["ypred"%string] (index xpf) = Ok v ∧
    s' = with_data (<["ypred" := v]> d) s.
Proof.
  unfold predict. intros H.
  apply bind_ok_inv in H as (s1 & has & E1 & H).
  unfold hasattr_data in E1. injection E1 as <- <-.
  destruct (data s) as [d|] eqn:Hd; cbn [negb] in H; [|done].
  apply bind_ok_inv in H as (s2 & xp & E2 & H).
  rewrite (run_data_getitem _ _ _ Hd) in E2.
  destruct (d !! "x_preprocessed") as [xp'|] eqn:Hxp; [|done].
  injection E2 as <- <-.
  destruct (is_None xp') eqn:Hnone; [done|].
  rewrite run_get_self_bind in H.
  destruct (model_predict (model s)) as [f|] eqn:Hf; [|done].
  apply bind_ok_inv in H as (s3 & xp2 & E3 & H).
  rewrite (run_data_getitem _ _ _ Hd), Hxp in E3. injection E3 as <- <-.
  apply bind_ok_inv in H as (s4 & values & E4 & H).
  unfold call in E4. injection E4 as <- E4.
  apply bind_ok_inv in H as (s5 & xp3 & E5 & H).
  rewrite (run_data_getitem _ _ _ Hd), Hxp in E5. injection E5 as <- <-.
  apply bind_ok_inv in H as (s6 & xpf & E6 & H).
  unfold call in E6. injection E6 as <- E6.
  destruct xp'; try discriminate E6. cbn in E6. injection E6 as ->.
  apply bind_ok_inv in H as (s7 & ypred & E7 & H).
  unfold call in E7. injection E7 as <- E7.
  apply bind_ok_inv in H as (s8 & [] & E8 & H).
  rewrite (run_data_setitem _ _ _ _ Hd) in E8. injection E8 as <-.
  rewrite (run_data_getitem _ _ (<["ypred":=ypred]> d)) in H by reflexivity.
  rewrite lookup_insert_eq in H. injection H as <- <-.
  by exists d, f, xpf, values.
Qed.

(** X12.  When [predict] returns, what it returns is what it has stored
    under [ypred]: the table built from the model's prediction on
    [x_preprocessed], labelled by the index of [x_preprocessed]; the other
    entries of the bundle are as before. *)
Theorem predict_returns_what_it_stores env s s' v :
  predict env s = (s', Ok v) →
  bundle_entry s' "ypred" = Some v ∧
  same_bundle_except ["ypred"%string] s s' ∧
  ∃ f xpf values,
    model_predict (model s) = Some f ∧
    bundle_entry s "x_preprocessed" = Some (PFrame xpf) ∧
    f (PFrame xpf) = Ok values ∧
    ext.pd_DataFrame env values ["ypred"%string] (index xpf) = Ok v.
Proof.
  intros H.
  destruct (predict_Ok _ _ _ _ H) as (d & f & xpf & values & Hd & Hf & Hxp & Hv & Hy & ->).
  split; [|split].
  - unfold bundle_entry. cbn. apply lookup_insert_eq.
  - eapply same_bundle_except_setitem; [done|by left].
  - exists f, xpf, values. unfold bundle_entry. rewrite Hd. by cbn.
Qed.

Lemma predict_returns_what_it_stores_witness :
  bundle_entry (predict toy.env toy.loaded).1 "ypred"
  = Some (PFrame (mkFrame [0; 1] [("ypred"%string, "float64"%string)]
                          [[CNum 0]; [CNum 0]])).
Proof.
  refine (proj1 (predict_returns_what_it_stores toy.env toy.loaded
                   (predict toy.env toy.loaded).1 _ _)).
  vm_compute. reflexivity.
Defined.

(** X13.  After an [add_input] that failed in preprocessing, the bundle has
    a dataset but no preprocessed data: [predict] then raises the
    [ValueError] about [x] and so does [compute_contributions], whatever
    contributions it is given, and neither changes any attribute. *)
Theorem no_prediction_after_failed_preprocessing env s x ypred contributions x1 x2 e :
  (check_dataset_type env x s).2 = Ok x1 →
  (check_dataset_features x1 s).2 = Ok x2 →
  ext.apply_preprocessing env x2 (model s) (preprocessing s) = Raise e →
  let s' := (add_input env x ypred contributions s).1 in
  predict env s' = (s', Raise (ValueError msg_x_for_predict)) ∧
  ∀ c, compute_contributions env c s' = (s', Raise (ValueError msg_x_for_predict)).
Proof.
  intros H1 H2 Hpre s'. subst s'.
  rewrite (add_input_preprocessing_raises _ _ _ _ _ _ _ _ H1 H2 Hpre). cbn [fst].
  set (s' := with_data (clean_data x2) s).
  assert (data s' = Some (clean_data x2)) as Hd by reflexivity.
  assert (predict env s' = (s', Raise (ValueError msg_x_for_predict))) as Hp.
  { unfold predict. rewrite run_bind. unfold hasattr_data at 1. rewrite Hd.
    cbn [negb]. rewrite run_bind, (run_data_getitem _ _ _ Hd).
    unfold clean_data. by simplify_map_eq. }
  split; [exact Hp|]. intros c.
  assert (is_None x2 = false) as Hx2.
  { destruct x1 as [| | | | | | |xf| |]; try (cbn in H2; discriminate H2).
    rewrite run_check_dataset_features in H2. cbn in H2.
    destruct (check_features_result_Ok _ _ _ _ H2) as (xf' & _ & _ & -> & _). done. }
  unfold compute_contributions. rewrite run_bind. unfold hasattr_data at 1.
  rewrite Hd. cbn [negb]. rewrite run_bind, (run_data_getitem _ _ _ Hd).
  rewrite clean_data_x, Hx2.
  rewrite run_bind, (run_data_getitem _ _ _ Hd).
  assert (clean_data x2 !! "ypred" = Some PNone) as -> by (unfold clean_data; by simplify_map_eq).
  cbn [is_None]. erewrite run_bind_raise; [reflexivity|].
  erewrite run_bind_raise; [reflexivity|exact Hp].
Qed.

Lemma no_prediction_after_failed_preprocessing_witness :
  let s' := (add_input toy.env (PFrame toy.X_missing) PNone PNone toy.loaded).1 in
  predict toy.env s' = (s', Raise (ValueError msg_x_for_predict)) ∧
  ∀ c, compute_contributions toy.env c s' = (s', Raise (ValueError msg_x_for_predict)).
Proof.
  apply (no_prediction_after_failed_preprocessing toy.env toy.loaded
           (PFrame toy.X_missing) PNone PNone (PFrame toy.X_missing)
           (PFrame toy.X_missing) (ExternalError "cannot encode a missing value"));
    vm_compute; reflexivity.
Defined.

Lemma compute_contributions_keeps_data env c s d yp :
  data s = Some d → d !! "ypred" = Some yp → is_None yp = false →
  data (compute_contributions env c s).1 = data s.
Proof.
  intros Hd Hyp Hnone.
  unfold compute_contributions.
  rewrite run_bind. unfold hasattr_data at 1. rewrite Hd. cbn [negb].
  rewrite run_bind, (run_data_getitem _ _ _ Hd).
  destruct (d !! "x") as [x|]; [|done].
  destruct (is_None x); [done|].
  rewrite run_bind, (run_data_getitem _ _ _ Hd), Hyp, Hnone.
  rewrite run_bind. cbn [mret M_ret ret].
  assert (Reflexive (λ s s' : SmartPredictor, data s' = data s)) by (by intros ?).
  assert (Transitive (λ s s' : SmartPredictor, data s' = data s))
    by (intros ? ? ? H1 H2; by rewrite H2).
  match goal with
  | |- data (fst (?k s)) = _ =>
      assert (keeps (λ s s' : SmartPredictor, data s' = data s) k) as Hk
  end; [|by rewrite (Hk s)].
  unfold adapt_contributions, validate_contributions,
    apply_preprocessing_for_contributions, check_contributions, predict_proba.
  repeat keeps_step; done.
Qed.

(** X14.  [compute_contributions] and [detail_contributions] compute but do
    not store: whether they return or raise, every entry of the bundle other
    than [ypred] is as before, the stored contributions included; and when a
    prediction is stored, the bundle is left exactly as it was. *)
Theorem compute_contributions_stores_no_contributions env c s :
  same_bundle_except ["ypred"%string] s (compute_contributions env c s).1 ∧
  same_bundle_except ["ypred"%string] s (detail_contributions env c s).1 ∧
  (∀ d yp,
     data s = Some d → d !! "ypred" = Some yp → is_None yp = false →
     data (compute_contributions env c s).1 = data s ∧
     data (detail_contributions env c s).1 = data s).
Proof.
  assert (∀ s, (detail_contributions env c s).1 = (compute_contributions env c s).1)
    as Hdc.
  { intros s0. unfold detail_contributions. rewrite run_bind.
    by destruct (compute_contributions env c s0) as [s1 [r|e]]. }
  split; [|split].
  - apply compute_contributions_same_bundle_except. by left.
  - rewrite Hdc. apply compute_contributions_same_bundle_except. by left.
  - intros d yp Hd Hyp Hnone. rewrite Hdc.
    split; by eapply compute_contributions_keeps_data.
Qed.

Lemma compute_contributions_stores_no_contributions_witness :
  data (compute_contributions toy.env (PFrame toy.X2) toy.loaded).1 = data toy.loaded ∧
  data (detail_contributions toy.env (PFrame toy.X2) toy.loaded).1 = data toy.loaded.
Proof.
  refine (proj2 (proj2 (compute_contributions_stores_no_contributions toy.env
                          (PFrame toy.X2) toy.loaded))
            (default ∅ (data toy.loaded))
            (PFrame (mkFrame [0; 1] [("ypred"%string, "float64"%string)]
                             [[CNum 0]; [CNum 0]])) _ _ eq_refl);
    vm_compute; reflexivity.
Defined.

Lemma add_input_tail_same_bundle env ypred contributions :
  keeps (same_bundle_except ["ypred"; "contributions"]%string)
        ((if negb (is_None ypred)
          then y ← check_ypred env ypred; data_setitem "ypred" y
          else mret tt) ≫= λ _,
         (if negb (is_None contributions)
          then compute_contributions env contributions
          else compute_contributions env PNone) ≫= λ r,
         data_setitem "ypred" r.1 ≫= λ _, data_setitem "contributions" r.2).
Proof.
  unfold check_ypred.
  repeat first
    [ apply compute_contributions_same_bundle_except; by left
    | keeps_step ]; same_bundle_leaf.
Qed.

(** X15.  [add_input] called without [x]: on a predictor that has no bundle
    it raises the [ValueError] that no dataset was specified and changes
    nothing; on a predictor that has one, whether it returns or raises, the
    entries [x], [x_preprocessed] and [summary] of the bundle are as
    before. *)
Theorem add_input_without_x env ypred contributions s :
  (data s = None →
   add_input env PNone ypred contributions s = (s, Raise (ValueError msg_no_dataset))) ∧
  same_bundle_except ["ypred"; "contributions"]%string s
    (add_input env PNone ypred contributions s).1.
Proof.
  split.
  - intros Hd. unfold add_input. cbn [is_None negb].
    erewrite run_bind_raise; [reflexivity|].
    rewrite run_bind. unfold hasattr_data. by rewrite Hd.
  - unfold add_input. cbn [is_None negb].
    rewrite run_bind.
    destruct ((hasattr_data ≫= _) s) as [s1 [[]|e]] eqn:E.
    + assert (s1 = s) as ->.
      { rewrite run_bind in E. unfold hasattr_data in E.
        destruct (data s); cbn in E; by inversion E. }
      apply add_input_tail_same_bundle.
    + rewrite run_bind in E. unfold hasattr_data in E.
      destruct (data s); cbn in E; by inversion E.
Qed.

Lemma add_input_without_x_witness :
  add_input toy.env PNone (PFrame toy.X1) PNone toy.fresh
  = (toy.fresh, Raise (ValueError msg_no_dataset)).
Proof.
  apply (proj1 (add_input_without_x toy.env (PFrame toy.X1) PNone toy.fresh)).
  reflexivity.
Defined.

Lemma data_setitem_Ok key v s s' u :
  data_setitem key v s = (s', Ok u) →
  ∃ d, data s = Some d ∧ s' = with_data (<[key := v]> d) s.
Proof.
  unfold data_setitem. rewrite run_bind. unfold self_data.
  destruct (data s) as [d|]; [|done]. intros [= <-]. by exists d.
Qed.

Lemma readonly_Ok {A} (c : M A) s s' a : readonly c → c s = (s', Ok a) → s' = s.
Proof. intros Hc E. specialize (Hc s). by rewrite E in Hc. Qed.

(** X16.  When [add_input] with a new [x] returns, the bundle holds the
    checked dataset under [x], what the preprocessing collaborator returned
    for it under [x_preprocessed], a prediction and contributions, and no
    [summary]: the summary table of an earlier dataset is gone. *)
Theorem add_input_success_bundle env x ypred contributions s s' :
  is_None x = false →
  add_input env x ypred contributions s = (s', Ok tt) →
  ∃ x1 x2 xp,
    (check_dataset_type env x s).2 = Ok x1 ∧
    (check_dataset_features x1 s).2 = Ok x2 ∧
    ext.apply_preprocessing env x2 (model s) (preprocessing s) = Ok xp ∧
    bundle_entry s' "x" = Some x2 ∧
    bundle_entry s' "x_preprocessed" = Some xp ∧
    is_Some (bundle_entry s' "ypred") ∧
    is_Some (bundle_entry s' "contributions") ∧
    bundle_entry s' "summary" = None.
Proof.
  intros Hx H. unfold add_input in H. rewrite Hx in H. cbn [negb] in H.
  apply bind_ok_inv in H as (s1 & [] & Ehead & Htail).
  apply bind_ok_inv in Ehead as (sa & x1 & E1 & Ehead).
  apply (readonly_Ok _ _ _ _ (readonly_check_dataset_type env x)) in E1 as Hsa.
  subst sa.
  apply bind_ok_inv in Ehead as (sb & x2 & E2 & Ehead).
  apply (readonly_Ok _ _ _ _ (readonly_check_dataset_features x1)) in E2 as Hsb.
  subst sb.
  apply bind_ok_inv in Ehead as (sc & [] & E3 & Ehead).
  injection E3 as <-.
  unfold try_except in Ehead.
  destruct ((apply_preprocessing env ≫= _) (with_data (clean_data x2) s))
    as [sd [[]|e]] eqn:E4; [|done].
  injection Ehead as ->.
  apply bind_ok_inv in E4 as (se & xp & E4 & E5).
  rewrite (run_apply_preprocessing env _ (clean_data x2) x2) in E4;
    [|reflexivity|apply clean_data_x].
  cbn [model preprocessing with_data] in E4. injection E4 as <- E4.
  rewrite (run_data_setitem _ _ _ (clean_data x2)) in E5 by reflexivity.
  injection E5 as <-.
  exists x1, x2, xp.
  split; [by rewrite E1|]. split; [by rewrite E2|]. split; [exact E4|].
  pose proof (keeps_run _ _ _ _ _ (add_input_tail_same_bundle env ypred contributions)
                Htail) as Hsame.
  assert (∀ key : string, key ∉ ["ypred"; "contributions"]%string →
            bundle_entry s' key
            = (<["x_preprocessed" := xp]> (clean_data x2) : gmap string pyobj) !! key)
    as Hentries.
  { intros key Hkey. by rewrite (Hsame key Hkey). }
  split; [|split; [|split; [|split]]].
  - rewrite Hentries; [unfold clean_data; by simplify_map_eq|].
    rewrite !elem_of_cons, elem_of_nil. by intros [?|[?|[]]].
  - rewrite Hentries; [by simplify_map_eq|].
    rewrite !elem_of_cons, elem_of_nil. by intros [?|[?|[]]].
  - apply bind_ok_inv in Htail as (s2 & [] & _ & Htail).
    apply bind_ok_inv in Htail as (s3 & r & _ & Htail).
    apply bind_ok_inv in Htail as (s4 & [] & E6 & Htail).
    apply data_setitem_Ok in E6 as (d3 & Hd3 & ->).
    apply data_setitem_Ok in Htail as (d4 & Hd4 & ->).
    cbn in Hd4. injection Hd4 as <-.
    unfold bundle_entry. cbn. exists r.1. by simplify_map_eq.
  - apply bind_ok_inv in Htail as (s2 & [] & _ & Htail).
    apply bind_ok_inv in Htail as (s3 & r & _ & Htail).
    apply bind_ok_inv in Htail as (s4 & [] & E6 & Htail).
    apply data_setitem_Ok in Htail as (d4 & Hd4 & ->).
    unfold bundle_entry. cbn. exists r.2. by simplify_map_eq.
  - rewrite Hentries; [unfold clean_data; by simplify_map_eq|].
    rewrite !elem_of_cons, elem_of_nil. by intros [?|[?|[]]].
Qed.

Lemma add_input_success_bundle_witness :
  is_Some (bundle_entry (summarize toy.env toy.loaded).1 "summary") ∧
  ∃ x1 x2 xp,
    (check_dataset_type toy.env (PFrame toy.X2) (summarize toy.env toy.loaded).1).2
    = Ok x1 ∧
    (check_dataset_features x1 (summarize toy.env toy.loaded).1).2 = Ok x2 ∧
    ext.apply_preprocessing toy.env x2 (model (summarize toy.env toy.loaded).1)
      (preprocessing (summarize toy.env toy.loaded).1) = Ok xp ∧
    bundle_entry
      (add_input toy.env (PFrame toy.X2) PNone PNone (summarize toy.env toy.loaded).1).1
      "x" = Some x2 ∧
    bundle_entry
      (add_input toy.env (PFrame toy.X2) PNone PNone (summarize toy.env toy.loaded).1).1
      "x_preprocessed" = Some xp ∧
    is_Some (bundle_entry
      (add_input toy.env (PFrame toy.X2) PNone PNone (summarize toy.env toy.loaded).1).1
      "ypred") ∧
    is_Some (bundle_entry
      (add_input toy.env (PFrame toy.X2) PNone PNone (summarize toy.env toy.loaded).1).1
      "contributions") ∧
    bundle_entry
      (add_input toy.env (PFrame toy.X2) PNone PNone (summarize toy.env toy.loaded).1).1
      "summary" = None.
Proof.
  split; [vm_compute; by eexists|].
  apply (add_input_success_bundle toy.env (PFrame toy.X2) PNone PNone);
    [reflexivity|vm_compute; reflexivity].
Defined.

(** ** Successive calls of [modify_mask] *)

Lemma with_mask_params_twice mp1 mp2 s :
  with_mask_params mp2 (with_mask_params mp1 s) = with_mask_params mp2 s.
Proof. reflexivity. Qed.

Lemma apply_update_eq s u :
  apply_update s u
  = with_mask_params
      (set_unless_None "max_contrib" (upd_max_contrib u)
         (set_unless_None "positive" (upd_positive u)
            (set_unless_None "threshold" (upd_threshold u)
               (set_unless_None "features_to_hide" (upd_features_to_hide u)
                  (mask_params s))))) s.
Proof. unfold apply_update. by rewrite run_modify_mask. Qed.

Lemma is_None_later_unless_None a b :
  is_None (later_unless_None a b) = is_None a && is_None b.
Proof.
  unfold later_unless_None. destruct (is_None b) eqn:Hb.
  - by rewrite andb_true_r.
  - by rewrite Hb, andb_false_r.
Qed.

(** X17.  Two calls of [modify_mask] in a row leave the predictor as the one
    call does whose arguments are, parameter by parameter, the later
    argument unless it is [None] and the earlier one otherwise.  So a call
    without arguments changes nothing, and repeating a call changes nothing
    more. *)
Theorem modify_mask_calls_merge s u1 u2 :
  apply_update (apply_update s u1) u2 = apply_update s (merge_update u1 u2) ∧
  modify_mask PNone PNone PNone PNone s = (s, Ok tt) ∧
  apply_update (apply_update s u1) u1 = apply_update s u1.
Proof.
  assert (∀ s u1 u2,
            apply_update (apply_update s u1) u2 = apply_update s (merge_update u1 u2))
    as Hmerge.
  { clear. intros s [f1 t1 p1 m1] [f2 t2 p2 m2].
    rewrite !apply_update_eq. cbn [mask_params with_mask_params merge_update
      upd_features_to_hide upd_threshold upd_positive upd_max_contrib].
    rewrite with_mask_params_twice. f_equal. apply map_eq. intros key.
    rewrite !set_unless_None_lookup, !is_None_later_unless_None.
    unfold later_unless_None.
    repeat case_bool_decide; subst; try done; cbn;
      destruct (is_None f1), (is_None f2), (is_None t1), (is_None t2),
               (is_None p1), (is_None p2), (is_None m1), (is_None m2); done. }
  split; [apply Hmerge|]. split.
  - rewrite run_modify_mask. unfold set_unless_None. cbn [is_None].
    by rewrite with_mask_params_id.
  - rewrite Hmerge. f_equal. destruct u1 as [f t p m]. unfold merge_update. cbn.
    unfold later_unless_None.
    by destruct (is_None f), (is_None t), (is_None p), (is_None m).
Qed.

(** ** The default of [mask_params] is shared *)

Lemma construct_address env store fd m cd e ft ld pp post arg p :
  construct env store fd m cd e ft ld pp post arg = Ok p →
  mask_params_at p = default default_address arg ∧
  is_Some (store !! mask_params_at p).
Proof.
  unfold construct.
  destruct (store !! default default_address arg) as [dict|] eqn:Hd; [|done].
  destruct (init env fd m cd e ft ld pp post dict) as [s|]; [|done].
  intros [= <-]. cbn. split; [done|by eexists].
Qed.

Lemma mask_params_load store p :
  mask_params (load store p) = default ∅ (store !! mask_params_at p).
Proof. reflexivity. Qed.

(** X18.  The dict that is the default of [mask_params] is one object for
    all predictors constructed without that argument: what [modify_mask]
    sets on one of them, every other one has from then on.  Predictors
    constructed with dicts of their own do not affect each other. *)
Theorem default_mask_params_is_shared env store
    fd1 m1 cd1 e1 ft1 ld1 pp1 post1 fd2 m2 cd2 e2 ft2 ld2 pp2 post2
    arg1 arg2 p1 p2 fth th pos mc :
  construct env store fd1 m1 cd1 e1 ft1 ld1 pp1 post1 arg1 = Ok p1 →
  construct env store fd2 m2 cd2 e2 ft2 ld2 pp2 post2 arg2 = Ok p2 →
  let store' := modify_mask_at store p1 fth th pos mc in
  (arg1 = None → arg2 = None →
   is_None th = false →
   mask_params (load store' p2) !! "threshold" = Some th) ∧
  (default default_address arg1 ≠ default default_address arg2 →
   mask_params (load store' p2) = mask_params (load store p2)).
Proof.
  intros H1 H2 store'.
  apply construct_address in H1 as [Ha1 Hs1], H2 as [Ha2 Hs2].
  subst store'. unfold modify_mask_at. rewrite !mask_params_load. split.
  - intros -> -> Hth. rewrite Ha2, <- Ha1, lookup_insert_eq. cbn [default].
    rewrite run_modify_mask. cbn [fst mask_params with_mask_params]. unfold id.
    rewrite !set_unless_None_lookup, Hth. by cbn.
  - intros Hne. rewrite lookup_insert_ne; [done|]. by rewrite Ha1, Ha2.
Qed.

Lemma default_mask_params_is_shared_witness :
  construct toy.env initial_store toy.the_features_dict toy.the_model
    toy.the_columns_dict (PObj "explainer") toy.the_features_types
    PNone PNone PNone None = Ok (mkInstance toy.fresh default_address) ∧
  ∃ p2,
    construct toy.env initial_store ∅ toy.the_model
      toy.the_columns_dict (PObj "another explainer") toy.the_features_types
      PNone PNone PNone None = Ok p2 ∧
    mask_params (load initial_store p2) !! "threshold" = Some PNone ∧
    mask_params
      (load (modify_mask_at initial_store (mkInstance toy.fresh default_address)
               PNone (PFloat (1 # 2)) PNone PNone) p2)
      !! "threshold" = Some (PFloat (1 # 2)).
Proof.
  assert (H1 : construct toy.env initial_store toy.the_features_dict toy.the_model
                 toy.the_columns_dict (PObj "explainer") toy.the_features_types
                 PNone PNone PNone None = Ok (mkInstance toy.fresh default_address))
    by reflexivity.
  split; [exact H1|].
  destruct (construct toy.env initial_store ∅ toy.the_model
              toy.the_columns_dict (PObj "another explainer") toy.the_features_types
              PNone PNone PNone None) as [p2|e] eqn:H2; [|discriminate H2].
  exists p2. split; [reflexivity|].
  pose proof (default_mask_params_is_shared toy.env initial_store
                _ _ _ _ _ _ _ _ _ _ _ _ _ _ _ _ None None _ _
                PNone (PFloat (1 # 2)) PNone PNone H1 H2) as [Hshared _].
  split; [|exact (Hshared eq_refl eq_refl eq_refl)].
  injection H2 as <-. reflexivity.
Defined.

(** ** Report generation *)

Lemma run_io_bind {A B} (c : report.IO A) (k : A → report.IO B) log :
  (c ≫= k) log = match c log with
                 | (log', Ok a) => k a log'
                 | (log', Raise e) => (log', Raise e)
                 end.
Proof. reflexivity. Qed.

(** Every run of [execute_report] logs a prefix of the actions of the
    faultless run, and all of them exactly when it returns. *)
Lemma execute_report_log w wd explainer mf xt yt cfg nb log res :
  report.execute_report w wd explainer mf xt yt cfg nb [] = (log, res) →
  log `prefix_of` report.report_actions w wd explainer mf xt yt cfg nb ∧
  (res = Ok tt → log = report.report_actions w wd explainer mf xt yt cfg nb).
Proof.
  unfold report.execute_report, report.report_actions, report.chosen_notebook,
    report.chosen_config.
  cbv zeta. rewrite !run_io_bind. unfold report.perform. cbn [app].
  destruct (is_None xt), (is_None yt); cbn [negb app mret report.IO_ret report.io_ret];
    repeat match goal with
           | |- context [report.attempt w ?a] =>
               destruct (report.attempt w a) as [[]|?]; cbn [app fst snd]
           end;
    intros [= <- <-]; (split; [eexists; reflexivity|done]).
Qed.

Lemma written_report_actions w wd explainer mf xt yt cfg nb path :
  path ∈ concat (map report.written (report.report_actions w wd explainer mf xt yt cfg nb)) →
  ∃ name : string,
    name ∈ ["smart_explainer.pickle"; "x_train.csv"; "y_test.csv";
            "base_report.ipynb"]%string ∧
    path = report.os_path_join w wd [name].
Proof.
  unfold report.report_actions.
  destruct (is_None xt), (is_None yt); cbn;
    rewrite ?elem_of_cons, elem_of_nil;
    intros H; repeat destruct H as [H|H]; try done; subst path;
    eexists; (split; [|reflexivity]); rewrite !elem_of_cons; tauto.
Qed.

(** X19.  [execute_report] acts in a fixed order: it pickles the explainer,
    writes [x_train] and [y_test] when they are given, then runs the
    notebook; it stops at the first action that fails.  Every file it
    writes is the working directory joined with one of four fixed names, and
    when it returns it has run the notebook it was given, or the base report
    of the project when it was given [None] or the empty string, with an
    empty configuration in place of [None]. *)
Theorem execute_report_actions w wd explainer mf xt yt cfg nb log res :
  report.execute_report w wd explainer mf xt yt cfg nb [] = (log, res) →
  log `prefix_of` report.report_actions w wd explainer mf xt yt cfg nb ∧
  (res = Ok tt → log = report.report_actions w wd explainer mf xt yt cfg nb) ∧
  (∀ path, path ∈ concat (map report.written log) →
     ∃ name : string,
       name ∈ ["smart_explainer.pickle"; "x_train.csv"; "y_test.csv";
               "base_report.ipynb"]%string ∧
       path = report.os_path_join w wd [name]).
Proof.
  intros H. destruct (execute_report_log _ _ _ _ _ _ _ _ _ _ H) as [Hpre Hok].
  split; [done|]. split; [done|].
  intros path Hpath. apply (written_report_actions w wd explainer mf xt yt cfg nb).
  destruct Hpre as [rest ->].
  rewrite map_app, concat_app, elem_of_app. by left.
Qed.

Lemma execute_report_actions_witness :
  report.execute_report report.toy_world "out" (PObj "xpl") "meta.yml"
    PNone (PFrame toy.X1) PNone (PStr "") []
  = ([report.Explainer_save (PObj "xpl") "out/smart_explainer.pickle";
      report.To_csv (PFrame toy.X1) "out/y_test.csv";
      report.Execute_notebook (PStr "/opt/shapash/shapash/report/base_report.ipynb")
        "out/base_report.ipynb"
        [("dir_path"%string, PStr "out"); ("metadata_file"%string, PStr "meta.yml");
         ("config"%string, PDict [])]], Ok tt) ∧
  ∀ path,
    path ∈ concat (map report.written
                     [report.Explainer_save (PObj "xpl") "out/smart_explainer.pickle";
                      report.To_csv (PFrame toy.X1) "out/y_test.csv";
                      report.Execute_notebook
                        (PStr "/opt/shapash/shapash/report/base_report.ipynb")
                        "out/base_report.ipynb"
                        [("dir_path"%string, PStr "out");
                         ("metadata_file"%string, PStr "meta.yml");
                         ("config"%string, PDict [])]]) →
    ∃ name : string,
      name ∈ ["smart_explainer.pickle"; "x_train.csv"; "y_test.csv";
              "base_report.ipynb"]%string ∧
      path = report.os_path_join report.toy_world "out" [name].
Proof.
  assert (H : report.execute_report report.toy_world "out" (PObj "xpl") "meta.yml"
                PNone (PFrame toy.X1) PNone (PStr "") []
              = ([report.Explainer_save (PObj "xpl") "out/smart_explainer.pickle";
                  report.To_csv (PFrame toy.X1) "out/y_test.csv";
                  report.Execute_notebook
                    (PStr "/opt/shapash/shapash/report/base_report.ipynb")
                    "out/base_report.ipynb"
                    [("dir_path"%string, PStr "out");
                     ("metadata_file"%string, PStr "meta.yml");
                     ("config"%string, PDict [])]], Ok tt))
    by (vm_compute; reflexivity).
  split; [exact H|].
  exact (proj2 (proj2 (execute_report_actions _ _ _ _ _ _ _ _ _ _ H))).
Defined.

Lemma export_and_save_report_log w wd out log res :
  report.export_and_save_report w wd out [] = (log, res) →
  let filename := report.os_path_join w wd ["base_report.ipynb"%string] in
  let full :=
    [report.New_exporter
       (report.os_path_join w (report.get_project_root w)
          ["shapash"; "report"; "template"]%string);
     report.From_filename filename;
     report.Open_w out;
     report.Write out (report.converted w filename).1] in
  log `prefix_of` full ∧
  (res = Ok tt → log = full) ∧
  (report.attempt w (report.From_filename filename) ≠ Ok tt →
   log `prefix_of` take 2 full).
Proof.
  unfold report.export_and_save_report. cbv zeta.
  destruct (report.converted w _) as [body resources] eqn:Hconv.
  rewrite !run_io_bind. unfold report.perform. cbn [app fst].
  repeat match goal with
         | |- context [report.attempt w ?a] =>
             destruct (report.attempt w a) as [[]|?] eqn:?; cbn [app fst snd]
         end;
    intros [= <- <-]; cbn [take];
    (split; [eexists; reflexivity|]); (split; [done|]);
    intros Hne; solve [done | eexists; reflexivity].
Qed.



(** X21.  [export_and_save_report] creates the exporter, converts the
    notebook, opens the output file and writes the converted body, in that
    order and stopping at the first failure; when it returns, what it wrote
    is the body of the conversion, and when the conversion fails the output
    file is neither opened nor written. *)
Theorem export_writes_after_conversion w wd out log res :
  report.export_and_save_report w wd out [] = (log, res) →
  let filename := report.os_path_join w wd ["base_report.ipynb"%string] in
  (res = Ok tt →
   log = [report.New_exporter
            (report.os_path_join w (report.get_project_root w)
               ["shapash"; "report"; "template"]%string);
          report.From_filename filename;
          report.Open_w out;
          report.Write out (report.converted w filename).1]) ∧
  (report.attempt w (report.From_filename filename) ≠ Ok tt →
   concat (map report.written log) = []).
Proof.
  intros H filename.
  destruct (export_and_save_report_log _ _ _ _ _ H) as (_ & Hok & Hfail).
  split; [exact Hok|].
  intros Hne. destruct (Hfail Hne) as [rest Hrest]. cbn [take] in Hrest.
  destruct log as [|a1 [|a2 [|a3 log]]]; try done;
    cbn in Hrest; simplify_eq; done.
Qed.

Lemma export_writes_after_conversion_witness :
  report.export_and_save_report report.toy_world "out" "report.html" []
  = ([report.New_exporter "/opt/shapash/shapash/report/template";
      report.From_filename "out/base_report.ipynb";
      report.Open_w "report.html";
      report.Write "report.html" "<html></html>"], Ok tt) ∧
  concat (map report.written
            (report.export_and_save_report report.toy_world "missing" "report.html" []).1)
  = [].
Proof.
  split.
  - assert (H : report.export_and_save_report report.toy_world "out" "report.html" []
                = ((report.export_and_save_report report.toy_world "out"
                      "report.html" []).1, Ok tt)) by (vm_compute; reflexivity).
    pose proof (proj1 (export_writes_after_conversion _ _ _ _ _ H) eq_refl) as Hlog.
    rewrite H, Hlog. reflexivity.
  - refine (proj2 (export_writes_after_conversion report.toy_world "missing"
                     "report.html" _ _ (surjective_pairing _)) _).
    vm_compute. discriminate.
Defined.

(** ** Summarizing twice *)

Lemma sim_hasattr_data_core Q s1 s2 :
  same_core_bundle s1 s2 → Q s1 s2 → sim Q (hasattr_data s1) (hasattr_data s2).
Proof.
  intros [Hnone _] HQ. unfold hasattr_data, sim.
  destruct (data s1), (data s2); try done.
  - discriminate (proj2 Hnone eq_refl).
  - discriminate (proj1 Hnone eq_refl).
Qed.

Lemma sim_data_getitem_core Q (key : string) s1 s2 :
  key ≠ "summary"%string → same_core_bundle s1 s2 → Q s1 s2 →
  sim Q (data_getitem key s1) (data_getitem key s2).
Proof.
  intros Hkey [Hnone Hentries] HQ. specialize (Hentries key Hkey).
  unfold data_getitem. rewrite !run_bind. unfold self_data, bundle_entry in *.
  destruct (data s1) as [d1|], (data s2) as [d2|]; cbn in *.
  - rewrite Hentries. by destruct (d2 !! key).
  - discriminate (proj2 Hnone eq_refl).
  - discriminate (proj1 Hnone eq_refl).
  - done.
Qed.

Lemma sim_data_setitem_summary sm m v s1 s2 :
  agree_core sm m s1 s2 → sm = true → m = true →
  sim (agree (mkAttrs true true false true true))
      (data_setitem "summary" v s1) (data_setitem "summary" v s2).
Proof.
  intros (Hc & Hp & [Hnone Hentries] & Hsm & Hm) -> ->.
  unfold data_setitem. rewrite !run_bind. unfold self_data.
  destruct (data s1) as [d1|] eqn:H1, (data s2) as [d2|] eqn:H2; cbn.
  - split; [done|]. unfold agree. cbn.
    assert ((<["summary":=v]> d1 : gmap string pyobj) = <["summary":=v]> d2) as Hd.
    { apply map_eq. intros key. destruct (decide ("summary"%string = key)) as [<-|Hne].
      - by rewrite !lookup_insert_eq.
      - rewrite !lookup_insert_ne by done.
        specialize (Hentries key (λ H, Hne (eq_sym H))).
        unfold bundle_entry in Hentries. by rewrite H1, H2 in Hentries. }
    split; [exact Hc|]. split; [intros _; by f_equal|].
    split; [done|]. split; [done|]. split; auto.
  - discriminate (proj2 Hnone eq_refl).
  - discriminate (proj1 Hnone eq_refl).
  - done.
Qed.

Ltac agree_core_solve H :=
  let Hc := fresh in let Hp := fresh in let Hb := fresh in
  let Hsm := fresh in let Hm := fresh in
  destruct H as (Hc & Hp & Hb & Hsm & Hm);
  split; [exact Hc|]; split; [exact Hp|]; split; [exact Hb|];
  split; intros; cbn; auto.

Ltac sim_core_leaf :=
  lazymatch goal with
  | H : agree_core ?sm ?m ?s1 ?s2 |- sim _ (?c ?s1) (_ ?s2) =>
      lazymatch c with
      | hasattr_data => apply sim_hasattr_data_core; [apply H|exact H]
      | data_setitem "summary" _ =>
          eapply sim_data_setitem_summary; [exact H|reflexivity..]
      | data_getitem _ =>
          apply sim_data_getitem_core; [discriminate|apply H|exact H]
      | mask_params_getitem _ =>
          apply sim_mask_params_getitem; [apply H|exact H]
      | self_summary => apply sim_self_summary; [apply H; reflexivity|exact H]
      | self_mask => apply sim_self_mask; [apply H; reflexivity|exact H]
      | modify_self (with_summary _) =>
          apply (sim_modify_self (agree_core true m)); agree_core_solve H
      | modify_self (with_mask _) =>
          apply (sim_modify_self (agree_core sm true)); agree_core_solve H
      | modify_self (with_masked_contributions _) =>
          apply (sim_modify_self (agree_core sm m)); agree_core_solve H
      | raise _ => exact eq_refl
      | _ => first [apply sim_pure; [solve [auto 8 with pure]|exact H] | sim_sub H]
      end
  end.

Ltac sim_core_step :=
  lazymatch goal with
  | H : agree_core _ _ ?s1 ?s2 |- sim _ ((get_self ≫= _) ?s1) ((get_self ≫= _) ?s2) =>
      rewrite !run_get_self_bind; cbv beta; cfg_rewrite H
  | |- sim _ ((if ?b then _ else _) _) _ => destruct b
  | |- sim _ (match ?o with _ => _ end _) _ => destruct o
  | |- sim _ ((_ ≫= _) _) ((_ ≫= _) _) =>
      eapply sim_bind; [try sim_core_leaf|intros ? ? ? ?]
  | |- _ => sim_core_leaf
  end.

Ltac sim_sub H ::= fail.

Lemma filter_sim_core env m s1 s2 :
  agree_core true m s1 s2 →
  sim (agree_core true true) (filter env s1) (filter env s2).
Proof.
  intros H. unfold filter, filter_masks. cbv zeta.
  repeat sim_core_step.
Qed.

Ltac sim_sub H ::= first [eapply filter_sim_core; exact H].

Lemma summarize_sim_core env sm m s1 s2 :
  agree_core sm m s1 s2 →
  sim (agree (mkAttrs true true false true true)) (summarize env s1) (summarize env s2).
Proof.
  intros H. unfold summarize.
  repeat first [sim_core_step | sim_step].
Qed.

#[local] Instance same_settings_refl : Reflexive same_settings.
Proof. intros s. split; [reflexivity|done]. Qed.

#[local] Instance same_settings_trans : Transitive same_settings.
Proof.
  intros s1 s2 s3 [H1 H2] [H3 H4]. split; [by etrans|congruence].
Qed.

Lemma filter_same_settings env : keeps same_settings (filter env).
Proof. unfold filter. repeat keeps_step; by repeat split. Qed.

Lemma summarize_same_settings env : keeps same_settings (summarize env).
Proof.
  unfold summarize.
  repeat first [apply filter_same_settings | keeps_step]; by repeat split.
Qed.

(** X22.  [summarize] is idempotent: called again straight after it has
    returned, it returns the same table and leaves the bundle, the ranked
    summary and the mask as the first call left them. *)
Theorem summarize_twice env s s1 v :
  summarize env s = (s1, Ok v) →
  ∃ s2, summarize env s1 = (s2, Ok v) ∧
        data s2 = data s1 ∧ summary s2 = summary s1 ∧ mask s2 = mask s1.
Proof.
  intros H.
  assert (agree_core false false s s1) as Hag.
  { pose proof (keeps_run _ _ _ _ _ (summarize_same_settings env) H) as [Hc Hp].
    pose proof (keeps_run _ _ _ _ _ (summarize_same_bundle env) H) as Hb.
    pose proof (keeps_run _ _ _ _ _ (summarize_bundle_kept env) H) as [Hsome _].
    split; [exact Hc|]. split; [done|]. split; [|done].
    split; [|intros key Hkey; by rewrite (Hb key Hkey)].
    assert (is_Some (data s)) as Hd.
    { destruct (data s) eqn:Hd; [by eexists|].
      rewrite (summarize_without_data env s Hd) in H. discriminate H. }
    destruct Hd as [d Hd], (Hsome (ex_intro _ d Hd)) as [d1 Hd1].
    rewrite Hd, Hd1. split; discriminate. }
  pose proof (summarize_sim_core env _ _ _ _ Hag) as Hsim.
  rewrite H in Hsim.
  destruct (summarize env s1) as [s2 [v2|e2]]; cbn in Hsim; [|done].
  destruct Hsim as [<- (_ & Hd & _ & _ & Hsm & Hm)].
  exists s2. split; [done|].
  by rewrite (Hd eq_refl), (Hsm eq_refl), (Hm eq_refl).
Qed.

Lemma summarize_twice_witness :
  ∃ s2, summarize toy.env (summarize toy.env toy.loaded).1
        = (s2, Ok (PList [PFrame (mkFrame [0; 1] [("ypred"%string, "float64"%string)]
                                          [[CNum 0]; [CNum 0]]);
                          PFrame toy.X1])) ∧
        data s2 = data (summarize toy.env toy.loaded).1 ∧
        summary s2 = summary (summarize toy.env toy.loaded).1 ∧
        mask s2 = mask (summarize toy.env toy.loaded).1.
Proof.
  apply (summarize_twice toy.env toy.loaded).
  vm_compute. reflexivity.
Defined.

(** ** The errors of [check_dataset_features] *)

Lemma check_dataset_features_raise_cases x s e :
  (check_dataset_features x s).2 = Raise e →
  e = AttributeError "columns" ∨
  e = AssertionError ∨
  (∃ key, e = KeyError key) ∨
  (e = ValueError "min() arg is an empty sequence" ∧ columns_dict s = ∅).
Proof.
  destruct x as [| | | | | | |xf| |];
    try (intros H; cbn in H; injection H as <-; by left).
  rewrite run_check_dataset_features. cbn [snd]. unfold check_features_result.
  destruct (negb (forallb _ (column_names xf))); [intros [= <-]; right; by left|].
  destruct (py_min (dict_keys (columns_dict s))) as [lo|e0] eqn:Hlo.
  - destruct (py_max (dict_keys (columns_dict s))) as [hi|e1] eqn:Hhi.
    + destruct (lookup_all (columns_dict s) (py_range lo (hi + 1))) as [fo|e2] eqn:Hfo.
      * destruct (select_columns xf fo) as [x'|e3] eqn:Hsel.
        -- destruct (negb (forallb _ (column_names x'))); [|done].
           intros [= <-]. right. by left.
        -- intros [= <-]. unfold select_columns in Hsel.
           destruct (column_positions fo (column_names xf)) as [ps|e4] eqn:E; [done|].
           injection Hsel as <-.
           destruct (column_positions_Raise _ _ _ E) as (name & -> & _).
           right. right. left. by eexists.
      * intros [= <-]. destruct (lookup_all_Raise _ _ _ Hfo) as (k & -> & _).
        right. right. left. by eexists.
    + destruct (dict_keys (columns_dict s)); cbn in Hlo, Hhi; discriminate.
  - intros [= <-]. right. right. right.
    unfold py_min in Hlo. destruct (dict_keys (columns_dict s)) as [|k ks] eqn:Hk; [|done].
    injection Hlo as <-. split; [done|].
    apply map_empty. intros i. destruct (columns_dict s !! i) as [v|] eqn:Hi; [|done].
    assert (i ∈ dict_keys (columns_dict s)) as Hin by (apply elem_of_dict_keys; eauto).
    rewrite Hk in Hin. by apply elem_of_nil in Hin.
Qed.



(** ** The strategy behind [self.state] *)

Lemma compute_contributions_state env c s s' r :
  compute_contributions env c s = (s', Ok r) →
  is_None c = false →
  state s' = Some (choose_state (transform.adapt_contributions (_case s) c)).
Proof.
  intros H Hc. unfold compute_contributions in H.
  apply bind_ok_inv in H as (s1 & has & E1 & H).
  destruct (negb has); [done|].
  apply bind_ok_inv in H as (s2 & x & E2 & H).
  destruct (is_None x); [done|].
  apply bind_ok_inv in H as (s3 & yp & E3 & H).
  apply bind_ok_inv in H as (s4 & [] & E4 & H).
  assert (_case s4 = _case s) as Hcase.
  { apply (keeps_run same_configuration) in E1; [|keeps_step].
    apply (keeps_run same_configuration) in E2; [|keeps_step].
    apply (keeps_run same_configuration) in E3; [|keeps_step].
    apply (keeps_run same_configuration) in E4.
    - unfold same_configuration in *. destruct_and!. congruence.
    - keeps_step; [|keeps_step].
      apply keeps_bind; [exact _|apply predict_keeps_configuration|intros ?; keeps_step]. }
  rewrite Hc in H.
  apply bind_ok_inv in H as (s5 & c' & E5 & H). injection E5 as <- <-.
  apply bind_ok_inv in H as (s6 & ac & E6 & H).
  rewrite run_adapt_contributions in E6. injection E6 as <- <-.
  apply bind_ok_inv in H as (s7 & [] & E7 & H). injection E7 as <-.
  assert (Reflexive (λ s s' : SmartPredictor, state s' = state s)) by (by intros ?).
  assert (Transitive (λ s s' : SmartPredictor, state s' = state s))
    by (intros ? ? ? H1 H2; by rewrite H2).
  match type of H with
  | ?k _ = _ =>
      assert (keeps (λ s s' : SmartPredictor, state s' = state s) k) as Hk
  end.
  { unfold validate_contributions, apply_preprocessing_for_contributions,
      check_contributions, predict_proba.
    repeat keeps_step; done. }
  apply (keeps_run _ _ _ _ _ Hk) in H. rewrite H. cbn. by rewrite Hcase.
Qed.

(** X24.  When [compute_contributions] returns for contributions it was
    given, [self.state] is the strategy chosen for the adapted
    contributions: the per-class [MultiDecorator] for a classifier given a
    table, an array or a list, the plain [SmartState] for a regressor given a
    table or an array. *)
Theorem state_follows_adapted_contributions env c s s' r :
  compute_contributions env c s = (s', Ok r) →
  (_case s = "classification"%string →
   (transform.is_table_or_array c = true ∨ ∃ l, c = PList l) →
   state s' = Some (MultiDecorator SmartState)) ∧
  (_case s = "regression"%string →
   transform.is_table_or_array c = true →
   state s' = Some SmartState).
Proof.
  intros H. split.
  - intros Hcase Hshape.
    assert (is_None c = false) as Hc.
    { destruct Hshape as [Ht|[l ->]]; [by apply is_table_or_array_not_None|done]. }
    rewrite (compute_contributions_state _ _ _ _ _ H Hc), Hcase.
    destruct Hshape as [Ht|[l ->]]; [by rewrite adapt_single_table|done].
  - intros Hcase Ht.
    rewrite (compute_contributions_state _ _ _ _ _ H (is_table_or_array_not_None _ Ht)).
    rewrite Hcase, adapt_other_case by done. by destruct c.
Qed.

Lemma state_follows_adapted_contributions_witness :
  ∃ s' r, compute_contributions toy.env (PFrame toy.X1) toy.loaded = (s', Ok r) ∧
          state s' = Some SmartState.
Proof.
  destruct (compute_contributions toy.env (PFrame toy.X1) toy.loaded)
    as [s' [r|e]] eqn:H.
  - exists s', r. split; [reflexivity|].
    apply (state_follows_adapted_contributions toy.env (PFrame toy.X1) toy.loaded s' r H);
      reflexivity.
  - vm_compute in H. discriminate H.
Defined.
